(** * PicoHub: the artifact admission pipeline

    A shallow embedding of the Go backend's admission pipeline
    (package [middleware]: the rate limiter; package [service]: the
    storage service and its archive validator; package [scanner]; package
    [handler]: the skill upload handler), followed by the properties its
    specification states about it.

    Conventions.
    - Go's [int64], and [int] as 64-bit platforms have it, are integers in
      [Z] whose arithmetic wraps around at 64 bits ([GoInt.wrap]).
    - An instant ([time.Time]) and a duration are numbers of nanoseconds in
      [Z]; [time.Now] is a reading handed in by the environment.
    - Go strings are [string]s (sequences of 8-bit characters); file
      contents and streams are [list byte].
    - The file system is a finite map from path to contents.  Two paths are
      the same file exactly when they are the same string, and the device
      itself never fails: an operation fails only for the reason its
      arguments give it (removing or renaming a path that is absent, no
      free temporary name).
    - Library code whose result depends on data formats ([crypto/sha256],
      [archive/zip], [encoding/json], [jwt]) and the database behind the
      listing enter as parameters. *)

From Stdlib Require Import ZArith Lia Ascii List.
From Stdlib Require String.
From Stdlib.Strings Require Import Byte.
From stdpp Require Import base option list gmap strings.

Local Open Scope Z_scope.

(** ** Machine integers *)

Module GoInt.

Definition min_int : Z := - 2 ^ 63.
Definition max_int : Z := 2 ^ 63 - 1.

(** The value a 64-bit two's-complement register holds after computing [z]. *)
Definition wrap (z : Z) : Z := (z + 2 ^ 63) mod 2 ^ 64 - 2 ^ 63.

Definition in_range (z : Z) : Prop := min_int <= z <= max_int.

End GoInt.

(** ** Package [time] *)

Module Time.

(** [t.After(u)] *)
Definition After (t u : Z) : bool := u <? t.

(** [t.Add(d)] *)
Definition Add (t d : Z) : Z := t + d.

End Time.

(** ** Package [middleware]: the rate limiter *)

Module Middleware.

Record visitor := mkVisitor { count : Z; resetAt : Z }.

(** [rateLimiter] without its mutex: [allow] below is the body that runs
    with the mutex held.  The mutex itself is part of [Concurrent]. *)
Record rateLimiter := mkRateLimiter {
  visitors : gmap string visitor;
  limit : Z;
  window : Z
}.

Definition set_visitors (rl : rateLimiter) (vs : gmap string visitor) : rateLimiter :=
  {| visitors := vs; limit := limit rl; window := window rl |}.

Definition newRateLimiter (limit window : Z) : rateLimiter :=
  {| visitors := ∅; limit := limit; window := window |}.

(** The two clock readings one call of [allow] may take: [t_check] is the
    [time.Now()] compared with [resetAt] (taken only when the key has a
    window), [t_install] the [time.Now()] a fresh window is dated from. *)
Record ticks := mkTicks { t_check : Z; t_install : Z }.

Definition fresh_window (rl : rateLimiter) (now : ticks) : visitor :=
  {| count := 1; resetAt := Time.Add (t_install now) (window rl) |}.

Definition allow (rl : rateLimiter) (key : string) (now : ticks) : bool * rateLimiter :=
  match visitors rl !! key with
  | Some v =>
      if Time.After (t_check now) (resetAt v) then
        (true, set_visitors rl (<[key := fresh_window rl now]> (visitors rl)))
      else
        let v' := {| count := GoInt.wrap (count v + 1); resetAt := resetAt v |} in
        (count v' <=? limit rl, set_visitors rl (<[key := v']> (visitors rl)))
  | None =>
      (true, set_visitors rl (<[key := fresh_window rl now]> (visitors rl)))
  end.

(** One pass of the sweep in [cleanup], with the mutex held: every window
    whose reset time has passed is deleted.  The loop reads the clock once
    per entry; [now] gives the reading for each key. *)
Definition sweep (rl : rateLimiter) (now : string -> Z) : rateLimiter :=
  set_visitors rl
    (filter (fun kv => Time.After (now kv.1) (resetAt kv.2) = false) (visitors rl)).

(** A run of [allow] calls for one key, one after the other. *)
Fixpoint allow_run (rl : rateLimiter) (key : string) (nows : list ticks)
  : list bool * rateLimiter :=
  match nows with
  | [] => ([], rl)
  | now :: rest =>
      let '(b, rl1) := allow rl key now in
      let '(bs, rl2) := allow_run rl1 key rest in
      (b :: bs, rl2)
  end.

(** "No window exists for the key, or the existing window's reset time has
    passed", as seen by a call reading the clock at [now]. *)
Definition no_live_window (rl : rateLimiter) (key : string) (now : ticks) : Prop :=
  match visitors rl !! key with
  | None => True
  | Some v => resetAt v < t_check now
  end.

End Middleware.

(** ** The rate limiter under concurrent calls

    Goroutines that all call [allow(key)] on one limiter, next to the
    [cleanup] goroutine, under any scheduler.  A goroutine moves by the
    statements of [allow]; [rl.mu.Lock()] can be taken only while the mutex
    is free. *)

Module Concurrent.
Import Middleware.

(** Where a goroutine in [allow(key)] stands. *)
Inductive pc :=
  | Start                        (* before [rl.mu.Lock()] *)
  | Locked                       (* holds the mutex; before the lookup and the test *)
  | Fresh                        (* the test held: about to install a window *)
  | Live (v : visitor)           (* the test failed on the window [v]: about to count *)
  | Unlocking (admitted : bool)  (* result set; the deferred [Unlock] comes next *)
  | Done (admitted : bool).      (* returned *)

Inductive owner := Goroutine (i : nat) | Sweeper.

Record state := mkState {
  shared : rateLimiter;
  mu : option owner;
  pcs : list pc;
  sweeping : bool;   (* [cleanup] is between its [Lock] and its [Unlock] *)
  clock : Z
}.

(** What the scheduler and the clock may do next. *)
Inductive action :=
  | Tick (d : Z)      (* time passes *)
  | Run (i : nat)     (* goroutine [i] executes its next statement *)
  | RunSweeper.       (* [cleanup] executes its next statement *)

Definition set_pc (s : state) (i : nat) (p : pc) : state :=
  {| shared := shared s; mu := mu s; pcs := <[i := p]> (pcs s);
     sweeping := sweeping s; clock := clock s |}.

Definition set_window (s : state) (key : string) (v : visitor) : state :=
  {| shared := set_visitors (shared s) (<[key := v]> (visitors (shared s)));
     mu := mu s; pcs := pcs s; sweeping := sweeping s; clock := clock s |}.

Definition set_mu (s : state) (m : option owner) : state :=
  {| shared := shared s; mu := m; pcs := pcs s; sweeping := sweeping s; clock := clock s |}.

(** The next statement of goroutine [i]; [None] when it cannot run (it has
    returned, or it waits for the mutex). *)
Definition run_goroutine (key : string) (s : state) (i : nat) : option state :=
  match pcs s !! i with
  | Some Start =>
      match mu s with
      | None => Some (set_pc (set_mu s (Some (Goroutine i))) i Locked)
      | Some _ => None
      end
  | Some Locked =>
      Some (set_pc s i
              match visitors (shared s) !! key with
              | Some v => if Time.After (clock s) (resetAt v) then Fresh else Live v
              | None => Fresh
              end)
  | Some Fresh =>
      Some (set_pc (set_window s key
                      {| count := 1; resetAt := Time.Add (clock s) (window (shared s)) |})
                   i (Unlocking true))
  | Some (Live v) =>
      let v' := {| count := GoInt.wrap (count v + 1); resetAt := resetAt v |} in
      Some (set_pc (set_window s key v') i (Unlocking (count v' <=? limit (shared s))))
  | Some (Unlocking admitted) =>
      Some (set_pc (set_mu s None) i (Done admitted))
  | Some (Done _) | None => None
  end.

(** The next statement of [cleanup]: take the mutex when it is free, then
    sweep and release it (the sweep reads the clock at one instant). *)
Definition run_sweeper (s : state) : option state :=
  if sweeping s then
    Some {| shared := sweep (shared s) (fun _ => clock s); mu := None; pcs := pcs s;
            sweeping := false; clock := clock s |}
  else
    match mu s with
    | None => Some {| shared := shared s; mu := Some Sweeper; pcs := pcs s;
                      sweeping := true; clock := clock s |}
    | Some _ => None
    end.

Definition exec1 (key : string) (s : state) (a : action) : option state :=
  match a with
  | Tick d =>
      if 0 <=? d
      then Some {| shared := shared s; mu := mu s; pcs := pcs s;
                   sweeping := sweeping s; clock := clock s + d |}
      else None
  | Run i => run_goroutine key s i
  | RunSweeper => run_sweeper s
  end.

(** A schedule, from the left; [None] when it asks for a step that cannot
    be taken. *)
Fixpoint exec (key : string) (s : state) (schedule : list action) : option state :=
  match schedule with
  | [] => Some s
  | a :: rest =>
      match exec1 key s a with
      | Some s' => exec key s' rest
      | None => None
      end
  end.

(** [calls] goroutines about to call [allow] on [rl], at time [t0]. *)
Definition initial (rl : rateLimiter) (calls : nat) (t0 : Z) : state :=
  {| shared := rl; mu := None; pcs := replicate calls Start; sweeping := false; clock := t0 |}.

Fixpoint tally (f : pc -> bool) (l : list pc) : nat :=
  match l with
  | [] => 0
  | p :: rest => (if f p then 1 else 0) + tally f rest
  end.

Definition returned (p : pc) : bool :=
  match p with Done _ => true | _ => false end.
Definition admitted (p : pc) : bool :=
  match p with Done true => true | _ => false end.
Definition denied (p : pc) : bool :=
  match p with Done false => true | _ => false end.

(** The calls that have returned true, and false. *)
Definition admissions (s : state) : nat := tally admitted (pcs s).
Definition denials (s : state) : nat := tally denied (pcs s).

(** The schedule that lets goroutines [first], [first + 1], ... (of them
    [calls]) run one after the other, each through the four statements of
    its call. *)
Definition one_call (i : nat) : list action := [Run i; Run i; Run i; Run i].
Definition in_turn (first calls : nat) : list action :=
  flat_map one_call (seq first calls).

(** The vocabulary of the invariant: a goroutine is inside the critical
    section from its [Lock] to its [Unlock]; it has committed once it has
    written the window; it is counted when it committed with result true. *)
Definition b2n (b : bool) : nat := if b then 1 else 0.

Definition inside (p : pc) : bool :=
  match p with Locked | Fresh | Live _ | Unlocking _ => true | _ => false end.
Definition committed (p : pc) : bool :=
  match p with Unlocking _ | Done _ => true | _ => false end.
Definition counted (p : pc) : bool :=
  match p with Unlocking true | Done true => true | _ => false end.

Definition holders (m : option owner) : nat :=
  match m with Some (Goroutine _) => 1 | _ => 0 end.

(** What holds in every state of a burst of [2 * n] calls against limit
    [n] that started at time [lo] with no window for [key], as long as the
    clock has not passed [lo + w]: at most one goroutine is inside the
    critical section, and it is the holder of the mutex; the window of
    [key] counts the goroutines that have committed and is not due before
    [lo + w]; of these, the first [n] are counted; and what a goroutine
    inside the critical section has read is still what the limiter holds. *)
Record Inv (n : nat) (key : string) (lo w : Z) (s : state) : Prop := mkInv {
  inv_limit : limit (shared s) = Z.of_nat n;
  inv_window : window (shared s) = w;
  inv_length : length (pcs s) = (2 * n)%nat;
  inv_clock : lo <= clock s;
  inv_inside : tally inside (pcs s) = holders (mu s);
  inv_sweeping : sweeping s = true <-> mu s = Some Sweeper;
  inv_none : tally committed (pcs s) = 0%nat -> visitors (shared s) !! key = None;
  inv_some : tally committed (pcs s) <> 0%nat ->
    exists r, visitors (shared s) !! key
                = Some {| count := Z.of_nat (tally committed (pcs s)); resetAt := r |}
              /\ lo + w <= r;
  inv_counted : tally counted (pcs s) = Nat.min (tally committed (pcs s)) n;
  inv_fresh : forall i, pcs s !! i = Some Fresh -> tally committed (pcs s) = 0%nat;
  inv_live : forall i v, pcs s !! i = Some (Live v) -> visitors (shared s) !! key = Some v
}.

End Concurrent.

(** ** Go errors *)

Module Errors.

(** The error values of the pipeline: the four sentinels of package
    [service]; an error value produced by a library ([os], [archive/zip],
    [encoding/json], [database/sql]); [fmt.Errorf] of a plain message; and
    [fmt.Errorf] of a message ending in the verb [%w], which wraps the
    error given for it. *)
Inductive error : Type :=
  | ErrFileTooLarge
  | ErrInvalidPackage
  | ErrNoManifest
  | ErrSymlinkDetected
  | LibError (pkg msg : string)
  | Errorf (msg : string)
  | Errorf_w (msg : string) (wrapped : error).

#[export] Instance error_eq_dec : EqDecision error.
Proof. intros x y. unfold Decision. decide equality; apply String.string_dec. Defined.

(** [errors.Is(err, target)]: [err] or an error it wraps, at any depth, is
    [target]. *)
Fixpoint Is (err target : error) : bool :=
  if decide (err = target) then true
  else match err with
       | Errorf_w _ inner => Is inner target
       | _ => false
       end.

(** [err.Error()] *)
Fixpoint Error (err : error) : string :=
  match err with
  | ErrFileTooLarge => "file exceeds maximum size"
  | ErrInvalidPackage => "invalid skill package"
  | ErrNoManifest => "manifest.json not found in package"
  | ErrSymlinkDetected => "symbolic links are not allowed"
  | LibError _ msg => msg
  | Errorf msg => msg
  | Errorf_w msg inner => msg +:+ Error inner
  end.

End Errors.

(** ** Packages [strings], [path/filepath] and [encoding/hex] *)

Module Strings.

(** [strings.HasPrefix(s, prefix)] *)
Definition HasPrefix (s prefix : string) : bool := String.prefix prefix s.

(** [strings.Contains(s, substr)]: [substr] starts at some position of [s]. *)
Fixpoint Contains (s substr : string) : bool :=
  HasPrefix s substr ||
  match s with
  | EmptyString => false
  | String _ rest => Contains rest substr
  end.

(** [strings.HasSuffix(s, suffix)] *)
Definition HasSuffix (s suffix : string) : bool :=
  (String.length suffix <=? String.length s)%nat &&
  bool_decide
    (String.substring (String.length s - String.length suffix) (String.length suffix) s
     = suffix).

(** [strings.TrimSuffix(s, suffix)] *)
Definition TrimSuffix (s suffix : string) : string :=
  if HasSuffix s suffix
  then String.substring 0 (String.length s - String.length suffix) s
  else s.

(** [strings.Split(s, sep)] for a separator of one byte, the only kind the
    pipeline splits on: the pieces of [s] between the occurrences of [sep],
    one more than there are occurrences. *)
Fixpoint Split (s : string) (sep : ascii) : list string :=
  match s with
  | EmptyString => [EmptyString]
  | String c rest =>
      if bool_decide (c = sep) then EmptyString :: Split rest sep
      else match Split rest sep with
           | piece :: pieces => String c piece :: pieces
           | [] => [String c EmptyString]
           end
  end.

End Strings.

Module Filepath.

Definition Separator : ascii := "/"%char.

Definition IsPathSeparator (c : ascii) : bool := bool_decide (c = Separator).

Fixpoint drop_while {A} (p : A -> bool) (l : list A) : list A :=
  match l with
  | [] => []
  | x :: rest => if p x then drop_while p rest else l
  end.

Fixpoint take_while {A} (p : A -> bool) (l : list A) : list A :=
  match l with
  | [] => []
  | x :: rest => if p x then x :: take_while p rest else []
  end.

(** [filepath.Base(path)] on a system whose separator is the slash and
    whose paths have no volume name: the last element of the path, after
    trailing separators are dropped; ["."] for the empty path and ["/"] for
    a path of separators only. *)
Definition Base (path : string) : string :=
  if bool_decide (path = "") then "."
  else
    let backwards := rev (String.list_ascii_of_string path) in
    let stripped := drop_while IsPathSeparator backwards in
    let element := take_while (fun c => negb (IsPathSeparator c)) stripped in
    match element with
    | [] => String Separator ""
    | _ => String.string_of_list_ascii (rev element)
    end.

(** [strings.Join(elems, "/")] *)
Fixpoint join_elements (elems : list string) : string :=
  match elems with
  | [] => EmptyString
  | [e] => e
  | e :: rest => e +:+ "/" +:+ join_elements rest
  end.

(** One round of the loop of [filepath.Clean], on the next element of the
    path: an empty element and [.] are skipped; [..] takes back the last
    element written, if there is one that is not itself [..], is dropped
    at the root, and is written otherwise; any other element is written.
    [written] holds the elements written so far, the last one first. *)
Definition clean_element (rooted : bool) (written : list string) (element : string)
  : list string :=
  if bool_decide (element = EmptyString) || bool_decide (element = ".") then written
  else if bool_decide (element = "..") then
    match written with
    | last :: before =>
        if bool_decide (last = "..") then element :: written else before
    | [] => if rooted then written else [element]
    end
  else element :: written.

(** [filepath.Clean(path)] on a system whose separator is the slash and
    whose paths have no volume name. *)
Definition Clean (path : string) : string :=
  if bool_decide (path = EmptyString) then "."
  else
    let rooted := Strings.HasPrefix path "/" in
    let written := fold_left (clean_element rooted) (Strings.Split path Separator) [] in
    let out := join_elements (rev written) in
    if rooted then "/" +:+ out
    else if bool_decide (out = EmptyString) then "." else out.

(** [filepath.Join(elem...)]: the elements from the first one that is not
    empty on, joined by separators, in clean form; the empty string when
    all are empty. *)
Fixpoint join (elem : list string) : string :=
  match elem with
  | [] => EmptyString
  | e :: rest =>
      if bool_decide (e = EmptyString) then join rest
      else Clean (join_elements elem)
  end.

Definition Join (dir name : string) : string := join [dir; name].

End Filepath.

Module Hex.

Definition hextable : string := "0123456789abcdef".

Definition digit (n : N) : ascii :=
  match String.get (N.to_nat n) hextable with
  | Some c => c
  | None => "0"%char
  end.

(** [hex.EncodeToString(src)]: two lower-case digits for each byte, the
    high half first. *)
Fixpoint EncodeToString (src : list byte) : string :=
  match src with
  | [] => ""
  | b :: rest =>
      let n := Byte.to_N b in
      String (digit (N.shiftr n 4)) (String (digit (N.land n 15)) (EncodeToString rest))
  end.

End Hex.

(** ** Package [os]: files *)

Module OS.
Import Errors.

(** The file system: the contents of every file, by path. *)
Abbreviation FS := (gmap string (list byte)).

(** [os.ModeSymlink], bit 27 of a [FileMode]. *)
Definition ModeSymlink : Z := Z.shiftl 1 27.

Definition ErrNotExist (op name : string) : error :=
  LibError "os" (op +:+ " " +:+ name +:+ ": no such file or directory").

Definition ErrExist (op name : string) : error :=
  LibError "os" (op +:+ " " +:+ name +:+ ": file exists").

(** [os.Remove(name)] *)
Definition Remove (fs : FS) (name : string) : option error * FS :=
  match fs !! name with
  | Some _ => (None, delete name fs)
  | None => (Some (ErrNotExist "remove" name), fs)
  end.

(** [os.Rename(oldpath, newpath)]; a file already at [newpath] is replaced. *)
Definition Rename (fs : FS) (oldpath newpath : string) : option error * FS :=
  match fs !! oldpath with
  | Some data => (None, <[newpath := data]> (delete oldpath fs))
  | None => (Some (ErrNotExist "rename" oldpath), fs)
  end.

(** The split of a [CreateTemp] pattern at its last star. *)
Fixpoint prefixAndSuffix (pattern : string) : option (string * string) :=
  match pattern with
  | EmptyString => None
  | String c rest =>
      match prefixAndSuffix rest with
      | Some (pre, suf) => Some (String c pre, suf)
      | None => if bool_decide (c = "*"%char) then Some (EmptyString, rest) else None
      end
  end.

(** The retry loop of [os.CreateTemp]: the first candidate name that is not
    taken is created, empty; [randoms] are the strings the random source
    yields for the attempts the loop is allowed. *)
Fixpoint CreateTemp_try (fs : FS) (pre suf : string) (randoms : list string)
  : error + (string * FS) :=
  match randoms with
  | [] => inl (ErrExist "createtemp" (pre +:+ "*" +:+ suf))
  | r :: rest =>
      let name := pre +:+ r +:+ suf in
      match fs !! name with
      | None => inr (name, <[name := []]> fs)
      | Some _ => CreateTemp_try fs pre suf rest
      end
  end.

(** [os.CreateTemp(dir, pattern)] for a directory that is not empty and
    does not end in a separator. *)
Definition CreateTemp (fs : FS) (dir pattern : string) (randoms : list string)
  : error + (string * FS) :=
  let '(pre, suf) := default (pattern, EmptyString) (prefixAndSuffix pattern) in
  CreateTemp_try fs (dir +:+ "/" +:+ pre) suf randoms.

(** [f.Write(b)] on the file opened at [name], whose offset is its end. *)
Definition File_Write (name : string) (fs : FS) (b : list byte) : FS :=
  <[name := default [] (fs !! name) ++ b]> fs.

End OS.

(** ** Package [io] *)

Module IO.
Import Errors.

(** An [io.Reader] over a stream that holds [pending] and then ends, at
    [io.EOF] or with the error [failure]. *)
Record Reader := mkReader { pending : list byte; failure : option error }.

Inductive status := Ok | EOF | Failed (e : error).

(** [r.Read(p)] with [len(p) = n]. *)
Definition Read (r : Reader) (n : nat) : list byte * status * Reader :=
  match pending r with
  | [] => ([], from_option Failed EOF (failure r), r)
  | _ => (take n (pending r), Ok, {| pending := drop n (pending r); failure := failure r |})
  end.

(** [io.LimitedReader] *)
Record LimitedReader := mkLimitedReader { R : Reader; N : Z }.

(** [io.LimitReader(r, n)] *)
Definition LimitReader (r : Reader) (n : Z) : LimitedReader := {| R := r; N := n |}.

(** [Read(p)] of a [LimitedReader], with [len(p) = n]. *)
Definition LimitedReader_Read (l : LimitedReader) (n : nat)
  : list byte * status * LimitedReader :=
  if N l <=? 0 then ([], EOF, l)
  else
    let n' := if N l <? Z.of_nat n then Z.to_nat (N l) else n in
    let '(got, st, r') := Read (R l) n' in
    (got, st, {| R := r'; N := N l - Z.of_nat (length got) |}).

(** The size of the buffer [io.Copy] allocates for a [LimitedReader]. *)
Definition copy_buffer_size (src : LimitedReader) : nat :=
  if N src <? 32 * 1024
  then (if N src <? 1 then 1%nat else Z.to_nat (N src))
  else Z.to_nat (32 * 1024).

(** The loop of [io.Copy] into a writer that takes every byte handed to it:
    read a buffer, write what was read, stop at the first [EOF] or error.
    [fuel] bounds the number of rounds. *)
Fixpoint copy_loop {W : Type} (write : W -> list byte -> W) (fuel : nat) (size : nat)
    (src : LimitedReader) (dst : W) (written : Z)
  : Z * option error * LimitedReader * W :=
  match fuel with
  | O => (written, None, src, dst)
  | S fuel' =>
      let '(got, st, src') := LimitedReader_Read src size in
      let dst' := match got with [] => dst | _ => write dst got end in
      let written' := written + Z.of_nat (length got) in
      match st with
      | Ok => copy_loop write fuel' size src' dst' written'
      | EOF => (written', None, src', dst')
      | Failed e => (written', Some e, src', dst')
      end
  end.

(** [io.Copy(dst, src)]; every round but the last consumes at least one
    pending byte, so one round more than there are bytes is enough. *)
Definition Copy {W : Type} (write : W -> list byte -> W) (dst : W) (src : LimitedReader)
  : Z * option error * LimitedReader * W :=
  copy_loop write (S (length (pending (R src)))) (copy_buffer_size src) src dst 0.

(** How many bytes a copy from a reader limited to [n] takes from a stream
    that holds [data]: all of them, or as many as the limit allows. *)
Definition consumed (n : Z) (data : list byte) : nat :=
  Nat.min (Z.to_nat n) (length data).

(** [io.MultiWriter(w1, w2)] *)
Definition MultiWriter {W1 W2 : Type}
    (write1 : W1 -> list byte -> W1) (write2 : W2 -> list byte -> W2)
  : W1 * W2 -> list byte -> W1 * W2 :=
  fun dst b => (write1 dst.1 b, write2 dst.2 b).

End IO.

(** ** Package [archive/zip] *)

Module Zip.
Import Errors.

(** An error value of package [archive/zip] with the given text. *)
Definition zipError (msg : string) : error := LibError "archive/zip" msg.

(** One entry of an opened archive: its stored name, the mode
    [FileInfo().Mode()] reports for it, and what [Open()] yields: the
    contents of the entry, or the text of the library's error. *)
Record File := mkFile {
  Name : string;
  Mode : Z;
  Open : string + list byte
}.

End Zip.

(** ** Package [service]: the storage service *)

Module Service.
Import Errors.

Record StorageService := mkStorageService {
  uploadDir : string;
  maxFileSize : Z
}.

Record SkillManifest := mkSkillManifest {
  Name : string;
  Slug : string;
  Version : string;
  Description : string;
  Category : string;
  Tags : list string;
  Author : string;
  EntryPoint : string
}.

(** What the environment decides during one [SaveFile]: the random strings
    [os.CreateTemp] draws and the identifier [uuid.New().String()] returns. *)
Record Entropy := mkEntropy { tempNames : list string; newUUID : string }.

Section WithLibraries.

(** [sha256.Sum256]: the digest of a byte sequence. *)
Variable sha256_Sum : list byte -> list byte.
(** [zip.NewReader] on the bytes of a file: the entries of its central
    directory in order, or the text of the library's error. *)
Variable zip_NewReader : list byte -> string + list Zip.File.
(** [json.NewDecoder(rc).Decode(&manifest)] on the bytes [rc] yields: the
    manifest decoded from them, or the text of the library's error. *)
Variable json_Decode : list byte -> string + SkillManifest.

(** [hash.Hash] as [sha256.New()] gives it: the state is what has been
    written so far, [Sum(nil)] is its digest. *)
Definition hasher_New : list byte := [].
Definition hasher_Write (h : list byte) (b : list byte) : list byte := h ++ b.
Definition hasher_Sum (h : list byte) : list byte := sha256_Sum h.

(** [zip.OpenReader(path)] *)
Definition zip_OpenReader (fs : OS.FS) (path : string) : error + list Zip.File :=
  match fs !! path with
  | None => inl (OS.ErrNotExist "open" path)
  | Some data =>
      match zip_NewReader data with
      | inl msg => inl (Zip.zipError msg)
      | inr files => inr files
      end
  end.

Definition jsonError (msg : string) : error := LibError "encoding/json" msg.

(** The three tests the loop of [validatePackage] makes on an entry:
    [f.FileInfo().Mode()&os.ModeSymlink != 0], *)
Definition isSymlink (f : Zip.File) : bool :=
  negb (Z.land (Zip.Mode f) OS.ModeSymlink =? 0).

(** [strings.Contains(f.Name, "..")], *)
Definition hasDotDot (f : Zip.File) : bool := Strings.Contains (Zip.Name f) "..".

(** and [base == "manifest.json" && depth <= 2], with [depth] the number of
    pieces of the name, less one trailing slash, between slashes. *)
Definition depth (name : string) : Z :=
  Z.of_nat (length (Strings.Split (Strings.TrimSuffix name "/") "/"%char)).

Definition isManifest (f : Zip.File) : bool :=
  bool_decide (Filepath.Base (Zip.Name f) = "manifest.json") && (depth (Zip.Name f) <=? 2).

(** The [for _, f := range r.File] loop of [validatePackage], started with
    [manifestFile] as found so far. *)
Fixpoint range_File (files : list Zip.File) (manifestFile : option Zip.File)
  : error + option Zip.File :=
  match files with
  | [] => inr manifestFile
  | f :: rest =>
      if isSymlink f then inl ErrSymlinkDetected
      else if hasDotDot f then inl ErrInvalidPackage
      else if isManifest f then range_File rest (Some f)
      else range_File rest manifestFile
  end.

(** The part of [validatePackage] after the loop has found the manifest
    entry: open it, decode it, check its name and slug. *)
Definition readManifest (manifestFile : Zip.File) : error + SkillManifest :=
  match Zip.Open manifestFile with
  | inl msg => inl (Errorf_w "open manifest: " (Zip.zipError msg))
  | inr rc =>
      match json_Decode rc with
      | inl msg => inl (Errorf_w "parse manifest: " (jsonError msg))
      | inr manifest =>
          if bool_decide (Name manifest = "") || bool_decide (Slug manifest = "")
          then inl (Errorf "manifest must contain name and slug")
          else inr manifest
      end
  end.

Definition validatePackage (fs : OS.FS) (path : string) : error + SkillManifest :=
  match zip_OpenReader fs path with
  | inl _ => inl ErrInvalidPackage
  | inr files =>
      match range_File files None with
      | inl e => inl e
      | inr None => inl ErrNoManifest
      | inr (Some manifestFile) => readManifest manifestFile
      end
  end.

(** The function [SaveFile] defers: when the call returns an error, the
    temporary file is removed (and what [os.Remove] returns is dropped). *)
Definition deferred_cleanup {A} (tmpPath : string) (out : (error + A) * OS.FS)
  : (error + A) * OS.FS :=
  match out.1 with
  | inl _ => (out.1, (OS.Remove out.2 tmpPath).2)
  | inr _ => out
  end.

(** [SaveFile(src, originalName)]: the result, the file system and the
    source reader it leaves. *)
Definition SaveFile (s : StorageService) (fs : OS.FS) (src : IO.Reader)
    (originalName : string) (env : Entropy)
  : (error + (string * string * SkillManifest)) * OS.FS * IO.Reader :=
  match OS.CreateTemp fs (uploadDir s) "upload-*.zip" (tempNames env) with
  | inl e => (inl (Errorf_w "create temp file: " e), fs, src)
  | inr (tmpPath, fs1) =>
      let limited := IO.LimitReader src (GoInt.wrap (maxFileSize s + 1)) in
      let '(written, err, limited', (fs2, hasher)) :=
        IO.Copy (IO.MultiWriter (OS.File_Write tmpPath) hasher_Write)
                (fs1, hasher_New) limited in
      let out :=
        match err with
        | Some e => (inl (Errorf_w "save file: " e), fs2)
        | None =>
            if maxFileSize s <? written then (inl ErrFileTooLarge, fs2)
            else
              let hash := Hex.EncodeToString (hasher_Sum hasher) in
              match validatePackage fs2 tmpPath with
              | inl e => (inl e, fs2)
              | inr manifest =>
                  let finalName := newUUID env +:+ ".zip" in
                  let finalPath := Filepath.Join (uploadDir s) finalName in
                  match OS.Rename fs2 tmpPath finalPath with
                  | (Some e, fs3) => (inl (Errorf_w "rename file: " e), fs3)
                  | (None, fs3) => (inr (finalPath, hash, manifest), fs3)
                  end
              end
        end in
      let '(res, fs') := deferred_cleanup tmpPath out in
      (res, fs', IO.R limited')
  end.

(** [Delete(filePath)] *)
Definition Delete (fs : OS.FS) (filePath : string) : option error * OS.FS :=
  if bool_decide (filePath = "") then (None, fs)
  else OS.Remove fs filePath.

End WithLibraries.

End Service.

(** ** Package [scanner] *)

Module Scanner.
Import Errors.

Record ScanResult := mkScanResult { Clean : bool; Message : string }.

(** The interface [Scanner]: [Scan(filePath)] looks at the file system and
    returns a result and an error (or [nil]). *)
Class Scanner (S : Type) := Scan : S -> OS.FS -> string -> ScanResult * option error.

Inductive NoopScanner := mkNoopScanner.

Definition NewNoopScanner : NoopScanner := mkNoopScanner.

#[export] Instance NoopScanner_Scan : Scanner NoopScanner :=
  fun _ _ _ => ({| Clean := true; Message := "scan skipped (noop scanner)" |}, None).

End Scanner.

(** ** Packages [model] and [repository] *)

Module Model.

(** [model.Skill]: the fields [SkillHandler.Create] and
    [SkillRepository.Create] set; the others keep their zero values. *)
Record Skill := mkSkill {
  ID : Z;
  Slug : string;
  Name : string;
  Description : string;
  Version : string;
  Category : string;
  AuthorID : Z;
  FilePath : string;
  FileHash : string;
  ScanStatus : string;
  IsFeatured : bool;
  Tags : string
}.

Definition set_ID (s : Skill) (id : Z) : Skill :=
  {| ID := id; Slug := Slug s; Name := Name s; Description := Description s;
     Version := Version s; Category := Category s; AuthorID := AuthorID s;
     FilePath := FilePath s; FileHash := FileHash s; ScanStatus := ScanStatus s;
     IsFeatured := IsFeatured s; Tags := Tags s |}.

End Model.

Module Repository.
Import Errors.

(** The database as the schema constrains it for [skills]: the identifiers
    of the users, the rows of [skills] in insertion order, and the last
    identifier the table gave out. *)
Record DB := mkDB {
  users : gset Z;
  skills : list Model.Skill;
  lastID : Z
}.

Definition sqlError (msg : string) : error := LibError "database/sql" msg.

(** [SkillRepository.Create(s)]: the [INSERT] fails when the slug is taken
    ([slug TEXT NOT NULL UNIQUE]) or the author is no user
    ([author_id ... REFERENCES users(id)], foreign keys on); otherwise the
    row is added under the next identifier, which is also stored in [s]. *)
Definition Create (db : DB) (s : Model.Skill) : option error * DB * Model.Skill :=
  if bool_decide (Exists (fun row => Model.Slug row = Model.Slug s) (skills db))
  then (Some (sqlError "UNIQUE constraint failed: skills.slug"), db, s)
  else if bool_decide (Model.AuthorID s ∈ users db)
  then
    let id := lastID db + 1 in
    let s' := Model.set_ID s id in
    (None, {| users := users db; skills := skills db ++ [s']; lastID := id |}, s')
  else (Some (sqlError "FOREIGN KEY constraint failed"), db, s).

End Repository.

(** ** Package [handler]: the upload handler *)

Module Handler.
Import Errors.

Record SkillHandler (S : Type) := mkSkillHandler {
  storage : Service.StorageService;
  scanner : S
}.
Arguments storage {S} _.
Arguments scanner {S} _.

(** What the handler reads off the request: the user identifier the
    authentication middleware left in the context (if any), what
    [ParseMultipartForm] returns, and what [FormFile("file")] returns. *)
Record Request := mkRequest {
  userID : option Z;
  parseMultipartForm : option error;
  formFile : error + IO.Reader
}.

Inductive Body :=
  | ErrorResponse (msg : string)
  | SkillResponse (skill : Model.Skill).

(** [writeJSON(w, status, v)] *)
Record Response := mkResponse { status : Z; body : Body }.

Definition writeJSON (status : Z) (v : Body) : Response :=
  {| status := status; body := v |}.

Definition StatusCreated : Z := 201.
Definition StatusBadRequest : Z := 400.
Definition StatusUnauthorized : Z := 401.
Definition StatusConflict : Z := 409.
Definition StatusRequestEntityTooLarge : Z := 413.
Definition StatusInternalServerError : Z := 500.

(** The durable state the handler works on. *)
Record State := mkState { files : OS.FS; db : Repository.DB }.

Section WithLibraries.

Variable sha256_Sum : list byte -> list byte.
Variable zip_NewReader : list byte -> string + list Zip.File.
Variable json_Decode : list byte -> string + Service.SkillManifest.
(** [json.Marshal] of a list of strings, as a string. *)
Variable json_Marshal : list string -> string.

Context {S : Type} `{Scanner.Scanner S}.

(** The [model.Skill] that [Create] builds from the manifest. *)
Definition newSkill (manifest : Service.SkillManifest) (userID : Z)
    (filePath fileHash scanStatus tagsJSON : string) : Model.Skill :=
  {| Model.ID := 0;
     Model.Slug := Service.Slug manifest;
     Model.Name := Service.Name manifest;
     Model.Description := Service.Description manifest;
     Model.Version := Service.Version manifest;
     Model.Category := Service.Category manifest;
     Model.AuthorID := userID;
     Model.FilePath := filePath;
     Model.FileHash := fileHash;
     Model.ScanStatus := scanStatus;
     Model.IsFeatured := false;
     Model.Tags := tagsJSON |}.

(** [SkillHandler.Create] *)
Definition Create (h : SkillHandler S) (st : State) (r : Request) (env : Service.Entropy)
  : Response * State :=
  match userID r with
  | None => (writeJSON StatusUnauthorized (ErrorResponse "unauthorized"), st)
  | Some userID =>
  match parseMultipartForm r with
  | Some _ =>
      (writeJSON StatusBadRequest (ErrorResponse "file too large or invalid form"), st)
  | None =>
  match formFile r with
  | inl _ => (writeJSON StatusBadRequest (ErrorResponse "file is required"), st)
  | inr file =>
  match Service.SaveFile sha256_Sum zip_NewReader json_Decode
          (storage h) (files st) file "upload.zip" env with
  | (inl err, fs1, _) =>
      let st1 := {| files := fs1; db := db st |} in
      if Is err ErrFileTooLarge then
        (writeJSON StatusRequestEntityTooLarge (ErrorResponse "file exceeds 10MB limit"), st1)
      else if Is err ErrNoManifest || Is err ErrInvalidPackage then
        (writeJSON StatusBadRequest (ErrorResponse (Error err)), st1)
      else
        (writeJSON StatusInternalServerError (ErrorResponse "failed to save file"), st1)
  | (inr (filePath, fileHash, manifest), fs1, _) =>
      let '(scanResult, err) := Scanner.Scan (scanner h) fs1 filePath in
      if bool_decide (err ≠ None) || negb (Scanner.Clean scanResult) then
        let fs2 := (Service.Delete fs1 filePath).2 in
        (writeJSON StatusBadRequest (ErrorResponse "file flagged by security scan"),
         {| files := fs2; db := db st |})
      else
        let scanStatus := "clean" in
        let tagsJSON := json_Marshal (Service.Tags manifest) in
        let skill := newSkill manifest userID filePath fileHash scanStatus tagsJSON in
        match Repository.Create (db st) skill with
        | (Some _, db1, _) =>
            let fs2 := (Service.Delete fs1 filePath).2 in
            (writeJSON StatusConflict (ErrorResponse "skill with this slug already exists"),
             {| files := fs2; db := db1 |})
        | (None, db1, skill') =>
            (writeJSON StatusCreated (SkillResponse skill'), {| files := fs1; db := db1 |})
        end
  end end end end.

End WithLibraries.

End Handler.

(** ** Sample data

    Files, archives and manifests for the examples below, with library
    functions that know exactly these: the archive reader and the decoder
    are tables from the sample bytes to what the libraries return for such
    contents. *)

Module Fixtures.
Import Service.

Definition bytes_of (s : string) : list byte := String.list_byte_of_string s.
Definition text_of (b : list byte) : string := String.string_of_list_byte b.

(** A double quote, and a quoted word. *)
Definition dq : string := String (Ascii.ascii_of_nat 34) EmptyString.
Definition quoted (s : string) : string := dq +:+ s +:+ dq.

Definition field (k v : string) : string := quoted k +:+ ":" +:+ quoted v.

Definition json_demo : string :=
  "{" +:+ field "name" "Demo" +:+ "," +:+ field "slug" "demo" +:+ ","
      +:+ field "version" "1.0.0" +:+ "}".
Definition json_nested : string :=
  "{" +:+ field "name" "Nested" +:+ "," +:+ field "slug" "nested" +:+ ","
      +:+ field "version" "2.0.0" +:+ "}".
Definition json_no_version : string :=
  "{" +:+ field "name" "Demo" +:+ "," +:+ field "slug" "demo" +:+ "}".
Definition json_no_slug : string :=
  "{" +:+ field "name" "Demo" +:+ "," +:+ field "version" "1.0.0" +:+ "}".
Definition json_broken : string := "{" +:+ quoted "name" +:+ ":".

Definition manifest (name slug version : string) : SkillManifest :=
  {| Name := name; Slug := slug; Version := version; Description := "";
     Category := ""; Tags := []; Author := ""; EntryPoint := "" |}.

Definition json_Decode (rc : list byte) : string + SkillManifest :=
  if decide (text_of rc = json_demo) then inr (manifest "Demo" "demo" "1.0.0")
  else if decide (text_of rc = json_nested) then inr (manifest "Nested" "nested" "2.0.0")
  else if decide (text_of rc = json_no_version) then inr (manifest "Demo" "demo" "")
  else if decide (text_of rc = json_no_slug) then inr (manifest "Demo" "" "1.0.0")
  else inl "unexpected end of JSON input".

(** A regular file (mode [0644]) and a symbolic link (mode [ModeSymlink | 0777]). *)
Definition regular (name contents : string) : Zip.File :=
  {| Zip.Name := name; Zip.Mode := 420; Zip.Open := inr (bytes_of contents) |}.
Definition symlink (name target : string) : Zip.File :=
  {| Zip.Name := name; Zip.Mode := Z.lor OS.ModeSymlink 511;
     Zip.Open := inr (bytes_of target) |}.

Definition entries_demo : list Zip.File :=
  [ regular "README.md" "# demo"; regular "manifest.json" json_demo;
    regular "src/" ""; regular "src/main.py" "print(1)"; regular "LICENSE" "MIT" ].
Definition entries_two_manifests : list Zip.File :=
  [ regular "manifest.json" json_demo; regular "pkg/manifest.json" json_nested;
    regular "pkg/deep/manifest.json" json_broken ].
Definition entries_symlink : list Zip.File :=
  [ regular "manifest.json" json_demo; symlink "latest" "manifest.json" ].
Definition entries_dotdot_then_symlink : list Zip.File :=
  [ regular "docs/../manifest.json" json_demo; symlink "latest" "manifest.json" ].
Definition entries_dots_in_name : list Zip.File :=
  [ regular "manifest.json" json_demo; regular "notes..txt" "remember" ].
Definition entries_broken_manifest : list Zip.File :=
  [ regular "manifest.json" json_broken ].
Definition entries_no_version : list Zip.File :=
  [ regular "manifest.json" json_no_version ].
Definition entries_no_slug : list Zip.File :=
  [ regular "manifest.json" json_no_slug ].
Definition entries_manifest_too_deep : list Zip.File :=
  [ regular "README.md" "# demo"; regular "a/b/manifest.json" json_demo ].

(** The bytes of the archive holding the given sample entries. *)
Definition archive (tag : string) : list byte := bytes_of ("PK:" +:+ tag).

Definition zip_NewReader (data : list byte) : string + list Zip.File :=
  if decide (text_of data = "PK:demo") then inr entries_demo
  else if decide (text_of data = "PK:two-manifests") then inr entries_two_manifests
  else if decide (text_of data = "PK:symlink") then inr entries_symlink
  else if decide (text_of data = "PK:dotdot-then-symlink") then inr entries_dotdot_then_symlink
  else if decide (text_of data = "PK:dots-in-name") then inr entries_dots_in_name
  else if decide (text_of data = "PK:broken-manifest") then inr entries_broken_manifest
  else if decide (text_of data = "PK:no-version") then inr entries_no_version
  else if decide (text_of data = "PK:no-slug") then inr entries_no_slug
  else if decide (text_of data = "PK:manifest-too-deep") then inr entries_manifest_too_deep
  else inl "zip: not a valid zip file".

(** A stand-in for the digest: the last four bytes, backwards. *)
Definition sha256_Sum (data : list byte) : list byte := take 4 (rev data).

(** [json.Marshal] of a list of plain words: [null] for the empty (nil)
    list, else the quoted words between brackets. *)
Definition json_Marshal (tags : list string) : string :=
  match tags with
  | [] => "null"
  | t :: ts => "[" +:+ quoted t +:+ foldr (fun u acc => "," +:+ quoted u +:+ acc) "]" ts
  end.

Definition storage : StorageService := {| uploadDir := "uploads"; maxFileSize := 64 |}.

Definition entropy : Entropy :=
  {| tempNames := ["1234567890"]; newUUID := "3f0c9a52-7d1e-4b8a-9c66-0e5d2a41b7f3" |}.

Definition upload (data : list byte) : IO.Reader :=
  {| IO.pending := data; IO.failure := None |}.

(** Scanners for both branches of the handler: one that flags every file,
    one that fails on every file, one that passes every file. *)
Inductive StubScanner := AlwaysFlag | AlwaysFail | AlwaysClean.

#[export] Instance StubScanner_Scan : Scanner.Scanner StubScanner :=
  fun sc _ _ =>
    match sc with
    | AlwaysFlag => ({| Scanner.Clean := false; Scanner.Message := "EICAR test file" |}, None)
    | AlwaysFail =>
        ({| Scanner.Clean := false; Scanner.Message := "" |},
         Some (Errors.LibError "scanner" "scan engine unavailable"))
    | AlwaysClean => ({| Scanner.Clean := true; Scanner.Message := "ok" |}, None)
    end.

(** A database with user 1 and no skills; the same with the slug [demo] taken. *)
Definition db_empty : Repository.DB :=
  {| Repository.users := {[ 1 ]}; Repository.skills := []; Repository.lastID := 0 |}.

Definition skill_demo : Model.Skill :=
  {| Model.ID := 1; Model.Slug := "demo"; Model.Name := "Demo"; Model.Description := "";
     Model.Version := "0.9.0"; Model.Category := ""; Model.AuthorID := 1;
     Model.FilePath := "uploads/0b1d6c1e-55aa-4d0c-8a3f-1c2f6f0e9d11.zip";
     Model.FileHash := "00"; Model.ScanStatus := "clean"; Model.IsFeatured := false;
     Model.Tags := "null" |}.

Definition db_demo_taken : Repository.DB :=
  {| Repository.users := {[ 1 ]}; Repository.skills := [skill_demo]; Repository.lastID := 1 |}.

Definition request (data : list byte) : Handler.Request :=
  {| Handler.userID := Some 1; Handler.parseMultipartForm := None;
     Handler.formFile := inr (upload data) |}.

Definition tmpPath : string := "uploads/upload-1234567890.zip".
Definition finalPath : string := "uploads/3f0c9a52-7d1e-4b8a-9c66-0e5d2a41b7f3.zip".

End Fixtures.

(** ** The mutex of the rate limiter

    What the mutex guarantees in every state a schedule can reach, whatever
    the limiter holds and whatever the clock does. *)

Module Exclusion.
Import Middleware Concurrent.

Record Mutex_ok (s : state) : Prop := mkMutex_ok {
  mutex_inside : tally inside (pcs s) = holders (mu s);
  mutex_holder : forall g, mu s = Some (Goroutine g) ->
    exists p, pcs s !! g = Some p /\ inside p = true;
  mutex_sweeping : sweeping s = true <-> mu s = Some Sweeper
}.

(** One call of goroutine [i], from [Lock] to [Unlock], with the clock
    moving in between: by [d1] before the test, by [d2] before the write,
    by [d3] before the [Unlock]. *)
Definition call_with_delays (i : nat) (d1 d2 d3 : Z) : list action :=
  [Run i; Tick d1; Run i; Tick d2; Run i; Tick d3; Run i].

End Exclusion.

(** ** What the schema and the handler keep

    The constraints the schema puts on the table [skills]
    ([id INTEGER PRIMARY KEY AUTOINCREMENT], [slug TEXT NOT NULL UNIQUE],
    [author_id ... REFERENCES users(id)]), as a property of the database;
    and the link between the table and the upload directory. *)

Module Schema.
Import Model Repository.

Record consistent (db : DB) : Prop := mkConsistent {
  slugs_unique : NoDup (map Slug (skills db));
  ids_unique : NoDup (map ID (skills db));
  last_given : 0 <= lastID db;
  ids_given : Forall (fun row => 0 < ID row <= lastID db) (skills db);
  authors_exist : Forall (fun row => AuthorID row ∈ users db) (skills db)
}.

(** Every row of [skills] has its artifact on disk. *)
Definition stored (st : Handler.State) : Prop :=
  Forall (fun row => is_Some (Handler.files st !! FilePath row))
         (skills (Handler.db st)).

End Schema.

(** ** Package [middleware]: the rate limit in front of a handler *)

Module HTTP.

(** [http.Header], its keys in canonical form, and [Header.Get]: the first
    value under the key, the empty string when there is none. *)
Definition Header : Type := gmap string (list string).

Definition Header_Get (h : Header) (key : string) : string :=
  match h !! key with
  | Some (v :: _) => v
  | _ => EmptyString
  end.

Record Request := mkRequest { RemoteAddr : string; Headers : Header }.

Definition StatusTooManyRequests : Z := 429.

(** What [http.Error(w, error, code)] sends: the code, a plain-text content
    type, and the text followed by a newline. *)
Record Reply := mkReply { code : Z; contentType : string; text : string }.

Definition newline : string := String (Ascii.ascii_of_nat 10) EmptyString.

Definition Error (error : string) (code : Z) : Reply :=
  {| code := code; contentType := "text/plain; charset=utf-8";
     text := error +:+ newline |}.

End HTTP.

Module RateLimit.
Import Middleware HTTP.

Definition dq : string := String (Ascii.ascii_of_nat 34) EmptyString.

(** The text the middleware sends with a refusal. *)
Definition rate_limit_exceeded : string :=
  "{" +:+ dq +:+ "error" +:+ dq +:+ ":" +:+ dq +:+ "rate limit exceeded" +:+ dq +:+ "}".

(** The variable [ip] of the handler [RateLimit] returns: the remote
    address, or the value of [X-Forwarded-For] when the request has one. *)
Definition ip (r : Request) : string :=
  let ip := RemoteAddr r in
  let fwd := Header_Get (Headers r) "X-Forwarded-For" in
  if bool_decide (fwd <> EmptyString) then fwd else ip.

Section WithNext.

(** [next.ServeHTTP(w, r)], as what it answers to the request. *)
Context {A : Type}.
Variable next : Request -> A.

(** The handler [RateLimit(limit, window)(next)], on the limiter it closes
    over: the refusal or the answer of [next], and the limiter afterwards. *)
Definition ServeHTTP (rl : rateLimiter) (r : Request) (now : ticks)
  : (Reply + A) * rateLimiter :=
  let '(ok, rl') := allow rl (ip r) now in
  if negb ok then (inl (Error rate_limit_exceeded StatusTooManyRequests), rl')
  else (inr (next r), rl').

(** Requests served one after the other. *)
Fixpoint serve (rl : rateLimiter) (requests : list (Request * ticks))
  : list (Reply + A) * rateLimiter :=
  match requests with
  | [] => ([], rl)
  | (r, now) :: rest =>
      let '(out, rl1) := ServeHTTP rl r now in
      let '(outs, rl2) := serve rl1 rest in
      (out :: outs, rl2)
  end.

End WithNext.

End RateLimit.

(** ** The listing of skills: [SkillHandler.List] on [SkillRepository.List] *)

Module Listing.

(** [model.SkillListParams] and [model.PaginatedResponse], each in a module
    of its own since both have a field [Page] and a field [PerPage]. *)
Module Params.
Record SkillListParams := mkSkillListParams {
  Query : string;
  Category : string;
  Sort : string;
  Page : Z;
  PerPage : Z
}.
End Params.

Module Paginated.
Record PaginatedResponse (Row : Type) := mkPaginatedResponse {
  Data : list Row;
  Total : Z;
  Page : Z;
  PerPage : Z;
  TotalPages : Z
}.
Arguments Data {Row} _.
Arguments Total {Row} _.
Arguments Page {Row} _.
Arguments PerPage {Row} _.
Arguments TotalPages {Row} _.
End Paginated.

(** The [ORDER BY] clauses [SkillRepository.List] chooses from. *)
Inductive Order := CreatedDesc | DownloadsDesc | RatingDesc | NameAsc.

Definition orderBy (sort : string) : Order :=
  if decide (sort = "downloads") then DownloadsDesc
  else if decide (sort = "rating") then RatingDesc
  else if decide (sort = "name") then NameAsc
  else CreatedDesc.

(** A condition of the [WHERE] clause is there when its parameter is not
    empty. *)
Definition condition (parameter : string) : option string :=
  if decide (parameter = EmptyString) then None else Some parameter.

(** What [writeJSON] sends for a listing: the status and, as the body, the
    error message or the page. *)
Inductive Body (Row : Type) :=
  | ErrorResponse (msg : string)
  | Page (page : Paginated.PaginatedResponse Row).
Arguments ErrorResponse {Row} _.
Arguments Page {Row} _.

Record Response (Row : Type) := mkResponse { status : Z; body : Body Row }.
Arguments status {Row} _.
Arguments body {Row} _.

Definition writeJSON {Row : Type} (status : Z) (v : Body Row) : Response Row :=
  {| status := status; body := v |}.

Definition StatusOK : Z := 200.
Definition StatusInternalServerError : Z := 500.

(** [LIMIT limit OFFSET offset] of SQLite: an offset below zero counts as
    zero, a limit below zero as no limit. *)
Definition limit_offset {A : Type} (limit offset : Z) (rows : list A) : list A :=
  let rest := drop (Z.to_nat offset) rows in
  if limit <? 0 then rest else take (Z.to_nat limit) rest.

(** The loop over [rows.Next()]: each row is scanned and appended; the
    first row that does not scan ends the loop with its error. *)
Fixpoint scan_rows {Row : Type} (rows : list (Errors.error + Row)) (skills : list Row)
  : Errors.error + list Row :=
  match rows with
  | [] => inr skills
  | inl err :: _ => inl err
  | inr s :: rest => scan_rows rest (skills ++ [s])
  end.

Section WithDatabase.

(** The database, for a category condition, a full-text condition and an
    order: what [QueryRow(countQuery).Scan(&total)] yields, the count or an
    error; and what the joined [SELECT] yields before [LIMIT] and [OFFSET]
    cut it, the error of [Query] or the rows, each with what [rows.Scan]
    makes of it, the row or an error. *)
Variable Row : Type.
Variable sql_count : option string -> option string -> Errors.error + Z.
Variable sql_select :
  option string -> option string -> Order -> Errors.error + list (Errors.error + Row).
(** The value [strconv.Atoi] returns with its error. *)
Variable strconv_Atoi : string -> Z * option Errors.error.

(** [SkillRepository.List(p)] *)
Definition Repository_List (p : Params.SkillListParams) : Errors.error + list Row * Z :=
  let page := if Params.Page p <? 1 then 1 else Params.Page p in
  let perPage :=
    if (Params.PerPage p <? 1) || (50 <? Params.PerPage p) then 12 else Params.PerPage p in
  let category := condition (Params.Category p) in
  let query := condition (Params.Query p) in
  match sql_count category query with
  | inl err => inl err
  | inr total =>
      let offset := GoInt.wrap ((page - 1) * perPage) in
      match sql_select category query (orderBy (Params.Sort p)) with
      | inl err => inl err
      | inr rows =>
          match scan_rows (limit_offset perPage offset rows) [] with
          | inl err => inl err
          | inr skills => inr (skills, total)
          end
      end
  end.

(** [SkillHandler.List], on the parameters of the query string ([get] is
    [r.URL.Query().Get]). *)
Definition List (get : string -> string) : Response Row :=
  let page := (strconv_Atoi (get "page")).1 in
  let page := if page <? 1 then 1 else page in
  let perPage := (strconv_Atoi (get "per_page")).1 in
  let perPage := if perPage <? 1 then 12 else perPage in
  let params :=
    {| Params.Query := get "q"; Params.Category := get "category";
       Params.Sort := get "sort"; Params.Page := page; Params.PerPage := perPage |} in
  match Repository_List params with
  | inl _ =>
      writeJSON StatusInternalServerError (ErrorResponse "failed to list skills")
  | inr (skills, total) =>
      let totalPages := Z.quot total perPage in
      let totalPages :=
        if 0 <? Z.rem total perPage then GoInt.wrap (totalPages + 1) else totalPages in
      writeJSON StatusOK
        (Page {| Paginated.Data := skills; Paginated.Total := total;
                 Paginated.Page := page; Paginated.PerPage := perPage;
                 Paginated.TotalPages := totalPages |})
  end.

End WithDatabase.

End Listing.

(** ** Package [middleware]: authentication *)

Module Auth.
Import HTTP.

(** [strings.SplitN(s, sep, n)] for a separator of one byte and [n] at
    least zero: at most [n] pieces, the last one the unsplit rest. *)
Fixpoint cut (sep : ascii) (s : string) : option (string * string) :=
  match s with
  | EmptyString => None
  | String c rest =>
      if bool_decide (c = sep) then Some (EmptyString, rest)
      else match cut sep rest with
           | Some (before, after) => Some (String c before, after)
           | None => None
           end
  end.

Fixpoint SplitN (s : string) (sep : ascii) (n : nat) : list string :=
  match n with
  | O => []
  | S O => [s]
  | S n' =>
      match cut sep s with
      | Some (before, after) => before :: SplitN after sep n'
      | None => [s]
      end
  end.

(** What the middleware puts into the context of the request, under its
    three keys. *)
Record Context := mkContext {
  user_id : option Z;
  username : option string;
  is_admin : option bool
}.

Definition background : Context :=
  {| user_id := None; username := None; is_admin := None |}.

(** [GetUserID(ctx)]: the identifier and [true], as [Some]; zero and
    [false], as [None]. *)
Definition GetUserID (ctx : Context) : option Z := user_id ctx.

Definition StatusUnauthorized : Z := 401.

Definition dq : string := String (Ascii.ascii_of_nat 34) EmptyString.

(** The text [{"error":"..."}] with the given message. *)
Definition error_json (msg : string) : string :=
  "{" +:+ dq +:+ "error" +:+ dq +:+ ":" +:+ dq +:+ msg +:+ dq +:+ "}".

(** How a request ends in the middleware: refused with a reply, in a panic
    (a failed type assertion), or passed on to the next handler. *)
Inductive Outcome (A : Type) :=
  | Refused (reply : Reply)
  | Panic
  | Next (answer : A).
Arguments Refused {A} _.
Arguments Panic {A}.
Arguments Next {A} _.

Section WithJWT.

(** A claim as [encoding/json] decodes it into an [interface{}]: a number
    is a [float64]; [int64_of] is the conversion [int64(f)]. *)
Variable float64 : Type.
Variable int64_of : float64 -> Z.

Inductive Value :=
  | Number (f : float64)
  | Text (s : string)
  | Flag (b : bool)
  | Null
  | Nested.

(** [jwt.Token]: whether it is valid, and its claims when they are a
    [jwt.MapClaims]. *)
Record Token := mkToken {
  Valid : bool;
  Claims : option (gmap string Value)
}.

(** [jwt.Parse(tokenString, keyFunc)] with the key function of the
    middleware, which accepts HMAC methods only and returns the secret:
    the token, or the text of the error. *)
Variable jwt_Parse : string -> string -> string + Token.

Context {A : Type}.
Variable next : Context -> Request -> A.

(** The part both middlewares share after the claims are there: three type
    assertions, then the next handler on the extended context. *)
Definition with_claims (claims : gmap string Value) (r : Request) : Outcome A :=
  match claims !! "user_id" with
  | Some (Number f) =>
      let userID := int64_of f in
      match claims !! "username" with
      | Some (Text username) =>
          match claims !! "is_admin" with
          | Some (Flag isAdmin) =>
              Next (next {| user_id := Some userID; username := Some username;
                            is_admin := Some isAdmin |} r)
          | _ => Panic
          end
      | _ => Panic
      end
  | _ => Panic
  end.

(** The handler [Auth(jwtSecret)(next)]. *)
Definition Auth (jwtSecret : string) (r : Request) : Outcome A :=
  let header := Header_Get (Headers r) "Authorization" in
  if bool_decide (header = EmptyString) then
    Refused (Error (error_json "authorization header required") StatusUnauthorized)
  else
    match SplitN header " " 2 with
    | [scheme; tokenString] =>
        if bool_decide (scheme <> "Bearer") then
          Refused (Error (error_json "invalid authorization format") StatusUnauthorized)
        else
          match jwt_Parse tokenString jwtSecret with
          | inl _ =>
              Refused (Error (error_json "invalid or expired token") StatusUnauthorized)
          | inr token =>
              if negb (Valid token) then
                Refused (Error (error_json "invalid or expired token") StatusUnauthorized)
              else
                match Claims token with
                | None =>
                    Refused (Error (error_json "invalid token claims") StatusUnauthorized)
                | Some claims => with_claims claims r
                end
          end
    | _ => Refused (Error (error_json "invalid authorization format") StatusUnauthorized)
    end.

(** The handler [OptionalAuth(jwtSecret)(next)]. *)
Definition OptionalAuth (jwtSecret : string) (r : Request) : Outcome A :=
  let header := Header_Get (Headers r) "Authorization" in
  if bool_decide (header = EmptyString) then Next (next background r)
  else
    match SplitN header " " 2 with
    | [scheme; tokenString] =>
        if bool_decide (scheme <> "Bearer") then Next (next background r)
        else
          match jwt_Parse tokenString jwtSecret with
          | inl _ => Next (next background r)
          | inr token =>
              if negb (Valid token) then Next (next background r)
              else
                match Claims token with
                | None => Next (next background r)
                | Some claims => with_claims claims r
                end
          end
    | _ => Next (next background r)
    end.

End WithJWT.

Arguments Number {float64} _.
Arguments Text {float64} _.
Arguments Flag {float64} _.
Arguments Null {float64}.
Arguments Nested {float64}.
Arguments Valid {float64} _.
Arguments Claims {float64} _.

End Auth.

(** ** Sample requests

    Requests for the rate limit and for the listing, and stand-ins for the
    database and for [strconv.Atoi] on them. *)

Module Samples.
Import Middleware.

(** A request from [addr], with the given [X-Forwarded-For] value if it is
    not empty. *)
Definition from (addr forwarded : string) : HTTP.Request :=
  {| HTTP.RemoteAddr := addr;
     HTTP.Headers :=
       if decide (forwarded = EmptyString) then ∅
       else {[ "X-Forwarded-For" := [forwarded] ]} |}.

(** The handler behind the middleware answers with the remote address. *)
Definition echo (r : HTTP.Request) : string := HTTP.RemoteAddr r.

Definition at_time (t : Z) : ticks := {| t_check := t; t_install := t |}.

(** Fourteen rows, in the order the database returns them. *)
Definition rows : list string :=
  [ "alpha"; "bravo"; "charlie"; "delta"; "echo"; "foxtrot"; "golf"; "hotel";
    "india"; "juliett"; "kilo"; "lima"; "mike"; "november" ].

(** A database in which every row scans; the full-text condition [(] is
    no expression, and both statements fail on it. *)
Definition fts_error : Errors.error :=
  Errors.LibError "sqlite3" "fts5: syntax error near (".

Definition sql_select (category query : option string) (order : Listing.Order)
  : Errors.error + list (Errors.error + string) :=
  if decide (query = Some "(") then inl fts_error
  else match category, query with
       | None, None => inr (map inr rows)
       | _, _ => inr []
       end.

Definition sql_count (category query : option string) : Errors.error + Z :=
  match sql_select category query Listing.CreatedDesc with
  | inl err => inl err
  | inr rows => inr (Z.of_nat (length rows))
  end.

(** [strconv.Atoi] on a system with 64-bit [int]: an optional sign and
    decimal digits; text that is no number gives zero and a syntax error, a
    number out of range the nearest [int] and a range error. *)
Definition digit (c : ascii) : option Z :=
  let n := Ascii.nat_of_ascii c in
  if (48 <=? n)%nat && (n <=? 57)%nat then Some (Z.of_nat (n - 48)) else None.

Inductive NumError := ErrSyntax | ErrRange.

Definition maxUint64 : Z := 2 ^ 64 - 1.

(** The loop of [strconv.ParseUint] in base 10: it stops at the first byte
    that is no digit, and at the first digit that takes the number out of
    range. *)
Fixpoint ParseUint_loop (s : string) (n : Z) : Z * option NumError :=
  match s with
  | EmptyString => (n, None)
  | String c rest =>
      match digit c with
      | None => (0, Some ErrSyntax)
      | Some d =>
          if Z.quot maxUint64 10 + 1 <=? n then (maxUint64, Some ErrRange)
          else
            let n1 := n * 10 + d in
            if maxUint64 <? n1 then (maxUint64, Some ErrRange)
            else ParseUint_loop rest n1
      end
  end.

Definition NumError_error (e : NumError) : Errors.error :=
  match e with
  | ErrSyntax => Errors.LibError "strconv" "invalid syntax"
  | ErrRange => Errors.LibError "strconv" "value out of range"
  end.

Definition strconv_Atoi (s : string) : Z * option Errors.error :=
  let '(neg, digits) :=
    match s with
    | String c rest =>
        if bool_decide (c = "+"%char) then (false, rest)
        else if bool_decide (c = "-"%char) then (true, rest)
        else (false, s)
    | EmptyString => (false, s)
    end in
  if bool_decide (digits = EmptyString) then (0, Some (NumError_error ErrSyntax))
  else
    match ParseUint_loop digits 0 with
    | (_, Some ErrSyntax) => (0, Some (NumError_error ErrSyntax))
    | (un, _) =>
        if negb neg && (2 ^ 63 <=? un) then (2 ^ 63 - 1, Some (NumError_error ErrRange))
        else if neg && (2 ^ 63 <? un) then (- 2 ^ 63, Some (NumError_error ErrRange))
        else (if neg then - un else un, None)
    end.

(** Tokens: one that verifies under the secret and carries the three
    claims, one that verifies and carries none; numbers stand for
    themselves. *)
Definition secret : string := "picohub-dev-secret".

Definition claims_ada : gmap string (Auth.Value Z) :=
  {[ "user_id" := Auth.Number 1; "username" := Auth.Text "ada";
     "is_admin" := Auth.Flag false ]}.

Definition jwt_Parse (tokenString jwtSecret : string) : string + Auth.Token Z :=
  if decide (jwtSecret = secret) then
    if decide (tokenString = "header.ada.signature") then
      inr {| Auth.Valid := true; Auth.Claims := Some claims_ada |}
    else if decide (tokenString = "header.empty.signature") then
      inr {| Auth.Valid := true; Auth.Claims := Some ∅ |}
    else inl "token is malformed"
  else inl "signature is invalid".

(** A request with the given [Authorization] header. *)
Definition authorized (header : string) : HTTP.Request :=
  {| HTTP.RemoteAddr := "10.0.0.1:40000";
     HTTP.Headers := {[ "Authorization" := [header] ]} |}.

(** The query strings [?page=...&per_page=...] and [?q=...]. *)
Definition query_string (page per_page : string) (key : string) : string :=
  if decide (key = "page") then page
  else if decide (key = "per_page") then per_page
  else EmptyString.

Definition search_string (q : string) (key : string) : string :=
  if decide (key = "q") then q else EmptyString.

End Samples.

(** * Properties *)

Section RateLimiterFacts.
Import Middleware.

Lemma wrap_id z : GoInt.in_range z -> GoInt.wrap z = z.
Proof.
  unfold GoInt.in_range, GoInt.wrap, GoInt.min_int, GoInt.max_int. intros H.
  rewrite Z.mod_small; lia.
Qed.

Lemma allow_fresh rl key now :
  no_live_window rl key now ->
  allow rl key now =
    (true, set_visitors rl (<[key := fresh_window rl now]> (visitors rl))).
Proof.
  unfold no_live_window, allow, Time.After.
  destruct (visitors rl !! key) as [v|]; [|done].
  intros H. apply Z.ltb_lt in H. by rewrite H.
Qed.

Lemma allow_live rl key now v :
  visitors rl !! key = Some v ->
  t_check now <= resetAt v ->
  allow rl key now =
    (GoInt.wrap (count v + 1) <=? limit rl,
     set_visitors rl (<[key := mkVisitor (GoInt.wrap (count v + 1)) (resetAt v)]> (visitors rl))).
Proof.
  unfold allow, Time.After. intros -> H.
  destruct (Z.ltb_spec (resetAt v) (t_check now)); [lia|done].
Qed.

Lemma set_visitors_lookup rl vs : visitors (set_visitors rl vs) = vs.
Proof. done. Qed.

(** Calls that all fall inside the live window of [key] count upwards from
    the window's count and leave its reset time alone. *)
Lemma allow_run_live rl key ts c r :
  visitors rl !! key = Some (mkVisitor c r) ->
  Forall (fun t => t_check t <= r) ts ->
  GoInt.min_int <= c -> c + Z.of_nat (length ts) <= GoInt.max_int ->
  (allow_run rl key ts).1 =
    map (fun i => c + 1 + Z.of_nat i <=? limit rl) (seq 0 (length ts)) /\
  visitors (allow_run rl key ts).2 !! key =
    Some (mkVisitor (c + Z.of_nat (length ts)) r) /\
  limit (allow_run rl key ts).2 = limit rl /\
  window (allow_run rl key ts).2 = window rl.
Proof.
  intros Hk Hts. revert rl c Hk.
  induction Hts as [|t ts Ht Hts IH]; intros rl c Hk Hlo Hhi; simpl in *.
  { rewrite Hk. repeat split; do 2 f_equal; lia. }
  rewrite (allow_live rl key t _ Hk Ht). simpl.
  rewrite wrap_id by (unfold GoInt.in_range; lia).
  set (rl1 := set_visitors rl _).
  destruct (allow_run rl1 key ts) as [bs rl2] eqn:E.
  specialize (IH rl1 (c + 1)). rewrite E in IH. simpl in *.
  destruct IH as (IH1 & IH2 & IH3 & IH4); [by rewrite lookup_insert_eq | lia | lia |].
  repeat split.
  - f_equal; [f_equal; lia|]. rewrite IH1, <- seq_shift, map_map.
    apply map_ext. intros i. f_equal. lia.
  - rewrite IH2. do 2 f_equal. lia.
  - by rewrite IH3.
  - by rewrite IH4.
Qed.

Lemma map_seq_true (f : nat -> bool) (s k : nat) :
  (forall i, (s <= i < s + k)%nat -> f i = true) ->
  map f (seq s k) = repeat true k.
Proof.
  revert s. induction k as [|k IH]; intros s H; simpl; [done|].
  rewrite H by lia. f_equal. apply IH. intros i Hi. apply H. lia.
Qed.

(** For a limit [N] with [1 <= N < max_int]: a call that finds no live
    window followed by [N] calls inside the window it opens.  The first [N]
    of these [N + 1] calls are admitted, the last one is refused, and the
    window then holds count [N + 1]. *)
Lemma allow_run_one_window rl key t0 ts :
  1 <= limit rl < GoInt.max_int ->
  no_live_window rl key t0 ->
  length ts = Z.to_nat (limit rl) ->
  Forall (fun t => t_check t <= Time.Add (t_install t0) (window rl)) ts ->
  (allow_run rl key (t0 :: ts)).1 = repeat true (Z.to_nat (limit rl)) ++ [false] /\
  visitors (allow_run rl key (t0 :: ts)).2 !! key =
    Some (mkVisitor (limit rl + 1) (Time.Add (t_install t0) (window rl))) /\
  limit (allow_run rl key (t0 :: ts)).2 = limit rl /\
  window (allow_run rl key (t0 :: ts)).2 = window rl.
Proof.
  intros HN Hfresh Hlen Hts. simpl.
  rewrite (allow_fresh _ _ _ Hfresh).
  set (rl1 := set_visitors rl _).
  pose proof (allow_run_live rl1 key ts 1 (Time.Add (t_install t0) (window rl))) as Hrun.
  destruct (allow_run rl1 key ts) as [bs rl2]. simpl in *.
  destruct Hrun as (H1 & H2 & H3 & H4);
    [by rewrite lookup_insert_eq | done | unfold GoInt.min_int; lia
    | rewrite Hlen; unfold GoInt.max_int in *; lia |].
  repeat split; [| rewrite H2; do 2 f_equal; lia | done | done].
  rewrite H1, Hlen.
  destruct (Z.to_nat (limit rl)) as [|n] eqn:En; [lia|].
  change (true :: ?l = _) with (true :: l = true :: (repeat true n ++ [false])).
  f_equal. rewrite seq_S, map_app. simpl. f_equal.
  - apply map_seq_true. intros i Hi. apply Z.leb_le. lia.
  - f_equal. apply Z.leb_gt. lia.
Qed.

End RateLimiterFacts.

(** ** The rate limiter, one call after the other *)

Section RateLimiterClaims.
Import Middleware.

(** The count of a window is a machine integer: at the largest one the
    increment wraps around, and the call is admitted whatever the limit. *)
Lemma allow_count_wraps key r :
  let rl := mkRateLimiter {[ key := mkVisitor GoInt.max_int r ]} GoInt.max_int 10 in
  (allow rl key (mkTicks r r)).1 = true /\
  visitors (allow rl key (mkTicks r r)).2 !! key = Some (mkVisitor GoInt.min_int r).
Proof.
  simpl. unfold allow. simpl. rewrite lookup_singleton_eq.
  unfold Time.After. rewrite Z.ltb_irrefl. simpl. by rewrite lookup_insert_eq.
Qed.

(** C1, as stated, at limit 0: for [N = 0] the claim makes the first call
    for a fresh key the [(N+1)]-th call of its window, to be refused; the
    code admits it, as it admits every call that opens a window. *)
Lemma C1_counterexample_limit_zero :
  let rl := newRateLimiter 0 1000 in
  let now := mkTicks 5 5 in
  limit rl = 0 /\ no_live_window rl "10.0.0.1" now /\
  (allow_run rl "10.0.0.1" [now]).1 = [true] /\
  (allow_run rl "10.0.0.1" [now]).1 <> repeat true (Z.to_nat (limit rl)) ++ [false].
Proof. repeat split; vm_compute; congruence. Qed.

(** C1 (amended).  A call of [allow] that finds no window for the key, or
    one whose reset time has passed, installs a window with count 1 dated
    from its clock reading and returns true, whatever the limit.  A call
    that finds a live window increments its count (as a machine integer)
    and returns true exactly when the new count is at most the limit.  So,
    for a limit [N] with [1 <= N < max_int] and a key with no live window:
    of [N + 1] calls of which all but the first fall inside the window the
    first one opens, the first [N] return true and the last returns false;
    and the first call after the window's reset time returns true and
    leaves a window with count 1. *)
Theorem C1_allow_admits_up_to_limit (rl : rateLimiter) (key : string) :
  (forall now, no_live_window rl key now ->
     (allow rl key now).1 = true /\
     visitors (allow rl key now).2 !! key =
       Some (mkVisitor 1 (Time.Add (t_install now) (window rl)))) /\
  (forall now v, visitors rl !! key = Some v -> t_check now <= resetAt v ->
     (allow rl key now).1 = (GoInt.wrap (count v + 1) <=? limit rl) /\
     visitors (allow rl key now).2 !! key =
       Some (mkVisitor (GoInt.wrap (count v + 1)) (resetAt v))) /\
  (forall t0 ts t_after,
     1 <= limit rl < GoInt.max_int ->
     no_live_window rl key t0 ->
     length ts = Z.to_nat (limit rl) ->
     Forall (fun t => t_check t <= Time.Add (t_install t0) (window rl)) ts ->
     Time.Add (t_install t0) (window rl) < t_check t_after ->
     let '(admitted, rl1) := allow_run rl key (t0 :: ts) in
     admitted = repeat true (Z.to_nat (limit rl)) ++ [false] /\
     (allow rl1 key t_after).1 = true /\
     visitors (allow rl1 key t_after).2 !! key =
       Some (mkVisitor 1 (Time.Add (t_install t_after) (window rl)))).
Proof.
  split; [|split].
  - intros now H. rewrite (allow_fresh _ _ _ H). simpl.
    by rewrite lookup_insert_eq.
  - intros now v Hv H. rewrite (allow_live _ _ _ _ Hv H). simpl.
    by rewrite lookup_insert_eq.
  - intros t0 ts t_after HN Hfresh Hlen Hts Hafter.
    pose proof (allow_run_one_window rl key t0 ts HN Hfresh Hlen Hts) as Hrun.
    destruct (allow_run rl key (t0 :: ts)) as [admitted rl1]. simpl in Hrun.
    destruct Hrun as (H1 & H2 & H3 & H4). split; [done|].
    assert (no_live_window rl1 key t_after) as Hexp.
    { unfold no_live_window. rewrite H2. simpl. done. }
    rewrite (allow_fresh _ _ _ Hexp). simpl.
    rewrite lookup_insert_eq. unfold fresh_window. by rewrite H4.
Qed.

(** The statement of C1 at limit 2: three calls in one window, then one
    after it. *)
Lemma C1_allow_admits_up_to_limit_witness :
  let rl := newRateLimiter 2 1000 in
  let key := "10.0.0.1" in
  let t0 := mkTicks 5 5 in
  let ts := [mkTicks 6 6; mkTicks 1005 1005] in
  let t_after := mkTicks 1006 1007 in
  1 <= limit rl < GoInt.max_int /\
  no_live_window rl key t0 /\
  length ts = Z.to_nat (limit rl) /\
  Forall (fun t => t_check t <= Time.Add (t_install t0) (window rl)) ts /\
  Time.Add (t_install t0) (window rl) < t_check t_after /\
  (allow_run rl key (t0 :: ts)).1 = [true; true; false] /\
  (allow (allow_run rl key (t0 :: ts)).2 key t_after).1 = true /\
  visitors (allow (allow_run rl key (t0 :: ts)).2 key t_after).2 !! key
    = Some (mkVisitor 1 2007).
Proof.
  intros rl key t0 ts t_after.
  assert (1 <= limit rl < GoInt.max_int) as H1 by (vm_compute; split; congruence).
  assert (no_live_window rl key t0) as H2 by exact I.
  assert (length ts = Z.to_nat (limit rl)) as H3 by reflexivity.
  assert (Forall (fun t => t_check t <= Time.Add (t_install t0) (window rl)) ts) as H4
    by (repeat constructor; vm_compute; congruence).
  assert (Time.Add (t_install t0) (window rl) < t_check t_after) as H5 by reflexivity.
  split; [exact H1|]. split; [exact H2|]. split; [exact H3|]. split; [exact H4|].
  split; [exact H5|].
  pose proof (proj2 (proj2 (C1_allow_admits_up_to_limit rl key)) t0 ts t_after
                H1 H2 H3 H4 H5) as H.
  destruct (allow_run rl key (t0 :: ts)) as [admitted rl1]. exact H.
Defined.

End RateLimiterClaims.

(** ** Errors *)

Section ErrorFacts.
Import Errors.

Lemma Is_unfold err target :
  Is err target =
    if decide (err = target) then true
    else match err with
         | Errorf_w _ inner => Is inner target
         | _ => false
         end.
Proof. by destruct err. Qed.

Lemma Is_refl err : Is err err = true.
Proof. rewrite Is_unfold. by rewrite decide_True. Qed.

Lemma Is_Errorf_w msg inner target :
  Errorf_w msg inner <> target -> Is (Errorf_w msg inner) target = Is inner target.
Proof. intros H. rewrite Is_unfold. by rewrite decide_False. Qed.

Lemma Is_LibError pkg msg target :
  LibError pkg msg <> target -> Is (LibError pkg msg) target = false.
Proof. intros H. rewrite Is_unfold. by rewrite decide_False. Qed.

End ErrorFacts.

(** ** Strings *)

Section StringFacts.

Lemma prefix_append (p s : string) :
  String.prefix p s = true <-> exists rest, s = p +:+ rest.
Proof.
  revert s. induction p as [|c p IH]; intros s.
  - split; [intros _; by exists s | by destruct s].
  - destruct s as [|d s]; simpl; [split; [done | intros [rest H]; discriminate]|].
    destruct (Ascii.ascii_dec c d) as [->|Hne].
    + rewrite IH. split; intros [rest H]; exists rest.
      * by rewrite H.
      * by injection H.
    + split; [done | intros [rest H]; injection H; congruence].
Qed.

(** [strings.Contains] is a plain substring test: it holds exactly when the
    string is some text, then the substring, then some text. *)
Lemma Contains_substring (s sub : string) :
  Strings.Contains s sub = true <-> exists before after, s = before +:+ sub +:+ after.
Proof.
  induction s as [|c s IH].
  - change (Strings.Contains "" sub) with (String.prefix sub "" || false).
    rewrite orb_false_r, prefix_append. split.
    + intros [rest H]. by exists "", rest.
    + intros ([|c before] & after & H); [by exists after | discriminate].
  - change (Strings.Contains (String c s) sub)
      with (String.prefix sub (String c s) || Strings.Contains s sub).
    rewrite orb_true_iff, IH, prefix_append. split.
    + intros [[rest H] | (before & after & H)].
      * by exists "", rest.
      * exists (String c before), after. simpl. by rewrite H.
    + intros ([|d before] & after & H).
      * left. by exists after.
      * right. exists before, after. by injection H.
Qed.

Lemma Split_head (s : string) (sep : ascii) piece pieces :
  Strings.Split s sep = piece :: pieces -> exists rest, s = piece +:+ rest.
Proof.
  revert piece pieces. induction s as [|c s IH]; intros piece pieces; simpl.
  - intros [= <- _]. by exists "".
  - case_bool_decide.
    + intros [= <- _]. by exists (String c s).
    + destruct (Strings.Split s sep) as [|p ps] eqn:E.
      * intros [= <- _]. exists s. done.
      * intros [= <- _]. destruct (IH p ps eq_refl) as [rest ->]. by exists rest.
Qed.

(** Every piece [strings.Split] returns is a substring of what it split. *)
Lemma Split_piece_substring (s : string) (sep : ascii) piece :
  In piece (Strings.Split s sep) -> exists before after, s = before +:+ piece +:+ after.
Proof.
  revert piece. induction s as [|c s IH]; intros piece; simpl.
  - intros [<-|[]]. by exists "", "".
  - assert (forall q, In q (Strings.Split s sep) ->
              exists before after, String c s = before +:+ q +:+ after) as Hrest.
    { intros q Hq. destruct (IH q Hq) as (before & after & ->).
      by exists (String c before), after. }
    case_bool_decide.
    + intros [<-|Hin]; [by exists "", (String c s) | by apply Hrest].
    + destruct (Strings.Split s sep) as [|p ps] eqn:E.
      * intros [<-|[]]. by exists "", s.
      * intros [<-|Hin].
        -- destruct (Split_head s sep p ps E) as [rest ->]. by exists "", rest.
        -- apply Hrest. by right.
Qed.

(** A clean path is never empty, so neither is a path joined from
    elements of which one is not empty. *)
Lemma Clean_nonempty (path : string) : Filepath.Clean path <> "".
Proof.
  unfold Filepath.Clean. case_bool_decide; [done|].
  destruct (Strings.HasPrefix path "/"); [done|]. by case_bool_decide.
Qed.

Lemma Join_nonempty (dir name : string) : name <> "" -> Filepath.Join dir name <> "".
Proof.
  intros Hname. unfold Filepath.Join, Filepath.join.
  case_bool_decide; [|apply Clean_nonempty].
  rewrite bool_decide_eq_false_2 by done. apply Clean_nonempty.
Qed.

Lemma zip_name_nonempty (id : string) : id +:+ ".zip" <> "".
Proof. by destruct id. Qed.

End StringFacts.

(** ** The copy loop *)

Section CopyFacts.
Import IO.

Context {W : Type} (write : W -> list byte -> W).
Hypothesis write_app : forall w a b, write (write w a) b = write w (a ++ b).

(** The loop, given rounds enough for the pending bytes, takes from the
    source the first [consumed] bytes and nothing else, writes exactly
    these, and reports the source's own error only when the source ended
    before the limit was reached. *)
Lemma copy_loop_spec (fuel size : nat) (src : LimitedReader) (dst : W) (written : Z) :
  (0 < size)%nat ->
  (length (pending (R src)) < fuel)%nat ->
  let data := pending (R src) in
  let k := consumed (N src) data in
  copy_loop write fuel size src dst written =
    (written + Z.of_nat k,
     if N src <=? Z.of_nat (length data) then None else failure (R src),
     {| R := {| pending := drop k data; failure := failure (R src) |};
        N := N src - Z.of_nat k |},
     match k with O => dst | _ => write dst (take k data) end).
Proof.
  intros Hsize. revert src dst written.
  induction fuel as [|fuel IH]; intros [[data fl] n] dst written Hfuel; simpl in *; [exfalso; lia|].
  unfold LimitedReader_Read, consumed. simpl.
  destruct (Z.leb_spec n 0) as [Hn|Hn].
  { replace (Z.to_nat n) with 0%nat by lia. simpl.
    destruct (Z.leb_spec n (Z.of_nat (length data))); [|exfalso; lia].
    repeat f_equal; lia. }
  unfold Read. simpl.
  destruct data as [|x data].
  { simpl. rewrite Nat.min_0_r. simpl.
    destruct (Z.leb_spec n (Z.of_nat 0)); [exfalso; lia|].
    destruct fl; simpl; repeat f_equal; lia. }
  set (n' := if n <? Z.of_nat size then Z.to_nat n else size).
  assert (1 <= n' <= Z.to_nat n)%nat as Hn'.
  { unfold n'. destruct (Z.ltb_spec n (Z.of_nat size)); lia. }
  clearbody n'.
  set (p := x :: data) in *.
  assert (length p = Datatypes.S (length data)) as Hp by done.
  assert (take n' p <> []) as Hgot.
  { unfold p. destruct n'; [lia|done]. }
  rewrite <- ?Hp. clearbody p.
  rewrite IH by (simpl; rewrite length_drop; lia).
  simpl. unfold consumed.
  rewrite length_take, length_drop.
  destruct (take n' p) as [|g got] eqn:Egot; [done|]. rewrite <- Egot. clear Hgot.
  remember (Nat.min (Z.to_nat n) (length p)) as k eqn:Ek.
  remember (Nat.min (Z.to_nat (n - Z.of_nat (n' `min` length p))) (length p - n'))
    as k' eqn:Ek'.
  assert (k = (n' `min` length p) + k')%nat as Hk by lia.
  f_equal; [f_equal; [f_equal|]|].
  - lia.
  - destruct (Z.leb_spec (n - Z.of_nat (n' `min` length p)) (Z.of_nat (length p - n')));
      destruct (Z.leb_spec n (Z.of_nat (length p))); try done; exfalso; lia.
  - f_equal; [|lia]. f_equal. rewrite drop_drop.
    destruct (Nat.le_gt_cases n' (length p)); [f_equal; lia|].
    by rewrite !drop_ge by lia.
  - replace (match k with O => dst | _ => write dst (take k p) end)
      with (write dst (take k p)) by (destruct k; [exfalso; lia | done]).
    assert (take k p = take n' p ++ take k' (drop n' p)) as ->.
    { rewrite Hk. destruct (Nat.le_gt_cases n' (length p)).
      - rewrite Nat.min_l by lia. by rewrite take_take_drop.
      - assert (k' = 0)%nat as -> by lia.
        rewrite Nat.add_0_r, take_0, app_nil_r.
        rewrite !take_ge by lia. done. }
    destruct k'; [by rewrite take_0, app_nil_r|].
    by rewrite write_app.
Qed.

End CopyFacts.

(** ** The storage service *)

Section StorageFacts.
Import Errors Service.

Variable sha256_Sum : list byte -> list byte.
Variable zip_NewReader : list byte -> string + list Zip.File.
Variable json_Decode : list byte -> string + SkillManifest.

Lemma CreateTemp_try_fresh (fs : OS.FS) pre suf randoms tmpPath fs1 :
  OS.CreateTemp_try fs pre suf randoms = inr (tmpPath, fs1) ->
  fs !! tmpPath = None /\ fs1 = <[tmpPath := []]> fs.
Proof.
  induction randoms as [|r randoms IH]; simpl; [done|].
  destruct (fs !! (pre +:+ r +:+ suf)) eqn:E; [done|].
  intros [= <- <-]. done.
Qed.

Lemma CreateTemp_fresh (fs : OS.FS) dir pattern randoms tmpPath fs1 :
  OS.CreateTemp fs dir pattern randoms = inr (tmpPath, fs1) ->
  fs !! tmpPath = None /\ fs1 = <[tmpPath := []]> fs.
Proof.
  unfold OS.CreateTemp. destruct (default _ _) as [pre suf].
  apply CreateTemp_try_fresh.
Qed.

Lemma File_Write_app name (fs : OS.FS) a b :
  OS.File_Write name (OS.File_Write name fs a) b = OS.File_Write name fs (a ++ b).
Proof.
  unfold OS.File_Write. rewrite lookup_insert_eq, insert_insert_eq. simpl.
  by rewrite app_assoc.
Qed.

(** What the copy in [SaveFile] does: the temporary file and the hasher
    both receive the bytes consumed from the source, and nothing else. *)
Lemma SaveFile_copy (fs : OS.FS) tmpPath (src : IO.Reader) (n : Z) :
  let k := IO.consumed n (IO.pending src) in
  let data := take k (IO.pending src) in
  IO.Copy (IO.MultiWriter (OS.File_Write tmpPath) hasher_Write)
          (<[tmpPath := []]> fs, hasher_New) (IO.LimitReader src n) =
    (Z.of_nat k,
     if n <=? Z.of_nat (length (IO.pending src)) then None else IO.failure src,
     {| IO.R := {| IO.pending := drop k (IO.pending src); IO.failure := IO.failure src |};
        IO.N := n - Z.of_nat k |},
     (<[tmpPath := data]> fs, data)).
Proof.
  intros k data. unfold IO.Copy.
  rewrite copy_loop_spec.
  - simpl. fold k. f_equal. subst data. destruct k eqn:Ek; [done|].
    unfold IO.MultiWriter, OS.File_Write, hasher_Write, hasher_New. simpl.
    by rewrite lookup_insert_eq, insert_insert_eq.
  - intros [w1 w2] a b. unfold IO.MultiWriter. simpl.
    rewrite File_Write_app. unfold hasher_Write. by rewrite app_assoc.
  - unfold IO.copy_buffer_size. simpl.
    destruct (n <? 32 * 1024); [destruct (n <? 1) eqn:E; [lia | apply Z.ltb_ge in E; lia] | lia].
  - simpl. lia.
Qed.

(** [SaveFile] once its temporary file exists, stage by stage. *)
Lemma SaveFile_stages (s : StorageService) (fs : OS.FS) (src : IO.Reader)
    (originalName : string) (env : Entropy) tmpPath fs1 :
  OS.CreateTemp fs (uploadDir s) "upload-*.zip" (tempNames env) = inr (tmpPath, fs1) ->
  let n := GoInt.wrap (maxFileSize s + 1) in
  let k := IO.consumed n (IO.pending src) in
  let data := take k (IO.pending src) in
  let rest := {| IO.pending := drop k (IO.pending src); IO.failure := IO.failure src |} in
  let finalPath := Filepath.Join (uploadDir s) (newUUID env +:+ ".zip") in
  SaveFile sha256_Sum zip_NewReader json_Decode s fs src originalName env =
    match (if n <=? Z.of_nat (length (IO.pending src)) then None else IO.failure src) with
    | Some e => (inl (Errorf_w "save file: " e), fs, rest)
    | None =>
        if maxFileSize s <? Z.of_nat k then (inl ErrFileTooLarge, fs, rest)
        else
          match validatePackage zip_NewReader json_Decode (<[tmpPath := data]> fs) tmpPath with
          | inl e => (inl e, fs, rest)
          | inr manifest =>
              (inr (finalPath, Hex.EncodeToString (sha256_Sum data), manifest),
               <[finalPath := data]> fs, rest)
          end
    end.
Proof.
  intros Htmp n k data rest finalPath. unfold SaveFile. rewrite Htmp.
  apply CreateTemp_fresh in Htmp as [Hfresh ->].
  unfold IO.LimitReader. fold n.
  pose proof (SaveFile_copy fs tmpPath src n) as Hcopy. simpl in Hcopy.
  unfold IO.LimitReader in Hcopy. rewrite Hcopy. fold k data. clear Hcopy.
  assert (forall A (e : error),
    deferred_cleanup (A := A) tmpPath (inl e, <[tmpPath := data]> fs) = (inl e, fs)) as Hclean.
  { intros A e. unfold deferred_cleanup, OS.Remove. simpl.
    rewrite lookup_insert_eq. simpl. by rewrite delete_insert_id. }
  destruct (if n <=? _ then None else IO.failure src) as [e|].
  { by rewrite Hclean. }
  destruct (maxFileSize s <? Z.of_nat k).
  { by rewrite Hclean. }
  destruct (validatePackage _ _ _ _) as [e|manifest].
  { by rewrite Hclean. }
  unfold OS.Rename. rewrite lookup_insert_eq. unfold deferred_cleanup. simpl.
  by rewrite delete_insert_id.
Qed.

(** *** The loop over the entries *)

Lemma range_File_symlink pre f post m :
  Forall (fun g => hasDotDot g = false) pre ->
  isSymlink f = true ->
  range_File (pre ++ f :: post) m = inl ErrSymlinkDetected.
Proof.
  intros Hpre Hf. revert m.
  induction Hpre as [|g pre Hg Hpre IH]; intros m; simpl.
  - by rewrite Hf.
  - destruct (isSymlink g); [done|]. rewrite Hg.
    destruct (isManifest g); apply IH.
Qed.

Lemma range_File_dotdot pre f post m :
  Forall (fun g => isSymlink g = false) (pre ++ [f]) ->
  hasDotDot f = true ->
  range_File (pre ++ f :: post) m = inl ErrInvalidPackage.
Proof.
  intros Hpre Hf. revert m.
  induction pre as [|g pre IH]; intros m; simpl in *.
  - apply Forall_cons in Hpre as [-> _]. by rewrite Hf.
  - apply Forall_cons in Hpre as [-> Hpre].
    destruct (hasDotDot g); [done|].
    destruct (isManifest g); by apply IH.
Qed.

(** Without symbolic links and [".."] names the loop ends with the last
    entry that passes the manifest test, or with what it started from. *)
Lemma range_File_last files m :
  Forall (fun g => isSymlink g = false) files ->
  Forall (fun g => hasDotDot g = false) files ->
  range_File files m =
    inr (match last (List.filter isManifest files) with
         | Some f => Some f
         | None => m
         end).
Proof.
  intros Hs. revert m. induction Hs as [|g files Hg Hs IH]; intros m Hd; simpl; [done|].
  apply Forall_cons in Hd as [Hgd Hd]. rewrite Hg, Hgd.
  destruct (isManifest g) eqn:Eg.
  - rewrite IH by done. simpl.
    destruct (List.filter isManifest files) as [|h hs] eqn:E; [done|].
    change (last (g :: h :: hs)) with (last (h :: hs)).
    destruct (last (h :: hs)) eqn:El; [done|].
    by apply last_None in El.
  - by rewrite IH.
Qed.

End StorageFacts.

(** ** The storage service: oversized uploads and the digest *)

Section StorageClaims.
Import Errors Service.

Variable sha256_Sum : list byte -> list byte.
Variable zip_NewReader : list byte -> string + list Zip.File.
Variable json_Decode : list byte -> string + SkillManifest.

(** Whenever [SaveFile] returns an error the file system is as it was
    before the call: the temporary file is gone and nothing else changed. *)
Lemma SaveFile_error_restores s (fs : OS.FS) src originalName env e fs' src' :
  SaveFile sha256_Sum zip_NewReader json_Decode s fs src originalName env = (inl e, fs', src') ->
  fs' = fs.
Proof.
  destruct (OS.CreateTemp fs (uploadDir s) "upload-*.zip" (tempNames env))
    as [e0|[tmpPath fs1]] eqn:Htmp.
  - unfold SaveFile. rewrite Htmp. by intros [= _ <- _].
  - rewrite (SaveFile_stages _ _ _ _ _ _ _ _ _ _ Htmp).
    repeat case_match; by intros [= <-].
Qed.

(** C2.  For a size limit below the largest [int64], a temporary file
    that could be created, and an input stream holding more bytes than the
    limit: [SaveFile] returns [ErrFileTooLarge]; it takes the first
    limit + 1 bytes from the stream (none when that is not positive) and
    leaves the rest unread; and it leaves the file system as it found it,
    so the temporary file is gone and no file was added to the upload
    directory. *)
Theorem C2_oversized_upload_rejected (s : StorageService) (fs : OS.FS) (src : IO.Reader)
    (originalName : string) (env : Entropy) (tmpPath : string) (fs1 : OS.FS) :
  GoInt.min_int <= maxFileSize s < GoInt.max_int ->
  OS.CreateTemp fs (uploadDir s) "upload-*.zip" (tempNames env) = inr (tmpPath, fs1) ->
  maxFileSize s < Z.of_nat (length (IO.pending src)) ->
  let read := take (Z.to_nat (maxFileSize s + 1)) (IO.pending src) in
  let rest := {| IO.pending := drop (Z.to_nat (maxFileSize s + 1)) (IO.pending src);
                 IO.failure := IO.failure src |} in
  SaveFile sha256_Sum zip_NewReader json_Decode s fs src originalName env
    = (inl ErrFileTooLarge, fs, rest) /\
  IO.pending src = read ++ IO.pending rest /\
  Z.of_nat (length read) <= Z.max 0 (maxFileSize s + 1) /\
  fs !! tmpPath = None.
Proof.
  intros Hmax Htmp Hlen read rest.
  rewrite (SaveFile_stages _ _ _ _ _ _ _ _ _ _ Htmp).
  rewrite wrap_id by (unfold GoInt.in_range, GoInt.min_int, GoInt.max_int in *; lia).
  assert (IO.consumed (maxFileSize s + 1) (IO.pending src) = Z.to_nat (maxFileSize s + 1))
    as -> by (unfold IO.consumed; lia).
  destruct (Z.leb_spec (maxFileSize s + 1) (Z.of_nat (length (IO.pending src))));
    [|exfalso; lia].
  destruct (Z.ltb_spec (maxFileSize s) (Z.of_nat (Z.to_nat (maxFileSize s + 1))));
    [|exfalso; lia].
  split; [done|]. split; [|split].
  - subst read rest. simpl. by rewrite take_drop.
  - subst read. rewrite length_take. lia.
  - by apply CreateTemp_fresh in Htmp as [? _].
Qed.

(** C7.  Whenever [SaveFile] accepts an upload, the file at the path it
    returns holds exactly the bytes it took from the stream, in one pass
    (the stream is left with what follows them), and the digest it returns
    is the hex encoding of the SHA-256 digest of these bytes.  The digest
    comes from the hasher the copy fed: after the copy, the hasher has
    received exactly the contents of the temporary file. *)
Theorem C7_digest_matches_stored_bytes (s : StorageService) (fs : OS.FS) (src : IO.Reader)
    (originalName : string) (env : Entropy)
    (path hash : string) (manifest : SkillManifest) (fs' : OS.FS) (src' : IO.Reader) :
  SaveFile sha256_Sum zip_NewReader json_Decode s fs src originalName env
    = (inr (path, hash, manifest), fs', src') ->
  (exists data,
     fs' !! path = Some data /\
     hash = Hex.EncodeToString (sha256_Sum data) /\
     IO.pending src = data ++ IO.pending src') /\
  (forall tmpPath n,
     let '(_, _, _, (fs2, hasher)) :=
       IO.Copy (IO.MultiWriter (OS.File_Write tmpPath) hasher_Write)
               (<[tmpPath := []]> fs, hasher_New) (IO.LimitReader src n) in
     fs2 !! tmpPath = Some hasher).
Proof.
  intros Hsave. split.
  - destruct (OS.CreateTemp fs (uploadDir s) "upload-*.zip" (tempNames env))
      as [e0|[tmpPath fs1]] eqn:Htmp.
    { unfold SaveFile in Hsave. by rewrite Htmp in Hsave. }
    rewrite (SaveFile_stages _ _ _ _ _ _ _ _ _ _ Htmp) in Hsave.
    destruct (if _ <=? _ then None else IO.failure src); [done|].
    destruct (maxFileSize s <? _); [done|].
    destruct (validatePackage _ _ _ _); [done|].
    injection Hsave as <- <- <- <- <-.
    eexists. split; [apply lookup_insert_eq|]. split; [done|].
    simpl. by rewrite take_drop.
  - intros tmpPath n. rewrite SaveFile_copy. apply lookup_insert_eq.
Qed.

End StorageClaims.

(** The statement of C2 on an upload of seven bytes against a limit of four. *)
Lemma C2_oversized_upload_rejected_witness :
  let s := Service.mkStorageService "uploads" 4 in
  let src := Fixtures.upload (Fixtures.archive "demo") in
  (GoInt.min_int <= Service.maxFileSize s < GoInt.max_int) /\
  OS.CreateTemp ∅ (Service.uploadDir s) "upload-*.zip" (Service.tempNames Fixtures.entropy)
    = inr (Fixtures.tmpPath, {[ Fixtures.tmpPath := [] ]}) /\
  Service.maxFileSize s < Z.of_nat (length (IO.pending src)) /\
  Service.SaveFile Fixtures.sha256_Sum Fixtures.zip_NewReader Fixtures.json_Decode
      s ∅ src "upload.zip" Fixtures.entropy
    = (inl Errors.ErrFileTooLarge, ∅,
       {| IO.pending := Fixtures.bytes_of "mo"; IO.failure := None |}).
Proof.
  intros s src.
  assert (GoInt.min_int <= Service.maxFileSize s < GoInt.max_int) as H1
    by (vm_compute; split; congruence).
  assert (OS.CreateTemp ∅ (Service.uploadDir s) "upload-*.zip"
            (Service.tempNames Fixtures.entropy)
          = inr (Fixtures.tmpPath, {[ Fixtures.tmpPath := [] ]})) as H2 by reflexivity.
  assert (Service.maxFileSize s < Z.of_nat (length (IO.pending src))) as H3 by reflexivity.
  split; [exact H1|]. split; [exact H2|]. split; [exact H3|].
  exact (proj1 (C2_oversized_upload_rejected Fixtures.sha256_Sum Fixtures.zip_NewReader
                  Fixtures.json_Decode s ∅ src "upload.zip" Fixtures.entropy
                  Fixtures.tmpPath _ H1 H2 H3)).
Defined.

(** The statement of C7 on the sample archive. *)
Lemma C7_digest_matches_stored_bytes_witness :
  let src := Fixtures.upload (Fixtures.archive "demo") in
  let fs' : OS.FS := {[ Fixtures.finalPath := Fixtures.archive "demo" ]} in
  Service.SaveFile Fixtures.sha256_Sum Fixtures.zip_NewReader Fixtures.json_Decode
      Fixtures.storage ∅ src "upload.zip" Fixtures.entropy
    = (inr (Fixtures.finalPath, "6f6d6564", Fixtures.manifest "Demo" "demo" "1.0.0"),
       fs', Fixtures.upload []) /\
  exists data,
    fs' !! Fixtures.finalPath = Some data /\
    "6f6d6564" = Hex.EncodeToString (Fixtures.sha256_Sum data) /\
    IO.pending src = data ++ [].
Proof.
  intros src fs'.
  assert (Service.SaveFile Fixtures.sha256_Sum Fixtures.zip_NewReader Fixtures.json_Decode
            Fixtures.storage ∅ src "upload.zip" Fixtures.entropy
          = (inr (Fixtures.finalPath, "6f6d6564", Fixtures.manifest "Demo" "demo" "1.0.0"),
             fs', Fixtures.upload [])) as H by reflexivity.
  split; [exact H|].
  exact (proj1 (C7_digest_matches_stored_bytes _ _ _ _ _ _ _ _ _ _ _ _ _ H)).
Defined.

(** ** The archive validator *)

Section ValidatorClaims.
Import Errors Service.

Variable sha256_Sum : list byte -> list byte.
Variable zip_NewReader : list byte -> string + list Zip.File.
Variable json_Decode : list byte -> string + SkillManifest.

(** The mode test is a test of bit 27. *)
Lemma isSymlink_testbit f :
  isSymlink f = Z.testbit (Zip.Mode f) 27.
Proof.
  unfold isSymlink. change OS.ModeSymlink with (2 ^ 27).
  destruct (Z.testbit (Zip.Mode f) 27) eqn:E.
  - apply negb_true_iff, Z.eqb_neq. intros H.
    apply (f_equal (fun z => Z.testbit z 27)) in H.
    rewrite Z.land_spec, E in H. by vm_compute in H.
  - apply negb_false_iff, Z.eqb_eq. apply Z.bits_inj'. intros n Hn.
    rewrite Z.land_spec, Z.bits_0, Z.pow2_bits_eqb by lia.
    destruct (Z.eqb_spec 27 n) as [<-|]; [by rewrite E | by rewrite andb_false_r].
Qed.

(** An archive with a symbolic link never gets through the loop. *)
Lemma range_File_has_symlink files m :
  Exists (fun f => isSymlink f = true) files ->
  range_File files m = inl ErrSymlinkDetected \/
  range_File files m = inl ErrInvalidPackage.
Proof.
  intros H. revert m. induction H as [f files Hf|f files H IH]; intros m; simpl.
  - rewrite Hf. by left.
  - destruct (isSymlink f); [by left|].
    destruct (hasDotDot f); [by right|].
    destruct (isManifest f); apply IH.
Qed.

(** C8.  An entry passes the manifest test exactly when its base name is
    [manifest.json] and its name, less one trailing slash, has at most two
    pieces between slashes.  For an archive that opens and has neither a
    symbolic link nor a name containing [".."], validation reads the
    manifest from the last entry, in the order of the archive, that passes
    the test; when no entry passes, it returns [ErrNoManifest]. *)
Theorem C8_manifest_discovery (fs : OS.FS) (path : string) (files : list Zip.File) :
  zip_OpenReader zip_NewReader fs path = inr files ->
  Forall (fun f => isSymlink f = false) files ->
  Forall (fun f => hasDotDot f = false) files ->
  (forall f, isManifest f = true <->
     Filepath.Base (Zip.Name f) = "manifest.json" /\
     (length (Strings.Split (Strings.TrimSuffix (Zip.Name f) "/") "/"%char) <= 2)%nat) /\
  validatePackage zip_NewReader json_Decode fs path =
    match last (List.filter isManifest files) with
    | Some manifestFile => readManifest json_Decode manifestFile
    | None => inl ErrNoManifest
    end.
Proof.
  intros Hopen Hs Hd. split.
  - intros f. unfold isManifest, depth.
    rewrite andb_true_iff, bool_decide_eq_true, Z.leb_le. split; intros [? ?]; split; (done || lia).
  - unfold validatePackage. rewrite Hopen, (range_File_last _ _ Hs Hd).
    by destruct (last _).
Qed.

(** C10.  For an archive that opens and has no symbolic link: if the
    stored name of some entry contains [".."] as a substring, anywhere,
    validation returns [ErrInvalidPackage].  Every name with a piece [".."]
    between slashes is such a name, and so is [notes..txt], which has no
    such piece. *)
Theorem C10_dotdot_substring_rejected (fs : OS.FS) (path : string) (files : list Zip.File) :
  zip_OpenReader zip_NewReader fs path = inr files ->
  Forall (fun f => isSymlink f = false) files ->
  Exists (fun f => exists before after, Zip.Name f = before +:+ ".." +:+ after) files ->
  validatePackage zip_NewReader json_Decode fs path = inl ErrInvalidPackage /\
  (forall name, In ".." (Strings.Split name "/"%char) -> Strings.Contains name ".." = true) /\
  (Strings.Contains "notes..txt" ".." = true /\
   ~ In ".." (Strings.Split "notes..txt" "/"%char)).
Proof.
  intros Hopen Hs Hex. split; [|split].
  - apply Exists_exists in Hex as (f & Hin & Hf).
    apply list_elem_of_split in Hin as (pre & post & ->).
    unfold validatePackage. rewrite Hopen.
    rewrite (range_File_dotdot pre f post); [done| |].
    + replace (pre ++ f :: post) with ((pre ++ [f]) ++ post) in Hs
        by (by rewrite <- app_assoc).
      by apply Forall_app in Hs as [? _].
    + by apply Contains_substring.
  - intros name Hin. apply Contains_substring. by apply Split_piece_substring in Hin.
  - split; [done|]. simpl. intros [H|[]]. discriminate.
Qed.

(** Among entries of which one has [".."] in its name there is a first
    such entry. *)
Lemma first_dotdot (files : list Zip.File) :
  Exists (fun g => hasDotDot g = true) files ->
  exists pre g post,
    files = pre ++ g :: post /\ hasDotDot g = true /\
    Forall (fun h => hasDotDot h = false) pre.
Proof.
  induction files as [|f files IH]; intros Hex; [by apply Exists_nil in Hex|].
  destruct (hasDotDot f) eqn:Hf.
  - by exists [], f, files.
  - apply Exists_cons in Hex as [Hex|Hex]; [congruence|].
    destruct (IH Hex) as (pre & g & post & -> & Hg & Hpre).
    exists (f :: pre), g, post. split; [done|]. split; [done|by constructor].
Qed.

(** C4 (amended).  For an upload that is stored whole (within the size
    limit, read without error, into a temporary file that could be
    created) and opens as an archive with at least one symbolic link:
    [SaveFile] returns the error validation returns, which is
    [ErrSymlinkDetected] or [ErrInvalidPackage], and leaves the file system
    as it found it.  The error is [ErrSymlinkDetected] whenever no entry
    stored before a symbolic link has [".."] in its name, whatever the
    other entries are and whether or not there is a manifest; it is
    [ErrInvalidPackage] whenever an entry stored before the first symbolic
    link has [".."] in its name. *)
Theorem C4_symlink_rejected (s : StorageService) (fs : OS.FS) (src : IO.Reader)
    (originalName : string) (env : Entropy) (tmpPath : string) (fs1 : OS.FS)
    (files : list Zip.File) :
  0 <= maxFileSize s < GoInt.max_int ->
  OS.CreateTemp fs (uploadDir s) "upload-*.zip" (tempNames env) = inr (tmpPath, fs1) ->
  IO.failure src = None ->
  Z.of_nat (length (IO.pending src)) <= maxFileSize s ->
  zip_NewReader (IO.pending src) = inr files ->
  Exists (fun f => isSymlink f = true) files ->
  exists e,
    validatePackage zip_NewReader json_Decode (<[tmpPath := IO.pending src]> fs) tmpPath = inl e /\
    SaveFile sha256_Sum zip_NewReader json_Decode s fs src originalName env
      = (inl e, fs, {| IO.pending := []; IO.failure := None |}) /\
    (e = ErrSymlinkDetected \/ e = ErrInvalidPackage) /\
    (forall pre f post,
       files = pre ++ f :: post -> isSymlink f = true ->
       Forall (fun g => hasDotDot g = false) pre ->
       e = ErrSymlinkDetected) /\
    (forall pre f post,
       files = pre ++ f :: post -> isSymlink f = true ->
       Forall (fun g => isSymlink g = false) pre ->
       Exists (fun g => hasDotDot g = true) pre ->
       e = ErrInvalidPackage).
Proof.
  intros Hmax Htmp Hfail Hlen Hzip Hex.
  assert (validatePackage zip_NewReader json_Decode (<[tmpPath := IO.pending src]> fs) tmpPath
          = match range_File files None with
            | inl e => inl e
            | inr None => inl ErrNoManifest
            | inr (Some f) => readManifest json_Decode f
            end) as Hval.
  { unfold validatePackage, zip_OpenReader. by rewrite lookup_insert_eq, Hzip. }
  assert (exists e, range_File files None = inl e /\
            (e = ErrSymlinkDetected \/ e = ErrInvalidPackage)) as (e & He & Hkind).
  { destruct (range_File_has_symlink files None Hex) as [H|H]; eauto. }
  exists e. rewrite Hval, He. split; [done|]. split; [|split; [done|split]].
  - rewrite (SaveFile_stages _ _ _ _ _ _ _ _ _ _ Htmp).
    rewrite wrap_id by (unfold GoInt.in_range, GoInt.min_int, GoInt.max_int in *; lia).
    assert (IO.consumed (maxFileSize s + 1) (IO.pending src) = length (IO.pending src))
      as -> by (unfold IO.consumed; lia).
    rewrite firstn_all, skipn_all, Hfail.
    destruct (Z.leb_spec (maxFileSize s + 1) (Z.of_nat (length (IO.pending src))));
      [exfalso; lia|].
    destruct (Z.ltb_spec (maxFileSize s) (Z.of_nat (length (IO.pending src))));
      [exfalso; lia|].
    by rewrite Hval, He.
  - intros pre f post -> Hf Hpre.
    rewrite (range_File_symlink pre f post None Hpre Hf) in He. congruence.
  - intros pre f post -> Hf Hpre Hdots.
    destruct (first_dotdot pre Hdots) as (p1 & g & p2 & -> & Hg & _).
    rewrite <- app_assoc in He. simpl in He.
    rewrite (range_File_dotdot p1 g (p2 ++ f :: post) None) in He; [congruence| |done].
    apply Forall_app in Hpre as [Hp1 Hrest]. apply Forall_cons in Hrest as [Hgs _].
    apply Forall_app. split; [done|by constructor].
Qed.

(** C5 (amended).  When validation has found the manifest entry and read
    its bytes: a decode error yields an error that wraps the decoder's
    error under the text [parse manifest: ] and is not of kind
    [ErrInvalidPackage]; a manifest decoded with an empty name or an empty
    slug yields the error [manifest must contain name and slug]; and a
    manifest with a name and a slug is accepted, whatever its version. *)
Theorem C5_manifest_parse (fs : OS.FS) (path : string) (files : list Zip.File)
    (manifestFile : Zip.File) (rc : list byte) :
  zip_OpenReader zip_NewReader fs path = inr files ->
  range_File files None = inr (Some manifestFile) ->
  Zip.Open manifestFile = inr rc ->
  (forall msg, json_Decode rc = inl msg ->
     let err := Errorf_w "parse manifest: " (jsonError msg) in
     validatePackage zip_NewReader json_Decode fs path = inl err /\
     Is err (jsonError msg) = true /\
     Is err ErrInvalidPackage = false) /\
  (forall manifest, json_Decode rc = inr manifest ->
     Name manifest = "" \/ Slug manifest = "" ->
     validatePackage zip_NewReader json_Decode fs path
       = inl (Errorf "manifest must contain name and slug")) /\
  (forall manifest, json_Decode rc = inr manifest ->
     Name manifest <> "" -> Slug manifest <> "" ->
     validatePackage zip_NewReader json_Decode fs path = inr manifest).
Proof.
  intros Hopen Hloop Hrc.
  assert (validatePackage zip_NewReader json_Decode fs path
          = readManifest json_Decode manifestFile) as ->.
  { unfold validatePackage. by rewrite Hopen, Hloop. }
  unfold readManifest. rewrite Hrc. split; [|split].
  - intros msg ->. cbv zeta. split; [done|]. unfold jsonError. split.
    + rewrite Is_Errorf_w by done. apply Is_refl.
    + rewrite Is_Errorf_w by done. by apply Is_LibError.
  - intros manifest -> [H|H]; rewrite H; [done|by rewrite orb_true_r].
  - intros manifest -> Hn Hs.
    by rewrite !bool_decide_eq_false_2.
Qed.

End ValidatorClaims.

(** *** The validator on the sample archives *)

Section ValidatorExamples.
Import Errors Service Fixtures.

Abbreviation validate data :=
  (validatePackage zip_NewReader json_Decode {[ tmpPath := data ]} tmpPath).

(** C4, as stated, on an archive whose first entry has [".."] in its name
    and whose second entry is a symbolic link: validation stops at the
    first entry, with [ErrInvalidPackage]. *)
Lemma C4_counterexample_dotdot_before_symlink :
  zip_NewReader (archive "dotdot-then-symlink") = inr entries_dotdot_then_symlink /\
  Exists (fun f => isSymlink f = true) entries_dotdot_then_symlink /\
  validate (archive "dotdot-then-symlink") = inl ErrInvalidPackage /\
  SaveFile sha256_Sum zip_NewReader json_Decode storage ∅
      (upload (archive "dotdot-then-symlink")) "upload.zip" entropy
    = (inl ErrInvalidPackage, ∅, upload []) /\
  Is ErrInvalidPackage ErrSymlinkDetected = false.
Proof.
  split; [reflexivity|]. split; [|by vm_compute].
  apply Exists_cons_tl, Exists_cons_hd. reflexivity.
Qed.

(** The statement of C4 on an archive of a manifest and a symbolic link,
    and on one whose entry before the symbolic link has [".."] in its
    name. *)
Lemma C4_symlink_rejected_witness :
  (0 <= maxFileSize storage < GoInt.max_int) /\
  OS.CreateTemp ∅ (uploadDir storage) "upload-*.zip" (tempNames entropy)
    = inr (tmpPath, {[ tmpPath := [] ]}) /\
  IO.failure (upload (archive "symlink")) = None /\
  Z.of_nat (length (IO.pending (upload (archive "symlink")))) <= maxFileSize storage /\
  zip_NewReader (IO.pending (upload (archive "symlink"))) = inr entries_symlink /\
  Exists (fun f => isSymlink f = true) entries_symlink /\
  SaveFile sha256_Sum zip_NewReader json_Decode storage ∅
      (upload (archive "symlink")) "upload.zip" entropy
    = (inl ErrSymlinkDetected, ∅, upload []) /\
  Z.of_nat (length (IO.pending (upload (archive "dotdot-then-symlink"))))
    <= maxFileSize storage /\
  zip_NewReader (IO.pending (upload (archive "dotdot-then-symlink")))
    = inr entries_dotdot_then_symlink /\
  Exists (fun f => isSymlink f = true) entries_dotdot_then_symlink /\
  SaveFile sha256_Sum zip_NewReader json_Decode storage ∅
      (upload (archive "dotdot-then-symlink")) "upload.zip" entropy
    = (inl ErrInvalidPackage, ∅, upload []).
Proof.
  assert (0 <= maxFileSize storage < GoInt.max_int) as H1 by (vm_compute; split; congruence).
  assert (OS.CreateTemp ∅ (uploadDir storage) "upload-*.zip" (tempNames entropy)
          = inr (tmpPath, {[ tmpPath := [] ]})) as H2 by reflexivity.
  assert (Z.of_nat (length (IO.pending (upload (archive "symlink")))) <= maxFileSize storage)
    as H3 by (vm_compute; congruence).
  assert (Exists (fun f => isSymlink f = true) entries_symlink) as H4
    by (apply Exists_cons_tl, Exists_cons_hd; reflexivity).
  assert (Z.of_nat (length (IO.pending (upload (archive "dotdot-then-symlink"))))
          <= maxFileSize storage) as H5 by (vm_compute; congruence).
  assert (Exists (fun f => isSymlink f = true) entries_dotdot_then_symlink) as H6
    by (apply Exists_cons_tl, Exists_cons_hd; reflexivity).
  split; [exact H1|]. split; [exact H2|]. split; [reflexivity|]. split; [exact H3|].
  split; [reflexivity|]. split; [exact H4|]. split.
  - destruct (C4_symlink_rejected sha256_Sum zip_NewReader json_Decode storage ∅
                (upload (archive "symlink")) "upload.zip" entropy tmpPath _ entries_symlink
                H1 H2 eq_refl H3 eq_refl H4) as (e & _ & Hsave & _ & Hfirst & _).
    rewrite Hsave.
    rewrite (Hfirst [regular "manifest.json" json_demo] (symlink "latest" "manifest.json") []
               eq_refl eq_refl); [reflexivity|].
    repeat constructor.
  - split; [exact H5|]. split; [reflexivity|]. split; [exact H6|].
    destruct (C4_symlink_rejected sha256_Sum zip_NewReader json_Decode storage ∅
                (upload (archive "dotdot-then-symlink")) "upload.zip" entropy tmpPath _
                entries_dotdot_then_symlink H1 H2 eq_refl H5 eq_refl H6)
      as (e & _ & Hsave & _ & _ & Hdots).
    rewrite Hsave.
    rewrite (Hdots [regular "docs/../manifest.json" json_demo]
               (symlink "latest" "manifest.json") [] eq_refl eq_refl);
      [reflexivity| |].
    + repeat constructor.
    + apply Exists_cons_hd. reflexivity.
Defined.

(** C5, as stated, on two archives: a manifest that does not decode yields
    an error that is not of kind [ErrInvalidPackage] (nor of any other of
    the four kinds), and a manifest without a version is accepted. *)
Lemma C5_counterexample_parse_error_kind :
  (exists err,
     validate (archive "broken-manifest") = inl err /\
     Is err ErrInvalidPackage = false /\ Is err ErrNoManifest = false /\
     Is err ErrSymlinkDetected = false /\ Is err ErrFileTooLarge = false) /\
  validate (archive "no-version") = inr (manifest "Demo" "demo" "") /\
  Version (manifest "Demo" "demo" "") = "".
Proof.
  split; [|by vm_compute].
  eexists. split; [reflexivity|]. by vm_compute.
Qed.

(** The statement of C5 on the archive whose manifest does not decode. *)
Lemma C5_manifest_parse_witness :
  let fs : OS.FS := {[ tmpPath := archive "broken-manifest" ]} in
  let manifestFile := regular "manifest.json" json_broken in
  zip_OpenReader zip_NewReader fs tmpPath = inr entries_broken_manifest /\
  range_File entries_broken_manifest None = inr (Some manifestFile) /\
  Zip.Open manifestFile = inr (bytes_of json_broken) /\
  json_Decode (bytes_of json_broken) = inl "unexpected end of JSON input" /\
  validatePackage zip_NewReader json_Decode fs tmpPath
    = inl (Errorf_w "parse manifest: " (jsonError "unexpected end of JSON input")).
Proof.
  intros fs manifestFile.
  assert (zip_OpenReader zip_NewReader fs tmpPath = inr entries_broken_manifest) as H1
    by reflexivity.
  assert (range_File entries_broken_manifest None = inr (Some manifestFile)) as H2
    by reflexivity.
  assert (Zip.Open manifestFile = inr (bytes_of json_broken)) as H3 by reflexivity.
  assert (json_Decode (bytes_of json_broken) = inl "unexpected end of JSON input") as H4
    by reflexivity.
  split; [exact H1|]. split; [exact H2|]. split; [exact H3|]. split; [exact H4|].
  exact (proj1 (proj1 (C5_manifest_parse zip_NewReader json_Decode fs tmpPath _ _ _ H1 H2 H3)
                  _ H4)).
Defined.

(** The statement of C8 on an archive with three entries named
    [manifest.json]: at the root, one directory down and two down.  The
    second is read; it is the last that passes the test. *)
Lemma C8_manifest_discovery_witness :
  let fs : OS.FS := {[ tmpPath := archive "two-manifests" ]} in
  zip_OpenReader zip_NewReader fs tmpPath = inr entries_two_manifests /\
  Forall (fun f => isSymlink f = false) entries_two_manifests /\
  Forall (fun f => hasDotDot f = false) entries_two_manifests /\
  last (List.filter isManifest entries_two_manifests)
    = Some (regular "pkg/manifest.json" json_nested) /\
  validatePackage zip_NewReader json_Decode fs tmpPath
    = readManifest json_Decode (regular "pkg/manifest.json" json_nested).
Proof.
  intros fs.
  assert (zip_OpenReader zip_NewReader fs tmpPath = inr entries_two_manifests) as H1
    by reflexivity.
  assert (Forall (fun f => isSymlink f = false) entries_two_manifests) as H2
    by (repeat constructor).
  assert (Forall (fun f => hasDotDot f = false) entries_two_manifests) as H3
    by (repeat constructor).
  split; [exact H1|]. split; [exact H2|]. split; [exact H3|]. split; [reflexivity|].
  exact (proj2 (C8_manifest_discovery zip_NewReader json_Decode fs tmpPath _ H1 H2 H3)).
Defined.

(** The statement of C10 on an archive with an entry [notes..txt]. *)
Lemma C10_dotdot_substring_rejected_witness :
  let fs : OS.FS := {[ tmpPath := archive "dots-in-name" ]} in
  zip_OpenReader zip_NewReader fs tmpPath = inr entries_dots_in_name /\
  Forall (fun f => isSymlink f = false) entries_dots_in_name /\
  Exists (fun f => exists before after, Zip.Name f = before +:+ ".." +:+ after)
    entries_dots_in_name /\
  validatePackage zip_NewReader json_Decode fs tmpPath = inl ErrInvalidPackage.
Proof.
  intros fs.
  assert (zip_OpenReader zip_NewReader fs tmpPath = inr entries_dots_in_name) as H1
    by reflexivity.
  assert (Forall (fun f => isSymlink f = false) entries_dots_in_name) as H2
    by (repeat constructor).
  assert (Exists (fun f => exists before after, Zip.Name f = before +:+ ".." +:+ after)
            entries_dots_in_name) as H3.
  { apply Exists_cons_tl, Exists_cons_hd. by exists "notes", "txt". }
  split; [exact H1|]. split; [exact H2|]. split; [exact H3|].
  exact (proj1 (C10_dotdot_substring_rejected zip_NewReader json_Decode fs tmpPath _ H1 H2 H3)).
Defined.

End ValidatorExamples.

(** ** Deleting an artifact *)

Section DeleteClaims.
Import Errors Service.

(** C6, as stated, on a path with no file, and on a second call for the
    path of a file the first call removed: [Delete] returns the error
    [os.Remove] returns for a file that does not exist. *)
Lemma C6_counterexample_absent_path :
  let path := Fixtures.finalPath in
  let fs : OS.FS := {[ path := Fixtures.archive "demo" ]} in
  (Delete ∅ path).1 = Some (OS.ErrNotExist "remove" path) /\
  (Delete fs path).1 = None /\
  (Delete (Delete fs path).2 path).1 = Some (OS.ErrNotExist "remove" path).
Proof. by vm_compute. Qed.

(** C6 (amended).  [Delete] returns no error and changes nothing on the
    empty path; on the path of a file it removes the file and returns no
    error; on any other path it changes nothing and returns the error of
    [os.Remove].  So a second call changes nothing more, and on a path
    that is not empty it returns that error. *)
Theorem C6_delete_contract (fs : OS.FS) (path : string) :
  Delete fs "" = (None, fs) /\
  (path <> "" -> is_Some (fs !! path) -> Delete fs path = (None, delete path fs)) /\
  (path <> "" -> fs !! path = None ->
     Delete fs path = (Some (OS.ErrNotExist "remove" path), fs)) /\
  (Delete (Delete fs path).2 path).2 = (Delete fs path).2 /\
  (path <> "" ->
     (Delete (Delete fs path).2 path).1 = Some (OS.ErrNotExist "remove" path)).
Proof.
  assert (forall fs0 : OS.FS, path <> "" -> fs0 !! path = None ->
            Delete fs0 path = (Some (OS.ErrNotExist "remove" path), fs0)) as Habsent.
  { intros fs0 Hp H. unfold Delete, OS.Remove.
    rewrite bool_decide_eq_false_2 by done. by rewrite H. }
  assert (path <> "" -> is_Some (fs !! path) -> Delete fs path = (None, delete path fs))
    as Hpresent.
  { intros Hp [data H]. unfold Delete, OS.Remove.
    rewrite bool_decide_eq_false_2 by done. by rewrite H. }
  split; [done|]. split; [done|]. split; [by apply Habsent|].
  destruct (decide (path = "")) as [->|Hp]; [done|].
  destruct (fs !! path) as [data|] eqn:E.
  - rewrite Hpresent by done. simpl.
    rewrite Habsent by (done || apply lookup_delete_eq). done.
  - rewrite (Habsent fs) by done. simpl. rewrite Habsent by done. done.
Qed.

(** The statement of C6 on the path of a stored archive. *)
Lemma C6_delete_contract_witness :
  let path := Fixtures.finalPath in
  let fs : OS.FS := {[ path := Fixtures.archive "demo" ]} in
  path <> "" /\ is_Some (fs !! path) /\
  Delete fs path = (None, ∅) /\
  Delete ∅ path = (Some (OS.ErrNotExist "remove" path), ∅).
Proof.
  intros path fs.
  assert (path <> "") as H1 by (unfold path, Fixtures.finalPath; discriminate).
  assert (is_Some (fs !! path)) as H2 by (eexists; reflexivity).
  split; [exact H1|]. split; [exact H2|]. split.
  - exact (proj1 (proj2 (C6_delete_contract fs path)) H1 H2).
  - exact (proj1 (proj2 (proj2 (C6_delete_contract ∅ path))) H1 eq_refl).
Defined.

End DeleteClaims.

(** ** The upload handler *)

Section HandlerClaims.
Import Errors Service Handler.

Variable sha256_Sum : list byte -> list byte.
Variable zip_NewReader : list byte -> string + list Zip.File.
Variable json_Decode : list byte -> string + SkillManifest.
Variable json_Marshal : list string -> string.
Context {S : Type} `{Scanner.Scanner S}.

(** An accepted upload adds the artifact at the returned path and nothing
    else. *)
Lemma SaveFile_success_adds s (fs : OS.FS) src originalName env path hash manifest fs' src' :
  SaveFile sha256_Sum zip_NewReader json_Decode s fs src originalName env
    = (inr (path, hash, manifest), fs', src') ->
  exists data, fs' = <[path := data]> fs.
Proof.
  intros Hsave.
  destruct (OS.CreateTemp fs (uploadDir s) "upload-*.zip" (tempNames env))
    as [e0|[tmpPath fs1]] eqn:Htmp.
  { unfold SaveFile in Hsave. by rewrite Htmp in Hsave. }
  rewrite (SaveFile_stages _ _ _ _ _ _ _ _ _ _ Htmp) in Hsave.
  destruct (if _ <=? _ then None else IO.failure src); [done|].
  destruct (maxFileSize s <? _); [done|].
  destruct (validatePackage _ _ _ _); [done|].
  injection Hsave as <- <- <- <- <-. by eexists.
Qed.

(** A failed [INSERT] leaves the database as it was. *)
Lemma Create_error_keeps_db db skill e db1 skill' :
  Repository.Create db skill = (Some e, db1, skill') -> db1 = db.
Proof.
  unfold Repository.Create. repeat case_bool_decide; by intros [= <- <-].
Qed.

(** C3.  For a request whose upload was stored at [filePath]: when the
    scanner returns an error, and when it returns a result that is not
    clean, the handler answers alike, with the flagged-content rejection,
    and leaves the same state, in which the artifact is deleted and the
    database is as it was.  When the scan is clean and the insertion
    fails, the handler answers with a conflict and leaves that state too.
    In that state there is no file at [filePath], the files are those
    from before the request (less any file that was at [filePath]), and no
    record has been added. *)
Theorem C3_rejection_rolls_back (storage : StorageService) (sc : S)
    (st : State) (r : Request) (env : Entropy)
    (uid : Z) (file : IO.Reader) (filePath fileHash : string) (manifest : SkillManifest)
    (fs1 : OS.FS) (rest : IO.Reader) :
  userID r = Some uid ->
  parseMultipartForm r = None ->
  formFile r = inr file ->
  SaveFile sha256_Sum zip_NewReader json_Decode storage (files st) file "upload.zip" env
    = (inr (filePath, fileHash, manifest), fs1, rest) ->
  let h := {| Handler.storage := storage; Handler.scanner := sc |} in
  let create := Create sha256_Sum zip_NewReader json_Decode json_Marshal h st r env in
  let rejected := {| files := delete filePath fs1; db := db st |} in
  let flagged := writeJSON StatusBadRequest (ErrorResponse "file flagged by security scan") in
  let conflict :=
    writeJSON StatusConflict (ErrorResponse "skill with this slug already exists") in
  (forall res e, Scanner.Scan sc fs1 filePath = (res, Some e) ->
     create = (flagged, rejected)) /\
  (forall res, Scanner.Scan sc fs1 filePath = (res, None) -> Scanner.Clean res = false ->
     create = (flagged, rejected)) /\
  (forall res e db1 skill',
     Scanner.Scan sc fs1 filePath = (res, None) -> Scanner.Clean res = true ->
     Repository.Create (db st)
       (newSkill manifest uid filePath fileHash "clean" (json_Marshal (Tags manifest)))
       = (Some e, db1, skill') ->
     create = (conflict, rejected)) /\
  files rejected !! filePath = None /\
  files rejected = delete filePath (files st) /\
  db rejected = db st.
Proof.
  intros Huid Hform Hfile Hsave h create rejected flagged conflict.
  assert (filePath <> "") as Hpath.
  { destruct (OS.CreateTemp (files st) (uploadDir storage) "upload-*.zip" (tempNames env))
      as [e0|[tmpPath fs0]] eqn:Htmp.
    { unfold SaveFile in Hsave. by rewrite Htmp in Hsave. }
    rewrite (SaveFile_stages _ _ _ _ _ _ _ _ _ _ Htmp) in Hsave.
    destruct (if _ <=? _ then None else IO.failure file); [done|].
    destruct (maxFileSize storage <? _); [done|].
    destruct (validatePackage _ _ _ _); [done|].
    injection Hsave as <- _ _ _ _. apply Join_nonempty, zip_name_nonempty. }
  destruct (SaveFile_success_adds _ _ _ _ _ _ _ _ _ _ Hsave) as [data Hfs1].
  assert ((Service.Delete fs1 filePath).2 = delete filePath fs1) as Hdel.
  { unfold Service.Delete, OS.Remove. rewrite bool_decide_eq_false_2 by done.
    by rewrite Hfs1, lookup_insert_eq. }
  assert (forall res err,
    Scanner.Scan sc fs1 filePath = (res, err) ->
    bool_decide (err <> None) || negb (Scanner.Clean res) = true ->
    create = (flagged, rejected)) as Hflag.
  { intros res err Hscan Hbad. unfold create, Create, h.
    rewrite Huid, Hform, Hfile. cbn [Handler.storage Handler.scanner].
    rewrite Hsave, Hscan, Hbad. by rewrite Hdel. }
  split; [|split; [|split; [|split; [|split]]]].
  - intros res e Hscan. by apply (Hflag res (Some e)).
  - intros res Hscan Hclean. apply (Hflag res None Hscan). by rewrite Hclean.
  - intros res e db1 skill' Hscan Hclean Hins. unfold create, Create, h.
    rewrite Huid, Hform, Hfile. cbn [Handler.storage Handler.scanner].
    rewrite Hsave, Hscan, Hclean. cbn [negb orb bool_decide decide_rel].
    rewrite bool_decide_eq_false_2 by (by intros []).
    cbn [orb]. rewrite Hins, Hdel.
    by rewrite (Create_error_keeps_db _ _ _ _ _ Hins).
  - apply lookup_delete_eq.
  - simpl. by rewrite Hfs1, delete_insert_eq.
  - done.
Qed.

End HandlerClaims.

Section HandlerExamples.
Import Errors Service Handler Fixtures.

(** The statement of C3 on the sample archive: a scanner that fails, one
    that flags, and a database in which the slug is taken. *)
Lemma C3_rejection_rolls_back_witness :
  let st := {| files := ∅; db := db_demo_taken |} in
  let r := request (archive "demo") in
  let create (sc : StubScanner) :=
    Create sha256_Sum zip_NewReader json_Decode
      json_Marshal
      {| Handler.storage := Fixtures.storage; Handler.scanner := sc |}
      st r entropy in
  let flagged :=
    writeJSON 400 (ErrorResponse "file flagged by security scan") in
  SaveFile sha256_Sum zip_NewReader json_Decode
      Fixtures.storage ∅ (upload (archive "demo")) "upload.zip"
      entropy
    = (inr (finalPath, "6f6d6564", manifest "Demo" "demo" "1.0.0"),
       {[ finalPath := archive "demo" ]}, upload []) /\
  create AlwaysFail = (flagged, st) /\
  create AlwaysFlag = (flagged, st) /\
  create AlwaysClean
    = (writeJSON 409 (ErrorResponse "skill with this slug already exists"),
       st).
Proof.
  intros st r create flagged.
  assert (SaveFile sha256_Sum zip_NewReader json_Decode
            Fixtures.storage ∅ (upload (archive "demo")) "upload.zip"
            entropy
          = (inr (finalPath, "6f6d6564", manifest "Demo" "demo" "1.0.0"),
             {[ finalPath := archive "demo" ]}, upload []))
    as Hsave by reflexivity.
  split; [exact Hsave|].
  pose proof (fun sc =>
    C3_rejection_rolls_back sha256_Sum zip_NewReader json_Decode
      json_Marshal Fixtures.storage sc st r entropy 1 _ _ _ _ _ _
      eq_refl eq_refl eq_refl Hsave) as Hc3.
  split; [|split].
  - exact (proj1 (Hc3 AlwaysFail) _ _ eq_refl).
  - exact (proj1 (proj2 (Hc3 AlwaysFlag)) _ eq_refl eq_refl).
  - exact (proj1 (proj2 (proj2 (Hc3 AlwaysClean))) _ _ _ _ eq_refl eq_refl eq_refl).
Defined.

End HandlerExamples.

(** ** The rate limiter under concurrent calls *)

Section ConcurrentFacts.
Import Middleware Concurrent.

Lemma tally_insert f (l : list pc) i p q :
  l !! i = Some p ->
  (tally f (<[i := q]> l) + b2n (f p) = tally f l + b2n (f q))%nat.
Proof.
  revert i. induction l as [|x l IH]; intros [|i] H; simpl in *; try done.
  - injection H as ->. unfold b2n. lia.
  - specialize (IH i H). lia.
Qed.

Lemma tally_le_length f (l : list pc) : (tally f l <= length l)%nat.
Proof. induction l as [|x l IH]; simpl; [done|]. destruct (f x); lia. Qed.

Lemma tally_lt_length f (l : list pc) i p :
  l !! i = Some p -> f p = false -> (tally f l < length l)%nat.
Proof.
  revert i. induction l as [|x l IH]; intros [|i] H Hp; simpl in *; try done.
  - injection H as ->. rewrite Hp. pose proof (tally_le_length f l). lia.
  - specialize (IH i H Hp). destruct (f x); lia.
Qed.

Lemma tally_pos f (l : list pc) i p :
  l !! i = Some p -> f p = true -> (0 < tally f l)%nat.
Proof.
  revert i. induction l as [|x l IH]; intros [|i] H Hp; simpl in *; try done.
  - injection H as ->. rewrite Hp. lia.
  - specialize (IH i H Hp). lia.
Qed.

Lemma tally_two f (l : list pc) i j p q :
  i <> j -> l !! i = Some p -> f p = true -> l !! j = Some q -> f q = true ->
  (2 <= tally f l)%nat.
Proof.
  revert i j. induction l as [|x l IH]; intros [|i] [|j] Hne Hi Hp Hj Hq;
    simpl in *; try done.
  - injection Hi as ->. rewrite Hp. pose proof (tally_pos f l j q Hj Hq). lia.
  - injection Hj as ->. rewrite Hq. pose proof (tally_pos f l i p Hi Hp). lia.
  - assert (i <> j) as Hne' by congruence.
    specialize (IH i j Hne' Hi Hp Hj Hq). lia.
Qed.

Lemma tally_zero f (l : list pc) i p :
  tally f l = 0%nat -> l !! i = Some p -> f p = false.
Proof.
  intros H0 Hi. destruct (f p) eqn:E; [|done].
  pose proof (tally_pos f l i p Hi E). lia.
Qed.

Lemma tally_all f (l : list pc) :
  Forall (fun p => f p = true) l -> tally f l = length l.
Proof. induction 1 as [|x l Hx _ IH]; simpl; [done|]. rewrite Hx, IH. done. Qed.

Lemma tally_ext f g (l : list pc) :
  Forall (fun p => f p = g p) l -> tally f l = tally g l.
Proof. induction 1 as [|x l Hx _ IH]; simpl; [done|]. by rewrite Hx, IH. Qed.

Lemma tally_replicate f n p : f p = false -> tally f (replicate n p) = 0%nat.
Proof. intros H. induction n as [|n IH]; simpl; [done|]. by rewrite H, IH. Qed.

Lemma exec1_clock key s a s' : exec1 key s a = Some s' -> clock s <= clock s'.
Proof.
  destruct a as [d|i|]; simpl.
  - destruct (Z.leb_spec 0 d); [|done]. intros [= <-]. simpl. lia.
  - unfold run_goroutine. destruct (pcs s !! i) as [[| | |v|b|b]|]; try done.
    + destruct (mu s); [done|]. by intros [= <-].
    + by intros [= <-].
    + by intros [= <-].
    + by intros [= <-].
    + by intros [= <-].
  - unfold run_sweeper. destruct (sweeping s); [by intros [= <-]|].
    destruct (mu s); [done|]. by intros [= <-].
Qed.

Lemma exec_clock key schedule s s' : exec key s schedule = Some s' -> clock s <= clock s'.
Proof.
  revert s. induction schedule as [|a rest IH]; intros s; simpl.
  - by intros [= <-].
  - destruct (exec1 key s a) as [s1|] eqn:E; [|done]. intros H.
    apply exec1_clock in E. apply IH in H. lia.
Qed.

Section Invariant.

Variables (n : nat) (key : string) (lo w : Z).
Hypothesis no_overflow : 2 * Z.of_nat n <= GoInt.max_int.

Lemma Inv_alone s i p :
  Inv n key lo w s -> pcs s !! i = Some p -> inside p = true ->
  forall j q, j <> i -> pcs s !! j = Some q -> inside q = false.
Proof.
  intros HI Hi Hp j q Hne Hj. destruct (inside q) eqn:Hq; [|done].
  pose proof (tally_two inside _ j i q p Hne Hj Hq Hi Hp) as H2.
  rewrite (inv_inside _ _ _ _ _ HI) in H2. unfold holders in H2. repeat case_match; lia.
Qed.

Lemma Inv_holder s i p :
  Inv n key lo w s -> pcs s !! i = Some p -> inside p = true ->
  exists g, mu s = Some (Goroutine g).
Proof.
  intros HI Hi Hp. pose proof (tally_pos inside _ i p Hi Hp) as H.
  rewrite (inv_inside _ _ _ _ _ HI) in H. unfold holders in H.
  destruct (mu s) as [[g|]|]; [by exists g | lia | lia].
Qed.

Lemma Inv_nobody s :
  Inv n key lo w s -> holders (mu s) = 0%nat ->
  forall j q, pcs s !! j = Some q -> inside q = false.
Proof.
  intros HI H0 j q Hj. apply (tally_zero inside (pcs s) j); [|done].
  by rewrite (inv_inside _ _ _ _ _ HI).
Qed.

(** A step of a goroutine that stays on its side of the critical section
    and of the commit, and leaves the limiter alone, keeps the invariant. *)
Lemma Inv_set_pc s i p q :
  Inv n key lo w s -> pcs s !! i = Some p ->
  inside q = inside p -> committed q = committed p -> counted q = counted p ->
  (q = Fresh -> tally committed (pcs s) = 0%nat) ->
  (forall v, q = Live v -> visitors (shared s) !! key = Some v) ->
  Inv n key lo w (set_pc s i q).
Proof.
  intros HI Hi Hin Hco Hcn Hfresh Hlive.
  pose proof (tally_insert inside _ i p q Hi) as T1.
  pose proof (tally_insert committed _ i p q Hi) as T2.
  pose proof (tally_insert counted _ i p q Hi) as T3.
  rewrite Hin in T1. rewrite Hco in T2. rewrite Hcn in T3.
  assert (tally committed (<[i:=q]> (pcs s)) = tally committed (pcs s)) as E2 by lia.
  destruct HI. constructor; simpl; try done.
  - by rewrite length_insert.
  - lia.
  - by rewrite E2.
  - by rewrite E2.
  - rewrite E2. lia.
  - intros j Hj. rewrite E2. destruct (decide (j = i)) as [->|Hne].
    + rewrite list_lookup_insert_eq in Hj by (by eapply lookup_lt_Some).
      injection Hj as ->. by apply Hfresh.
    + rewrite list_lookup_insert_ne in Hj by done. by eapply inv_fresh0.
  - intros j v Hj. destruct (decide (j = i)) as [->|Hne].
    + rewrite list_lookup_insert_eq in Hj by (by eapply lookup_lt_Some).
      injection Hj as ->. by apply Hlive.
    + rewrite list_lookup_insert_ne in Hj by done. by eapply inv_live0.
Qed.

Lemma Inv_lock s i :
  Inv n key lo w s -> pcs s !! i = Some Start -> mu s = None ->
  Inv n key lo w (set_pc (set_mu s (Some (Goroutine i))) i Locked).
Proof.
  intros HI Hi Hmu.
  pose proof (tally_insert inside _ i _ Locked Hi) as T1.
  pose proof (tally_insert committed _ i _ Locked Hi) as T2.
  pose proof (tally_insert counted _ i _ Locked Hi) as T3.
  simpl in T1, T2, T3.
  assert (tally committed (<[i:=Locked]> (pcs s)) = tally committed (pcs s)) as E2 by lia.
  destruct HI. rewrite Hmu in *. simpl in *.
  constructor; simpl; try done.
  - by rewrite length_insert.
  - lia.
  - split; [|done]. intros H. by apply inv_sweeping0 in H.
  - by rewrite E2.
  - by rewrite E2.
  - rewrite E2. lia.
  - intros j Hj. rewrite E2. destruct (decide (j = i)) as [->|Hne].
    + rewrite list_lookup_insert_eq in Hj by (by eapply lookup_lt_Some). done.
    + rewrite list_lookup_insert_ne in Hj by done. by eapply inv_fresh0.
  - intros j v Hj. destruct (decide (j = i)) as [->|Hne].
    + rewrite list_lookup_insert_eq in Hj by (by eapply lookup_lt_Some). done.
    + rewrite list_lookup_insert_ne in Hj by done. by eapply inv_live0.
Qed.

Lemma Inv_test s i :
  Inv n key lo w s -> pcs s !! i = Some Locked -> clock s <= lo + w ->
  Inv n key lo w
    (set_pc s i
       match visitors (shared s) !! key with
       | Some v => if Time.After (clock s) (resetAt v) then Fresh else Live v
       | None => Fresh
       end).
Proof.
  intros HI Hi Hclock.
  assert (forall v, visitors (shared s) !! key = Some v ->
            Time.After (clock s) (resetAt v) = false) as Hdue.
  { intros v Hv. destruct (decide (tally committed (pcs s) = 0%nat)) as [H0|H0].
    - apply (inv_none _ _ _ _ _ HI) in H0. congruence.
    - apply (inv_some _ _ _ _ _ HI) in H0 as (r & Hr & Hlo).
      rewrite Hv in Hr. injection Hr as ->. unfold Time.After. simpl.
      apply Z.ltb_ge. lia. }
  destruct (visitors (shared s) !! key) as [v|] eqn:Hv.
  - rewrite (Hdue v eq_refl). apply (Inv_set_pc s i Locked); try done.
    by intros v' [= <-].
  - apply (Inv_set_pc s i Locked); try done.
    intros _. destruct (decide (tally committed (pcs s) = 0%nat)) as [H0|H0]; [done|].
    apply (inv_some _ _ _ _ _ HI) in H0 as (r & Hr & _). congruence.
Qed.

Lemma Inv_install s i :
  Inv n key lo w s -> pcs s !! i = Some Fresh ->
  Inv n key lo w
    (set_pc (set_window s key
               {| count := 1; resetAt := Time.Add (clock s) (window (shared s)) |})
            i (Unlocking true)).
Proof.
  intros HI Hi.
  pose proof (tally_insert inside _ i _ (Unlocking true) Hi) as T1.
  pose proof (tally_insert committed _ i _ (Unlocking true) Hi) as T2.
  pose proof (tally_insert counted _ i _ (Unlocking true) Hi) as T3.
  simpl in T1, T2, T3.
  pose proof (Inv_alone s i Fresh HI Hi eq_refl) as Halone.
  pose proof (lookup_lt_Some _ _ _ Hi) as Hlt.
  destruct HI. specialize (inv_fresh0 i Hi). rewrite inv_fresh0 in *.
  assert (tally committed (<[i:=Unlocking true]> (pcs s)) = 1%nat) as E2 by lia.
  constructor; simpl; try done.
  - by rewrite length_insert.
  - lia.
  - rewrite E2. done.
  - rewrite E2. intros _. eexists. rewrite lookup_insert_eq. split; [done|].
    unfold Time.Add. lia.
  - rewrite E2. lia.
  - intros j Hj. destruct (decide (j = i)) as [->|Hne].
    + rewrite list_lookup_insert_eq in Hj by done. done.
    + rewrite list_lookup_insert_ne in Hj by done. by specialize (Halone j _ Hne Hj).
  - intros j v Hj. destruct (decide (j = i)) as [->|Hne].
    + rewrite list_lookup_insert_eq in Hj by done. done.
    + rewrite list_lookup_insert_ne in Hj by done. by specialize (Halone j _ Hne Hj).
Qed.

Lemma Inv_count s i v :
  Inv n key lo w s -> pcs s !! i = Some (Live v) ->
  let v' := {| count := GoInt.wrap (count v + 1); resetAt := resetAt v |} in
  Inv n key lo w
    (set_pc (set_window s key v') i (Unlocking (count v' <=? limit (shared s)))).
Proof.
  intros HI Hi v'.
  remember (count v' <=? limit (shared s)) as b eqn:Hb.
  pose proof (tally_insert inside _ i _ (Unlocking b) Hi) as T1.
  pose proof (tally_insert committed _ i _ (Unlocking b) Hi) as T2.
  pose proof (tally_insert counted _ i _ (Unlocking b) Hi) as T3.
  simpl in T1, T2. change (b2n (counted (Live v))) with 0%nat in T3.
  pose proof (Inv_alone s i _ HI Hi eq_refl) as Halone.
  pose proof (lookup_lt_Some _ _ _ Hi) as Hlt.
  pose proof (tally_lt_length committed _ i _ Hi eq_refl) as Hd.
  pose proof (inv_live _ _ _ _ _ HI i v Hi) as Hv.
  destruct (decide (tally committed (pcs s) = 0%nat)) as [H0|H0].
  { apply (inv_none _ _ _ _ _ HI) in H0. congruence. }
  destruct (inv_some _ _ _ _ _ HI H0) as (r & Hr & Hlo).
  rewrite Hv in Hr. injection Hr as ->.
  destruct HI. rewrite inv_length0 in Hd.
  assert (count v' = Z.of_nat (tally committed (pcs s)) + 1) as Hcount.
  { unfold v'. simpl. apply wrap_id.
    unfold GoInt.in_range, GoInt.min_int, GoInt.max_int in *. lia. }
  assert (tally committed (<[i:=Unlocking b]> (pcs s)) = S (tally committed (pcs s)))
    as E2 by lia.
  assert (b2n (counted (Unlocking b)) = b2n b) as Eb by (by destruct b).
  rewrite Hcount, inv_limit0 in Hb. rewrite Eb in T3. clear Eb.
  constructor; simpl; try done.
  - by rewrite length_insert.
  - lia.
  - rewrite E2. done.
  - rewrite E2. intros _. exists r. rewrite lookup_insert_eq. split; [|done].
    unfold v' in *. simpl in *. rewrite Hcount. do 2 f_equal. lia.
  - rewrite E2. unfold b2n in T3.
    destruct b; symmetry in Hb; [apply Z.leb_le in Hb | apply Z.leb_gt in Hb]; lia.
  - intros j Hj. destruct (decide (j = i)) as [->|Hne].
    + rewrite list_lookup_insert_eq in Hj by done. done.
    + rewrite list_lookup_insert_ne in Hj by done. by specialize (Halone j _ Hne Hj).
  - intros j u Hj. destruct (decide (j = i)) as [->|Hne].
    + rewrite list_lookup_insert_eq in Hj by done. done.
    + rewrite list_lookup_insert_ne in Hj by done. by specialize (Halone j _ Hne Hj).
Qed.

Lemma Inv_unlock s i b :
  Inv n key lo w s -> pcs s !! i = Some (Unlocking b) ->
  Inv n key lo w (set_pc (set_mu s None) i (Done b)).
Proof.
  intros HI Hi.
  pose proof (tally_insert inside _ i _ (Done b) Hi) as T1.
  pose proof (tally_insert committed _ i _ (Done b) Hi) as T2.
  pose proof (tally_insert counted _ i _ (Done b) Hi) as T3.
  simpl in T1, T2. change (counted (Done b)) with (counted (Unlocking b)) in T3.
  pose proof (Inv_alone s i _ HI Hi eq_refl) as Halone.
  destruct (Inv_holder s i _ HI Hi eq_refl) as [g Hg].
  pose proof (lookup_lt_Some _ _ _ Hi) as Hlt.
  assert (tally committed (<[i:=Done b]> (pcs s)) = tally committed (pcs s)) as E2 by lia.
  destruct HI. rewrite Hg in *. simpl in *.
  constructor; simpl; try done.
  - by rewrite length_insert.
  - unfold b2n in T1. lia.
  - split; [|done]. intros H. by apply inv_sweeping0 in H.
  - by rewrite E2.
  - by rewrite E2.
  - rewrite E2. lia.
  - intros j Hj. destruct (decide (j = i)) as [->|Hne].
    + rewrite list_lookup_insert_eq in Hj by done. done.
    + rewrite list_lookup_insert_ne in Hj by done. by specialize (Halone j _ Hne Hj).
  - intros j u Hj. destruct (decide (j = i)) as [->|Hne].
    + rewrite list_lookup_insert_eq in Hj by done. done.
    + rewrite list_lookup_insert_ne in Hj by done. by specialize (Halone j _ Hne Hj).
Qed.

Lemma Inv_sweeper s s' :
  Inv n key lo w s -> run_sweeper s = Some s' -> clock s <= lo + w ->
  Inv n key lo w s'.
Proof.
  intros HI Hrun Hclock. unfold run_sweeper in Hrun.
  destruct (sweeping s) eqn:Hsw.
  - injection Hrun as <-.
    assert (mu s = Some Sweeper) as Hmu by (by apply (inv_sweeping _ _ _ _ _ HI)).
    pose proof (Inv_nobody s HI) as Hnobody. rewrite Hmu in Hnobody.
    specialize (Hnobody eq_refl).
    destruct HI. rewrite Hmu in *. simpl in *.
    constructor; simpl; try done.
    + intros H0. apply map_lookup_filter_None. left. by apply inv_none0.
    + intros H0. destruct (inv_some0 H0) as (r & Hr & Hlo). exists r. split; [|done].
      apply map_lookup_filter_Some. split; [done|]. simpl.
      unfold Time.After. apply Z.ltb_ge. lia.
    + intros j v Hj. by specialize (Hnobody j _ Hj).
  - destruct (mu s) eqn:Hmu; [done|]. injection Hrun as <-.
    destruct HI. rewrite Hmu in *. simpl in *.
    constructor; simpl; done.
Qed.

(** Every step that can be taken before the clock passes [lo + w] keeps
    the invariant. *)
Lemma Inv_exec1 s a s' :
  Inv n key lo w s -> exec1 key s a = Some s' -> clock s' <= lo + w ->
  Inv n key lo w s'.
Proof.
  intros HI Hstep Hclock. pose proof (exec1_clock _ _ _ _ Hstep) as Hmono.
  destruct a as [d|i|]; simpl in Hstep.
  - destruct (Z.leb_spec 0 d); [|done]. injection Hstep as <-.
    destruct HI. constructor; simpl in *; try done. lia.
  - unfold run_goroutine in Hstep.
    destruct (pcs s !! i) as [[| | |v|b|b]|] eqn:Hi; try done.
    + destruct (mu s) eqn:Hmu; [done|]. injection Hstep as <-. by apply Inv_lock.
    + injection Hstep as <-. apply Inv_test; [done|done|]. simpl in *. lia.
    + injection Hstep as <-. by apply Inv_install.
    + injection Hstep as <-. by apply Inv_count.
    + injection Hstep as <-. by apply Inv_unlock.
  - apply (Inv_sweeper s); [done|done|lia].
Qed.

Lemma Inv_exec schedule s s' :
  Inv n key lo w s -> exec key s schedule = Some s' -> clock s' <= lo + w ->
  Inv n key lo w s'.
Proof.
  revert s. induction schedule as [|a rest IH]; intros s HI; simpl.
  - by intros [= <-].
  - destruct (exec1 key s a) as [s1|] eqn:E; [|done]. intros Hrest Hclock.
    apply (IH s1); [|done|done].
    apply (Inv_exec1 s a); [done|done|].
    apply exec_clock in Hrest. lia.
Qed.

Lemma Inv_initial rl t0 :
  limit rl = Z.of_nat n -> visitors rl !! key = None ->
  Inv n key t0 (window rl) (initial rl (2 * n) t0).
Proof.
  intros Hlim Hkey. unfold initial.
  constructor; simpl; try done.
  - by rewrite length_replicate.
  - by rewrite tally_replicate.
  - by rewrite tally_replicate.
  - by rewrite !tally_replicate.
  - intros i Hi. apply lookup_replicate in Hi as [? _]. done.
  - intros i v Hi. apply lookup_replicate in Hi as [? _]. done.
Qed.

End Invariant.

Lemma tally_mono f g (l : list pc) :
  (forall p, f p = true -> g p = true) -> (tally f l <= tally g l)%nat.
Proof.
  intros H. induction l as [|x l IH]; simpl; [done|].
  destruct (f x) eqn:E; [rewrite (H x E); lia | destruct (g x); lia].
Qed.

Lemma tally_split f g h (l : list pc) :
  (forall p, (b2n (f p) + b2n (g p) = b2n (h p))%nat) ->
  (tally f l + tally g l = tally h l)%nat.
Proof.
  intros H. induction l as [|x l IH]; simpl; [done|].
  specialize (H x). unfold b2n in H. destruct (f x), (g x), (h x); lia.
Qed.

(** A goroutine that finds the mutex free runs through its call. *)
Lemma one_call_returns key s i :
  pcs s !! i = Some Start -> mu s = None ->
  exists sh b,
    exec key s (one_call i)
      = Some {| shared := sh; mu := None; pcs := <[i := Done b]> (pcs s);
                sweeping := sweeping s; clock := clock s |}.
Proof.
  intros Hi Hmu. pose proof (lookup_lt_Some _ _ _ Hi) as Hlt.
  unfold one_call, exec, exec1, run_goroutine. rewrite Hi, Hmu. simpl.
  rewrite list_lookup_insert_eq by done.
  destruct (visitors (shared s) !! key) as [v|]; [destruct (Time.After _ _)|]; simpl;
    rewrite list_lookup_insert_eq by (by rewrite length_insert); simpl;
    rewrite list_lookup_insert_eq by (by rewrite !length_insert); simpl;
    unfold set_pc, set_mu, set_window; simpl;
    rewrite !list_insert_insert_eq; by eexists _, _.
Qed.

(** Some schedule lets every call of a burst return without the clock
    moving: the one that runs the goroutines in turn. *)
Lemma in_turn_returns key calls first s :
  mu s = None ->
  length (pcs s) = (first + calls)%nat ->
  (forall i, (first <= i < first + calls)%nat -> pcs s !! i = Some Start) ->
  (forall i p, (i < first)%nat -> pcs s !! i = Some p -> returned p = true) ->
  exists s',
    exec key s (in_turn first calls) = Some s' /\
    Forall (fun p => returned p = true) (pcs s') /\ clock s' = clock s.
Proof.
  revert first s. induction calls as [|calls IH]; intros first s Hmu Hlen Hstart Hdone.
  - exists s. split; [done|]. split; [|done].
    apply Forall_lookup. intros i p Hi. apply (Hdone i p); [|done].
    apply lookup_lt_Some in Hi. lia.
  - destruct (one_call_returns key s first (Hstart first ltac:(lia)) Hmu) as (sh & b & Hcall).
    set (s1 := {| shared := sh; mu := None; pcs := <[first := Done b]> (pcs s);
                  sweeping := sweeping s; clock := clock s |}) in *.
    destruct (IH (S first) s1) as (s' & Hexec & Hall & Hclock).
    + done.
    + simpl. rewrite length_insert. lia.
    + intros i Hi. simpl. rewrite list_lookup_insert_ne by lia. apply Hstart. lia.
    + intros i p Hi Hp. simpl in Hp. destruct (decide (i = first)) as [->|Hne].
      * rewrite list_lookup_insert_eq in Hp by lia. by injection Hp as <-.
      * rewrite list_lookup_insert_ne in Hp by done. apply (Hdone i p); [lia|done].
    + exists s'. split; [|done].
      change (in_turn first (S calls)) with (one_call first ++ in_turn (S first) calls).
      clear -Hcall Hexec. unfold one_call in *. simpl in *.
      repeat (destruct (run_goroutine _ _ _); [|done]). by injection Hcall as ->.
Qed.

(** So every burst has a run in which all its calls return within one
    window, whatever the limit (for a window duration that is not
    negative). *)
Lemma burst_can_complete key (rl : rateLimiter) (calls : nat) (t0 : Z) :
  0 <= window rl ->
  exists s',
    exec key (initial rl calls t0) (in_turn 0 calls) = Some s' /\
    Forall (fun p => returned p = true) (pcs s') /\
    clock s' <= t0 + window rl.
Proof.
  intros Hw.
  destruct (in_turn_returns key calls 0 (initial rl calls t0)) as (s' & Hexec & Hall & Hclock).
  - done.
  - simpl. by rewrite length_replicate.
  - intros i Hi. simpl. apply lookup_replicate. split; [done|lia].
  - intros i p Hi. lia.
  - exists s'. split; [done|]. split; [done|]. rewrite Hclock. simpl. lia.
Qed.

(** C9 (amended).  A burst of [2 * n] goroutines calling [allow] for a key
    that has no window, on a limiter of limit [n], next to the [cleanup]
    goroutine, under any schedule in which the clock does not pass the
    start of the burst by more than the window duration (and with [2 * n]
    within the range of [int]).  In every state the schedule reaches, at
    most one goroutine is between [Lock] and [Unlock], and at most [n]
    calls have returned true; once all have returned, exactly [n] have
    returned true and exactly [n] false. *)
Theorem C9_burst_admits_exactly_limit (n : nat) (key : string) (rl : rateLimiter)
    (t0 : Z) (schedule : list action) (s' : state) :
  2 * Z.of_nat n <= GoInt.max_int ->
  limit rl = Z.of_nat n ->
  visitors rl !! key = None ->
  exec key (initial rl (2 * n) t0) schedule = Some s' ->
  clock s' <= t0 + window rl ->
  (tally inside (pcs s') <= 1)%nat /\
  (admissions s' <= n)%nat /\
  (Forall (fun p => returned p = true) (pcs s') ->
     admissions s' = n /\ denials s' = n).
Proof.
  intros Hn Hlim Hkey Hexec Hclock.
  pose proof (Inv_exec n key t0 (window rl) Hn schedule _ _
                (Inv_initial n key rl t0 Hlim Hkey) Hexec Hclock) as HI.
  destruct HI. unfold admissions, denials.
  assert (tally admitted (pcs s') <= tally counted (pcs s'))%nat as Hle.
  { apply tally_mono. by intros [| | |v|[]|[]]. }
  split; [|split].
  - rewrite inv_inside0. unfold holders. repeat case_match; lia.
  - lia.
  - intros Hall.
    assert (tally committed (pcs s') = length (pcs s')) as Hcom.
    { apply tally_all. eapply Forall_impl; [exact Hall|]. by intros [| | |v|b|b]. }
    assert (tally admitted (pcs s') = tally counted (pcs s')) as Hadm.
    { apply tally_ext. eapply Forall_impl; [exact Hall|]. by intros [| | |v|b|b]. }
    assert (tally returned (pcs s') = length (pcs s')) as Hret by (by apply tally_all).
    assert (tally admitted (pcs s') + tally denied (pcs s') = tally returned (pcs s'))%nat
      as Hsplit by (apply tally_split; by intros [| | |v|[]|[]]).
    lia.
Qed.

End ConcurrentFacts.

Section ConcurrentExamples.
Import Middleware Concurrent.

(** The statement of C9 for limit 2: four goroutines, interleaved with the
    clock and with the sweeper.  The first two to take the mutex are
    admitted, the other two are refused. *)
Lemma C9_burst_admits_exactly_limit_witness :
  let rl := newRateLimiter 2 1000 in
  let schedule :=
    [ Run 2; Tick 10; Run 2; Run 2; Tick 5; Run 2;
      RunSweeper; Tick 100; RunSweeper;
      Run 0; Run 0; Run 0; Tick 1; Run 0;
      Run 3; Run 3; Tick 800; Run 3; Run 3;
      Run 1; Run 1; Run 1; Run 1 ] in
  let final :=
    {| shared := mkRateLimiter {[ "10.0.0.1" := mkVisitor 4 1010 ]} 2 1000;
       mu := None;
       pcs := [Done true; Done false; Done true; Done false];
       sweeping := false;
       clock := 916 |} in
  2 * Z.of_nat 2 <= GoInt.max_int /\
  limit rl = Z.of_nat 2 /\
  visitors rl !! "10.0.0.1" = None /\
  exec "10.0.0.1" (initial rl (2 * 2) 0) schedule = Some final /\
  clock final <= 0 + window rl /\
  Forall (fun p => returned p = true) (pcs final) /\
  admissions final = 2%nat /\ denials final = 2%nat.
Proof.
  intros rl schedule final.
  assert (2 * Z.of_nat 2 <= GoInt.max_int) as H1 by (vm_compute; congruence).
  assert (limit rl = Z.of_nat 2) as H2 by reflexivity.
  assert (visitors rl !! "10.0.0.1" = None) as H3 by reflexivity.
  assert (exec "10.0.0.1" (initial rl (2 * 2) 0) schedule = Some final) as H4
    by (vm_compute; reflexivity).
  assert (clock final <= 0 + window rl) as H5 by (vm_compute; congruence).
  assert (Forall (fun p => returned p = true) (pcs final)) as H6 by (repeat constructor).
  split; [exact H1|]. split; [exact H2|]. split; [exact H3|]. split; [exact H4|].
  split; [exact H5|]. split; [exact H6|].
  exact (proj2 (proj2 (C9_burst_admits_exactly_limit 2 "10.0.0.1" rl 0 schedule final
                         H1 H2 H3 H4 H5)) H6).
Defined.

(** C9, as stated, at limit 1 with a window of 1000: of two goroutines
    started together, the second is scheduled after the reset time of the
    window the first one opened; it opens a window of its own, and both
    calls are admitted. *)
Lemma C9_counterexample_burst_across_windows :
  let rl := newRateLimiter 1 1000 in
  let schedule := one_call 0 ++ [Tick 2000] ++ one_call 1 in
  limit rl = 1 /\ visitors rl !! "10.0.0.1" = None /\
  exists s',
    exec "10.0.0.1" (initial rl (2 * 1) 0) schedule = Some s' /\
    pcs s' = [Done true; Done true] /\
    admissions s' = 2%nat /\ denials s' = 0%nat.
Proof.
  split; [done|]. split; [done|].
  eexists. split; [by vm_compute|]. by vm_compute.
Qed.

End ConcurrentExamples.

(** * Further properties *)

(** ** The rate limiter: sweeping, keys, limits below one *)

Section RateLimiterMore.
Import Middleware.

(** X1.  [cleanup] is invisible to [allow]: a sweep removes exactly the
    windows whose reset time has passed at its clock reading and keeps the
    others as they are; and a later call of [allow] (one whose clock
    reading is not before the sweep's) returns the same result and leaves
    the same window for its key as it would have without the sweep. *)
Theorem X1_sweep_invisible_to_allow (rl : rateLimiter) (now : string -> Z)
    (key : string) (t : ticks) :
  now key <= t_check t ->
  (allow (sweep rl now) key t).1 = (allow rl key t).1 /\
  visitors (allow (sweep rl now) key t).2 !! key = visitors (allow rl key t).2 !! key /\
  (forall k v, visitors rl !! k = Some v -> now k <= resetAt v ->
     visitors (sweep rl now) !! k = Some v) /\
  (forall k v, visitors rl !! k = Some v -> resetAt v < now k ->
     visitors (sweep rl now) !! k = None) /\
  limit (sweep rl now) = limit rl /\ window (sweep rl now) = window rl.
Proof.
  intros Hlater.
  assert (forall k v, visitors rl !! k = Some v -> now k <= resetAt v ->
            visitors (sweep rl now) !! k = Some v) as Hkeep.
  { intros k v Hv Hlive. unfold sweep. simpl. apply map_lookup_filter_Some.
    split; [done|]. simpl. unfold Time.After. apply Z.ltb_ge. lia. }
  assert (forall k v, visitors rl !! k = Some v -> resetAt v < now k ->
            visitors (sweep rl now) !! k = None) as Hdrop.
  { intros k v Hv Hdue. unfold sweep. simpl. apply map_lookup_filter_None.
    right. intros v' Hv'. rewrite Hv in Hv'. injection Hv' as <-. simpl.
    unfold Time.After. intros H. apply Z.ltb_ge in H. lia. }
  assert (visitors rl !! key = None -> visitors (sweep rl now) !! key = None) as Hnone.
  { intros Hv. unfold sweep. simpl. apply map_lookup_filter_None. by left. }
  assert (forall v, visitors rl !! key = Some v -> resetAt v < now key ->
            Time.After (t_check t) (resetAt v) = true) as Hafter.
  { intros v _ Hdue. unfold Time.After. apply Z.ltb_lt. lia. }
  split; [|split; [|done]].
  - unfold allow at 1 2.
    destruct (visitors rl !! key) as [v|] eqn:Hv.
    + destruct (Z.le_gt_cases (now key) (resetAt v)) as [Hlive|Hdue].
      * rewrite (Hkeep key v Hv Hlive). by destruct (Time.After _ _).
      * by rewrite (Hdrop key v Hv ltac:(lia)), (Hafter v eq_refl ltac:(lia)).
    + by rewrite (Hnone eq_refl).
  - unfold allow at 1 2.
    destruct (visitors rl !! key) as [v|] eqn:Hv.
    + destruct (Z.le_gt_cases (now key) (resetAt v)) as [Hlive|Hdue].
      * rewrite (Hkeep key v Hv Hlive).
        destruct (Time.After _ _); simpl; by rewrite !lookup_insert_eq.
      * rewrite (Hdrop key v Hv ltac:(lia)), (Hafter v eq_refl ltac:(lia)).
        simpl. by rewrite !lookup_insert_eq.
    + rewrite (Hnone eq_refl). simpl. by rewrite !lookup_insert_eq.
Qed.

(** The statement of X1 on a limiter with one window that is due and one
    that is live. *)
Lemma X1_sweep_invisible_to_allow_witness :
  let rl := mkRateLimiter {[ "10.0.0.1" := mkVisitor 3 100; "10.0.0.2" := mkVisitor 2 900 ]}
                          3 1000 in
  let now := fun _ : string => 500 in
  let t := mkTicks 600 601 in
  now "10.0.0.1" <= t_check t /\
  (allow (sweep rl now) "10.0.0.1" t).1 = (allow rl "10.0.0.1" t).1 /\
  visitors (sweep rl now) !! "10.0.0.1" = None /\
  visitors (sweep rl now) !! "10.0.0.2" = Some (mkVisitor 2 900).
Proof.
  intros rl now t.
  assert (now "10.0.0.1" <= t_check t) as H1 by (vm_compute; congruence).
  split; [exact H1|].
  destruct (X1_sweep_invisible_to_allow rl now "10.0.0.1" t H1)
    as (Hsame & _ & Hkeep & Hdrop & _).
  split; [exact Hsame|]. split.
  - apply (Hdrop "10.0.0.1" (mkVisitor 3 100)); [reflexivity|reflexivity].
  - apply (Hkeep "10.0.0.2" (mkVisitor 2 900)); [reflexivity|]. vm_compute. congruence.
Defined.

(** X2.  Keys do not interfere: a call of [allow] for one key leaves the
    window of every other key, the limit and the window duration as they
    were, so the result of a call for another key is the same before and
    after it. *)
Theorem X2_allow_leaves_other_keys (rl : rateLimiter) (key other : string) (t t' : ticks) :
  other <> key ->
  visitors (allow rl key t).2 !! other = visitors rl !! other /\
  limit (allow rl key t).2 = limit rl /\
  window (allow rl key t).2 = window rl /\
  (allow (allow rl key t).2 other t').1 = (allow rl other t').1.
Proof.
  intros Hne.
  assert (visitors (allow rl key t).2 !! other = visitors rl !! other
          /\ limit (allow rl key t).2 = limit rl
          /\ window (allow rl key t).2 = window rl) as (Hv & Hl & Hw).
  { unfold allow. destruct (visitors rl !! key) as [v|]; [destruct (Time.After _ _)|];
      simpl; by rewrite lookup_insert_ne. }
  split; [done|]. split; [done|]. split; [done|].
  unfold allow at 1 3. rewrite Hv, Hl.
  destruct (visitors rl !! other) as [v|]; [destruct (Time.After _ _)|]; done.
Qed.

(** The statement of X2 on two addresses. *)
Lemma X2_allow_leaves_other_keys_witness :
  let rl := mkRateLimiter {[ "10.0.0.2" := mkVisitor 1 900 ]} 1 1000 in
  let t := mkTicks 5 5 in
  "10.0.0.2" <> "10.0.0.1" /\
  visitors (allow rl "10.0.0.1" t).2 !! "10.0.0.2" = Some (mkVisitor 1 900) /\
  (allow (allow rl "10.0.0.1" t).2 "10.0.0.2" t).1 = (allow rl "10.0.0.2" t).1.
Proof.
  intros rl t.
  assert ("10.0.0.2" <> "10.0.0.1") as H1 by discriminate.
  split; [exact H1|].
  destruct (X2_allow_leaves_other_keys rl "10.0.0.1" "10.0.0.2" t t H1) as (Hv & _ & _ & Hr).
  split; [exact Hv | exact Hr].
Defined.

(** X3.  A limit of zero, or below, does not shut a key out: of the calls
    that fall in one window (fewer than the largest [int]), the one that
    opens the window is admitted and all the others are refused. *)
Theorem X3_limit_below_one_admits_one (rl : rateLimiter) (key : string)
    (t0 : ticks) (ts : list ticks) :
  limit rl <= 0 ->
  no_live_window rl key t0 ->
  Forall (fun t => t_check t <= Time.Add (t_install t0) (window rl)) ts ->
  1 + Z.of_nat (length ts) <= GoInt.max_int ->
  (allow_run rl key (t0 :: ts)).1 = true :: repeat false (length ts).
Proof.
  intros Hlim Hfresh Hts Hlen. simpl.
  rewrite (allow_fresh _ _ _ Hfresh).
  set (rl1 := set_visitors rl _).
  assert (visitors rl1 !! key = Some (mkVisitor 1 (Time.Add (t_install t0) (window rl))))
    as Hk by apply lookup_insert_eq.
  assert (GoInt.min_int <= 1) as Hlo by (unfold GoInt.min_int; lia).
  pose proof (allow_run_live rl1 key ts 1 _ Hk Hts Hlo Hlen) as (H1 & _).
  destruct (allow_run rl1 key ts) as [bs rl2]. simpl in *.
  f_equal. rewrite H1. clear H1.
  clear -Hlim. generalize 0%nat.
  induction (length ts) as [|k IH]; intros s; simpl; [done|].
  f_equal; [apply Z.leb_gt; lia | apply IH].
Qed.

(** The statement of X3 at limit 0 on three calls. *)
Lemma X3_limit_below_one_admits_one_witness :
  let rl := newRateLimiter 0 1000 in
  let t0 := mkTicks 5 5 in
  let ts := [mkTicks 6 6; mkTicks 7 7] in
  limit rl <= 0 /\ no_live_window rl "10.0.0.1" t0 /\
  Forall (fun t => t_check t <= Time.Add (t_install t0) (window rl)) ts /\
  1 + Z.of_nat (length ts) <= GoInt.max_int /\
  (allow_run rl "10.0.0.1" (t0 :: ts)).1 = [true; false; false].
Proof.
  intros rl t0 ts.
  assert (limit rl <= 0) as H1 by (vm_compute; congruence).
  assert (no_live_window rl "10.0.0.1" t0) as H2 by exact I.
  assert (Forall (fun t => t_check t <= Time.Add (t_install t0) (window rl)) ts) as H3
    by (repeat constructor; vm_compute; congruence).
  assert (1 + Z.of_nat (length ts) <= GoInt.max_int) as H4 by (vm_compute; congruence).
  split; [exact H1|]. split; [exact H2|]. split; [exact H3|]. split; [exact H4|].
  exact (X3_limit_below_one_admits_one rl "10.0.0.1" t0 ts H1 H2 H3 H4).
Defined.

End RateLimiterMore.

(** ** The rate limiter: what the mutex gives *)

Section MutexFacts.
Import Middleware Concurrent Exclusion.

Lemma Mutex_ok_set_pc s i p q :
  Mutex_ok s -> pcs s !! i = Some p -> inside p = true -> inside q = true ->
  Mutex_ok (set_pc s i q).
Proof.
  intros [Hin Hho Hsw] Hi Hp Hq.
  pose proof (tally_insert inside _ i p q Hi) as T. rewrite Hp, Hq in T.
  pose proof (lookup_lt_Some _ _ _ Hi) as Hlt.
  constructor; simpl; [lia| |done].
  intros g Hg. destruct (decide (g = i)) as [->|Hne].
  - exists q. by rewrite list_lookup_insert_eq.
  - rewrite list_lookup_insert_ne by done. by apply Hho.
Qed.

Lemma Mutex_ok_exec1 key s a s' :
  Mutex_ok s -> exec1 key s a = Some s' -> Mutex_ok s'.
Proof.
  intros HM Hstep. destruct a as [d|i|]; simpl in Hstep.
  - destruct (0 <=? d); [|done]. injection Hstep as <-. by destruct HM.
  - unfold run_goroutine in Hstep.
    destruct (pcs s !! i) as [[| | |v|b|b]|] eqn:Hi; try done.
    + destruct (mu s) eqn:Hmu; [done|]. injection Hstep as <-.
      destruct HM as [Hin Hho Hsw]. rewrite Hmu in *.
      pose proof (tally_insert inside _ i _ Locked Hi) as T. simpl in T.
      pose proof (lookup_lt_Some _ _ _ Hi) as Hlt.
      constructor; simpl.
      * simpl in Hin. lia.
      * intros g [= <-]. exists Locked. by rewrite list_lookup_insert_eq.
      * split; [|done]. intros H. by apply Hsw in H.
    + injection Hstep as <-. apply (Mutex_ok_set_pc s i Locked); try done.
      by repeat case_match.
    + injection Hstep as <-.
      apply (Mutex_ok_set_pc (set_window s key _) i Fresh); try done.
      by destruct HM.
    + injection Hstep as <-.
      apply (Mutex_ok_set_pc (set_window s key _) i (Live v)); try done.
      by destruct HM.
    + injection Hstep as <-. destruct HM as [Hin Hho Hsw].
      pose proof (tally_insert inside _ i _ (Done b) Hi) as T. simpl in T.
      pose proof (tally_pos inside _ i _ Hi eq_refl) as Hpos.
      assert (holders (mu s) <= 1)%nat as Hle by (unfold holders; repeat case_match; lia).
      constructor; simpl.
      * unfold b2n in T. lia.
      * done.
      * split; [|done]. intros H. apply Hsw in H. rewrite H in Hin. simpl in Hin. lia.
  - unfold run_sweeper in Hstep. destruct HM as [Hin Hho Hsw].
    destruct (sweeping s) eqn:Hs.
    + injection Hstep as <-.
      assert (mu s = Some Sweeper) as Hmu by (by apply Hsw).
      rewrite Hmu in Hin. by constructor.
    + destruct (mu s) eqn:Hmu; [done|]. injection Hstep as <-. by constructor.
Qed.

Lemma Mutex_ok_exec key schedule s s' :
  Mutex_ok s -> exec key s schedule = Some s' -> Mutex_ok s'.
Proof.
  revert s. induction schedule as [|a rest IH]; intros s HM; simpl.
  - by intros [= <-].
  - destruct (exec1 key s a) as [s1|] eqn:E; [|done].
    apply IH. by apply (Mutex_ok_exec1 key s a).
Qed.

Lemma Mutex_ok_initial rl calls t0 : Mutex_ok (initial rl calls t0).
Proof.
  constructor; simpl; [by rewrite tally_replicate|done|done].
Qed.

(** X4.  Mutual exclusion, under every schedule: however many goroutines
    call [allow], whatever the limiter holds and however the clock moves,
    no two goroutines are between [Lock] and [Unlock] at the same time, and
    none is while [cleanup] sweeps. *)
Theorem X4_mutual_exclusion (key : string) (rl : rateLimiter) (calls : nat) (t0 : Z)
    (schedule : list action) (s' : state) :
  exec key (initial rl calls t0) schedule = Some s' ->
  (forall i j p q,
     pcs s' !! i = Some p -> pcs s' !! j = Some q ->
     inside p = true -> inside q = true -> i = j) /\
  (sweeping s' = true -> forall i p, pcs s' !! i = Some p -> inside p = false).
Proof.
  intros Hexec.
  destruct (Mutex_ok_exec key schedule _ _ (Mutex_ok_initial rl calls t0) Hexec)
    as [Hin Hho Hsw].
  split.
  - intros i j p q Hi Hj Hp Hq. destruct (decide (i = j)) as [|Hne]; [done|].
    pose proof (tally_two inside _ i j p q Hne Hi Hp Hj Hq) as H2.
    rewrite Hin in H2. unfold holders in H2. repeat case_match; lia.
  - intros Hs i p Hi. apply (tally_zero inside (pcs s') i); [|done].
    apply Hsw in Hs. by rewrite Hin, Hs.
Qed.

(** X5.  No deadlock: in every state a schedule reaches in which some call
    has not returned, some goroutine (a caller, or [cleanup]) can take its
    next step. *)
Theorem X5_some_goroutine_can_run (key : string) (rl : rateLimiter) (calls : nat) (t0 : Z)
    (schedule : list action) (s' : state) (i : nat) (p : pc) :
  exec key (initial rl calls t0) schedule = Some s' ->
  pcs s' !! i = Some p -> returned p = false ->
  (exists j, is_Some (exec1 key s' (Run j))) \/ is_Some (exec1 key s' RunSweeper).
Proof.
  intros Hexec Hi Hp.
  destruct (Mutex_ok_exec key schedule _ _ (Mutex_ok_initial rl calls t0) Hexec)
    as [Hin Hho Hsw].
  destruct (mu s') as [[g|]|] eqn:Hmu.
  - left. exists g. destruct (Hho g eq_refl) as (q & Hg & Hq).
    simpl. unfold run_goroutine. rewrite Hg. by destruct q.
  - right. simpl. unfold run_sweeper.
    assert (sweeping s' = true) as -> by (by apply Hsw). done.
  - left. exists i. simpl. unfold run_goroutine. rewrite Hi, Hmu.
    assert (inside p = false) as Hout.
    { apply (tally_zero inside (pcs s') i); [|done]. by rewrite Hin. }
    by destruct p.
Qed.

(** X6.  A call is atomic: goroutine [i] going from [Lock] to [Unlock],
    with the clock moving in between, changes the limiter exactly as one
    call of [allow] does with the clock readings the goroutine took, and
    returns what that call returns.  While it holds the mutex, no other
    caller can start and [cleanup] cannot sweep. *)
Theorem X6_call_is_atomic (key : string) (s : state) (i : nat) (d1 d2 d3 : Z) :
  pcs s !! i = Some Start -> mu s = None -> sweeping s = false ->
  0 <= d1 -> 0 <= d2 -> 0 <= d3 ->
  let now := mkTicks (clock s + d1) (clock s + d1 + d2) in
  exec key s (call_with_delays i d1 d2 d3)
    = Some {| shared := (allow (shared s) key now).2;
              mu := None;
              pcs := <[i := Done (allow (shared s) key now).1]> (pcs s);
              sweeping := false;
              clock := clock s + d1 + d2 + d3 |} /\
  (forall s1, exec1 key s (Run i) = Some s1 ->
     (forall j, j <> i -> pcs s !! j = Some Start -> exec1 key s1 (Run j) = None) /\
     exec1 key s1 RunSweeper = None).
Proof.
  intros Hi Hmu Hsw H1 H2 H3 now.
  pose proof (lookup_lt_Some _ _ _ Hi) as Hlt.
  split.
  - unfold call_with_delays, exec, exec1, run_goroutine. rewrite Hi, Hmu. simpl.
    destruct (Z.leb_spec 0 d1); [|lia]. simpl.
    rewrite list_lookup_insert_eq by done.
    unfold allow, now. simpl.
    destruct (visitors (shared s) !! key) as [v|];
      [destruct (Time.After (clock s + d1) (resetAt v))|]; simpl;
      (destruct (Z.leb_spec 0 d2); [|lia]); simpl;
      rewrite list_lookup_insert_eq by (by rewrite length_insert); simpl;
      (destruct (Z.leb_spec 0 d3); [|lia]); simpl;
      rewrite list_lookup_insert_eq by (by rewrite !length_insert); simpl;
      unfold set_pc, set_mu, set_window; simpl;
      rewrite !list_insert_insert_eq, Hsw; reflexivity.
  - intros s1 Hs1. simpl in Hs1. unfold run_goroutine in Hs1. rewrite Hi, Hmu in Hs1.
    injection Hs1 as <-. split.
    + intros j Hne Hj. simpl. unfold run_goroutine. simpl.
      by rewrite list_lookup_insert_ne, Hj by done.
    + simpl. unfold run_sweeper. simpl. by rewrite Hsw.
Qed.

End MutexFacts.

Section MutexExamples.
Import Middleware Concurrent Exclusion.

(** The statement of X4 on three goroutines, two of them waiting while the
    third is between its test and its write. *)
Lemma X4_mutual_exclusion_witness :
  let rl := newRateLimiter 2 1000 in
  let s' := {| shared := rl; mu := Some (Goroutine 1); pcs := [Start; Fresh; Start];
               sweeping := false; clock := 7 |} in
  exec "10.0.0.1" (initial rl 3 0) [Run 1; Tick 7; Run 1] = Some s' /\
  forall i j p q,
    pcs s' !! i = Some p -> pcs s' !! j = Some q ->
    inside p = true -> inside q = true -> i = j.
Proof.
  intros rl s'.
  assert (exec "10.0.0.1" (initial rl 3 0) [Run 1; Tick 7; Run 1] = Some s') as H
    by (vm_compute; reflexivity).
  split; [exact H|].
  exact (proj1 (X4_mutual_exclusion "10.0.0.1" rl 3 0 _ s' H)).
Defined.

(** The statement of X5 in the same state: goroutine 1 can go on. *)
Lemma X5_some_goroutine_can_run_witness :
  let rl := newRateLimiter 2 1000 in
  let s' := {| shared := rl; mu := Some (Goroutine 1); pcs := [Start; Fresh; Start];
               sweeping := false; clock := 7 |} in
  exec "10.0.0.1" (initial rl 3 0) [Run 1; Tick 7; Run 1] = Some s' /\
  pcs s' !! 0%nat = Some Start /\ returned Start = false /\
  ((exists j, is_Some (exec1 "10.0.0.1" s' (Run j))) \/
   is_Some (exec1 "10.0.0.1" s' RunSweeper)).
Proof.
  intros rl s'.
  assert (exec "10.0.0.1" (initial rl 3 0) [Run 1; Tick 7; Run 1] = Some s') as H
    by (vm_compute; reflexivity).
  split; [exact H|]. split; [reflexivity|]. split; [reflexivity|].
  exact (X5_some_goroutine_can_run "10.0.0.1" rl 3 0 _ s' 0 Start H eq_refl eq_refl).
Defined.

(** The statement of X6 on the second call of a window of limit 1. *)
Lemma X6_call_is_atomic_witness :
  let rl := mkRateLimiter {[ "10.0.0.1" := mkVisitor 1 1000 ]} 1 1000 in
  let s := initial rl 2 10 in
  pcs s !! 1%nat = Some Start /\ mu s = None /\ sweeping s = false /\
  0 <= 5 /\ 0 <= 0 /\ 0 <= 3 /\
  exec "10.0.0.1" s (call_with_delays 1 5 0 3)
    = Some {| shared := mkRateLimiter {[ "10.0.0.1" := mkVisitor 2 1000 ]} 1 1000;
              mu := None; pcs := [Start; Done false]; sweeping := false; clock := 18 |}.
Proof.
  intros rl s.
  assert (0 <= 5) as H1 by (vm_compute; congruence).
  assert (0 <= 0) as H2 by (vm_compute; congruence).
  assert (0 <= 3) as H3 by (vm_compute; congruence).
  split; [reflexivity|]. split; [reflexivity|]. split; [reflexivity|].
  split; [exact H1|]. split; [exact H2|]. split; [exact H3|].
  exact (proj1 (X6_call_is_atomic "10.0.0.1" s 1 5 0 3 eq_refl eq_refl eq_refl H1 H2 H3)).
Defined.

End MutexExamples.

(** ** The storage service: every way out of [SaveFile] *)

Section StorageMore.
Import Errors Service.

Variable sha256_Sum : list byte -> list byte.
Variable zip_NewReader : list byte -> string + list Zip.File.
Variable json_Decode : list byte -> string + SkillManifest.

Lemma range_File_error files m e :
  range_File files m = inl e -> e = ErrSymlinkDetected \/ e = ErrInvalidPackage.
Proof.
  revert m. induction files as [|f files IH]; intros m; simpl; [done|].
  destruct (isSymlink f); [intros [= <-]; by left|].
  destruct (hasDotDot f); [intros [= <-]; by right|].
  destruct (isManifest f); apply IH.
Qed.

Lemma range_File_passed files m found :
  range_File files m = inr found ->
  Forall (fun f => isSymlink f = false) files /\
  Forall (fun f => hasDotDot f = false) files /\
  (found = m \/ exists f, found = Some f /\ In f files /\ isManifest f = true).
Proof.
  revert m. induction files as [|f files IH]; intros m; simpl.
  - intros [= <-]. split; [done|]. split; [done|]. by left.
  - destruct (isSymlink f) eqn:Es; [done|]. destruct (hasDotDot f) eqn:Ed; [done|].
    destruct (isManifest f) eqn:Em; intros H; apply IH in H as (H1 & H2 & H3);
      (split; [by constructor|]); (split; [by constructor|]).
    + destruct H3 as [->|(g & -> & Hin & Hg)]; right.
      * exists f. split; [done|]. split; [by left|done].
      * exists g. split; [done|]. split; [by right|done].
    + destruct H3 as [->|(g & -> & Hin & Hg)]; [by left|right].
      exists g. split; [done|]. split; [by right|done].
Qed.

Lemma validatePackage_accepts (fs : OS.FS) path manifest :
  validatePackage zip_NewReader json_Decode fs path = inr manifest ->
  exists data files f,
    fs !! path = Some data /\ zip_NewReader data = inr files /\
    Forall (fun g => isSymlink g = false) files /\
    Forall (fun g => hasDotDot g = false) files /\
    In f files /\ isManifest f = true /\
    readManifest json_Decode f = inr manifest /\
    Name manifest <> "" /\ Slug manifest <> "".
Proof.
  unfold validatePackage, zip_OpenReader.
  destruct (fs !! path) as [data|] eqn:Hdata; [|done].
  destruct (zip_NewReader data) as [msg|files] eqn:Hzip; [done|].
  destruct (range_File files None) as [e|[f|]] eqn:Hloop; [done| |done].
  intros Hread. exists data, files, f.
  apply range_File_passed in Hloop as (H1 & H2 & [H3|(g & [= <-] & Hin & Hg)]); [done|].
  split; [done|]. split; [done|]. split; [done|]. split; [done|].
  split; [done|]. split; [done|]. split; [done|].
  unfold readManifest in Hread.
  destruct (Zip.Open f); [done|]. destruct (json_Decode _); [done|].
  destruct (bool_decide (Name s = "")) eqn:En; [done|].
  destruct (bool_decide (Slug s = "")) eqn:Es; [done|].
  injection Hread as <-. by apply bool_decide_eq_false in En, Es.
Qed.

Lemma validatePackage_never_too_large (fs : OS.FS) path :
  validatePackage zip_NewReader json_Decode fs path <> inl ErrFileTooLarge.
Proof.
  unfold validatePackage.
  destruct (zip_OpenReader _ _ _) as [e|files]; [done|].
  destruct (range_File files None) as [e|[f|]] eqn:Hloop; [| |done].
  - apply range_File_error in Hloop as [->| ->]; done.
  - unfold readManifest. repeat case_match; done.
Qed.

Lemma Reader_eta (r : IO.Reader) :
  {| IO.pending := drop 0 (IO.pending r); IO.failure := IO.failure r |} = r.
Proof. by destruct r. Qed.

(** X7.  [SaveFile] leaves no trace of a failed upload: whenever it returns
    an error, of any kind (no temporary file, a read error, a file too
    large, a rejected archive), the file system is exactly as it was before
    the call. *)
Theorem X7_failed_upload_leaves_no_trace (s : StorageService) (fs : OS.FS)
    (src : IO.Reader) (originalName : string) (env : Entropy)
    (e : error) (fs' : OS.FS) (src' : IO.Reader) :
  SaveFile sha256_Sum zip_NewReader json_Decode s fs src originalName env = (inl e, fs', src') ->
  fs' = fs.
Proof. apply SaveFile_error_restores. Qed.

(** X8.  What an accepted upload changes: the artifact is the one file
    added, at a path made of the upload directory and the fresh identifier
    (it depends neither on the manifest nor on the client's file name); it
    holds the whole upload, which is within the size limit; every other
    path is as before; and the temporary file is gone. *)
Theorem X8_accepted_upload_adds_one_file (s : StorageService) (fs : OS.FS)
    (src : IO.Reader) (originalName : string) (env : Entropy)
    (tmpPath : string) (fs1 : OS.FS)
    (path hash : string) (manifest : SkillManifest) (fs' : OS.FS) (src' : IO.Reader) :
  GoInt.min_int <= maxFileSize s < GoInt.max_int ->
  OS.CreateTemp fs (uploadDir s) "upload-*.zip" (tempNames env) = inr (tmpPath, fs1) ->
  SaveFile sha256_Sum zip_NewReader json_Decode s fs src originalName env
    = (inr (path, hash, manifest), fs', src') ->
  path = Filepath.Join (uploadDir s) (newUUID env +:+ ".zip") /\
  fs' = <[path := IO.pending src]> fs /\
  Z.of_nat (length (IO.pending src)) <= maxFileSize s /\
  IO.pending src' = [] /\
  (forall other, other <> path -> fs' !! other = fs !! other) /\
  (tmpPath <> path -> fs' !! tmpPath = None).
Proof.
  intros Hmax Htmp Hsave.
  rewrite (SaveFile_stages _ _ _ _ _ _ _ _ _ _ Htmp) in Hsave.
  rewrite wrap_id in Hsave
    by (unfold GoInt.in_range, GoInt.min_int, GoInt.max_int in *; lia).
  apply CreateTemp_fresh in Htmp as [Hfresh _].
  destruct (Z.leb_spec (maxFileSize s + 1) (Z.of_nat (length (IO.pending src)))) as [Hbig|Hfit].
  - assert (IO.consumed (maxFileSize s + 1) (IO.pending src) = Z.to_nat (maxFileSize s + 1))
      as Hk by (unfold IO.consumed; lia).
    rewrite Hk in Hsave.
    destruct (Z.ltb_spec (maxFileSize s) (Z.of_nat (Z.to_nat (maxFileSize s + 1))));
      [done|lia].
  - assert (IO.consumed (maxFileSize s + 1) (IO.pending src) = length (IO.pending src))
      as Hk by (unfold IO.consumed; lia).
    rewrite Hk, firstn_all, skipn_all in Hsave.
    destruct (IO.failure src); [done|].
    destruct (maxFileSize s <? _); [done|].
    destruct (validatePackage _ _ _ _); [done|].
    injection Hsave as <- <- <- <- <-.
    split; [done|]. split; [done|]. split; [lia|]. split; [done|]. split.
    + intros other Hne. by rewrite lookup_insert_ne.
    + intros Hne. by rewrite lookup_insert_ne.
Qed.

(** X9.  What an accepted archive is: the stored file opens as an archive
    none of whose entries is a symbolic link or has [".."] in its name, and
    the manifest returned was decoded from one of its entries, one that
    passes the manifest test; its name and its slug are not empty. *)
Theorem X9_accepted_archive_is_safe (s : StorageService) (fs : OS.FS)
    (src : IO.Reader) (originalName : string) (env : Entropy)
    (path hash : string) (manifest : SkillManifest) (fs' : OS.FS) (src' : IO.Reader) :
  SaveFile sha256_Sum zip_NewReader json_Decode s fs src originalName env
    = (inr (path, hash, manifest), fs', src') ->
  exists data files f,
    fs' !! path = Some data /\ zip_NewReader data = inr files /\
    Forall (fun g => isSymlink g = false) files /\
    Forall (fun g => hasDotDot g = false) files /\
    In f files /\ isManifest f = true /\
    readManifest json_Decode f = inr manifest /\
    Name manifest <> "" /\ Slug manifest <> "".
Proof.
  intros Hsave.
  destruct (OS.CreateTemp fs (uploadDir s) "upload-*.zip" (tempNames env))
    as [e0|[tmpPath fs1]] eqn:Htmp.
  { unfold SaveFile in Hsave. by rewrite Htmp in Hsave. }
  rewrite (SaveFile_stages _ _ _ _ _ _ _ _ _ _ Htmp) in Hsave.
  destruct (if _ <=? _ then None else IO.failure src); [done|].
  destruct (maxFileSize s <? _); [done|].
  destruct (validatePackage _ _ _ _) as [e|m] eqn:Hval; [done|].
  injection Hsave as <- <- <- <- <-.
  apply validatePackage_accepts in Hval
    as (data & files & f & Hdata & Hzip & H1 & H2 & H3 & H4 & H5 & H6 & H7).
  rewrite lookup_insert_eq in Hdata. injection Hdata as <-.
  exists (take (IO.consumed (GoInt.wrap (maxFileSize s + 1)) (IO.pending src)) (IO.pending src)),
    files, f.
  by rewrite lookup_insert_eq.
Qed.

(** X10.  [SaveFile] never takes more from the stream than the size limit
    plus one byte, whatever the stream holds and however the call ends; what
    it leaves in the stream is what follows the bytes it took. *)
Theorem X10_read_is_bounded (s : StorageService) (fs : OS.FS)
    (src : IO.Reader) (originalName : string) (env : Entropy) :
  GoInt.in_range (maxFileSize s) ->
  let src' := (SaveFile sha256_Sum zip_NewReader json_Decode s fs src originalName env).2 in
  exists read,
    IO.pending src = read ++ IO.pending src' /\
    Z.of_nat (length read) <= Z.max 0 (maxFileSize s + 1) /\
    IO.failure src' = IO.failure src.
Proof.
  intros Hmax src'.
  destruct (OS.CreateTemp fs (uploadDir s) "upload-*.zip" (tempNames env))
    as [e0|[tmpPath fs1]] eqn:Htmp.
  { exists []. subst src'. unfold SaveFile. rewrite Htmp. simpl. split; [done|]. split; [lia|done]. }
  subst src'. rewrite (SaveFile_stages _ _ _ _ _ _ _ _ _ _ Htmp).
  set (k := IO.consumed _ _).
  exists (take k (IO.pending src)).
  assert (Z.of_nat k <= Z.max 0 (maxFileSize s + 1)) as Hk.
  { unfold k, IO.consumed, GoInt.wrap, GoInt.in_range, GoInt.min_int, GoInt.max_int in *.
    destruct (Z.eq_dec (maxFileSize s) (2 ^ 63 - 1)) as [->|Hne].
    - vm_compute (Z.to_nat _). lia.
    - rewrite Z.mod_small by lia. lia. }
  repeat case_match; simpl; (split; [by rewrite take_drop|]);
    (split; [rewrite length_take; lia | done]).
Qed.

(** X11.  The size test is exact: once the temporary file exists, and for a
    limit below the largest [int64], [SaveFile] returns [ErrFileTooLarge]
    exactly when the stream holds more bytes than the limit; an upload of
    exactly the limit passes the test. *)
Theorem X11_too_large_exactly_above_limit (s : StorageService) (fs : OS.FS)
    (src : IO.Reader) (originalName : string) (env : Entropy)
    (tmpPath : string) (fs1 : OS.FS) :
  GoInt.min_int <= maxFileSize s < GoInt.max_int ->
  OS.CreateTemp fs (uploadDir s) "upload-*.zip" (tempNames env) = inr (tmpPath, fs1) ->
  (SaveFile sha256_Sum zip_NewReader json_Decode s fs src originalName env).1.1
    = inl ErrFileTooLarge
  <-> maxFileSize s < Z.of_nat (length (IO.pending src)).
Proof.
  intros Hmax Htmp.
  rewrite (SaveFile_stages _ _ _ _ _ _ _ _ _ _ Htmp).
  rewrite wrap_id by (unfold GoInt.in_range, GoInt.min_int, GoInt.max_int in *; lia).
  destruct (Z.leb_spec (maxFileSize s + 1) (Z.of_nat (length (IO.pending src)))) as [Hbig|Hfit].
  - assert (IO.consumed (maxFileSize s + 1) (IO.pending src) = Z.to_nat (maxFileSize s + 1))
      as -> by (unfold IO.consumed; lia).
    destruct (Z.ltb_spec (maxFileSize s) (Z.of_nat (Z.to_nat (maxFileSize s + 1))));
      [|lia]. simpl. split; [lia|done].
  - assert (IO.consumed (maxFileSize s + 1) (IO.pending src) = length (IO.pending src))
      as -> by (unfold IO.consumed; lia).
    destruct (IO.failure src); [simpl; split; [done|lia]|].
    destruct (Z.ltb_spec (maxFileSize s) (Z.of_nat (length (IO.pending src)))); [lia|].
    destruct (validatePackage _ _ _ _) as [e|m] eqn:Hval; simpl; [|split; [done|lia]].
    split; [|lia]. intros [= ->]. by apply validatePackage_never_too_large in Hval.
Qed.

(** X12.  A size limit below zero (the configuration accepts one) rejects
    every upload, the empty one too, without reading a byte of it. *)
Theorem X12_negative_limit_rejects_all (s : StorageService) (fs : OS.FS)
    (src : IO.Reader) (originalName : string) (env : Entropy)
    (tmpPath : string) (fs1 : OS.FS) :
  GoInt.min_int <= maxFileSize s < 0 ->
  OS.CreateTemp fs (uploadDir s) "upload-*.zip" (tempNames env) = inr (tmpPath, fs1) ->
  SaveFile sha256_Sum zip_NewReader json_Decode s fs src originalName env
    = (inl ErrFileTooLarge, fs, src).
Proof.
  intros Hmax Htmp.
  rewrite (SaveFile_stages _ _ _ _ _ _ _ _ _ _ Htmp).
  rewrite wrap_id by (unfold GoInt.in_range, GoInt.min_int, GoInt.max_int in *; lia).
  assert (IO.consumed (maxFileSize s + 1) (IO.pending src) = 0%nat)
    as -> by (unfold IO.consumed; lia).
  destruct (Z.leb_spec (maxFileSize s + 1) (Z.of_nat (length (IO.pending src)))); [|lia].
  destruct (Z.ltb_spec (maxFileSize s) (Z.of_nat 0)); [|lia].
  by rewrite Reader_eta.
Qed.

(** X13.  At the largest [int64] the limit plus one wraps around: the
    copy is cut at a negative length and takes nothing, so whatever is
    uploaded, what is validated, hashed and stored is the empty file. *)
Theorem X13_largest_limit_stores_nothing (s : StorageService) (fs : OS.FS)
    (src : IO.Reader) (originalName : string) (env : Entropy)
    (tmpPath : string) (fs1 : OS.FS) :
  maxFileSize s = GoInt.max_int ->
  OS.CreateTemp fs (uploadDir s) "upload-*.zip" (tempNames env) = inr (tmpPath, fs1) ->
  SaveFile sha256_Sum zip_NewReader json_Decode s fs src originalName env
    = match validatePackage zip_NewReader json_Decode (<[tmpPath := []]> fs) tmpPath with
      | inl e => (inl e, fs, src)
      | inr manifest =>
          let finalPath := Filepath.Join (uploadDir s) (newUUID env +:+ ".zip") in
          (inr (finalPath, Hex.EncodeToString (sha256_Sum []), manifest),
           <[finalPath := []]> fs, src)
      end.
Proof.
  intros Hmax Htmp.
  rewrite (SaveFile_stages _ _ _ _ _ _ _ _ _ _ Htmp). rewrite Hmax.
  change (GoInt.wrap (GoInt.max_int + 1)) with GoInt.min_int.
  assert (IO.consumed GoInt.min_int (IO.pending src) = 0%nat) as -> by done.
  destruct (Z.leb_spec GoInt.min_int (Z.of_nat (length (IO.pending src))));
    [|unfold GoInt.min_int in *; lia].
  destruct (Z.ltb_spec GoInt.max_int (Z.of_nat 0)); [unfold GoInt.max_int in *; lia|].
  rewrite Reader_eta. simpl. by destruct (validatePackage _ _ _ _).
Qed.

(** X14.  A stream that breaks off with an error before the limit is
    passed makes [SaveFile] return that error, wrapped under the text
    [save file: ]; nothing of the part that was read is kept. *)
Theorem X14_read_error_is_reported (s : StorageService) (fs : OS.FS)
    (src : IO.Reader) (originalName : string) (env : Entropy)
    (tmpPath : string) (fs1 : OS.FS) (e : error) :
  GoInt.min_int <= maxFileSize s < GoInt.max_int ->
  OS.CreateTemp fs (uploadDir s) "upload-*.zip" (tempNames env) = inr (tmpPath, fs1) ->
  IO.failure src = Some e ->
  Z.of_nat (length (IO.pending src)) <= maxFileSize s ->
  SaveFile sha256_Sum zip_NewReader json_Decode s fs src originalName env
    = (inl (Errorf_w "save file: " e), fs, {| IO.pending := []; IO.failure := Some e |}) /\
  Is (Errorf_w "save file: " e) e = true.
Proof.
  intros Hmax Htmp Hfail Hlen.
  rewrite (SaveFile_stages _ _ _ _ _ _ _ _ _ _ Htmp).
  rewrite wrap_id by (unfold GoInt.in_range, GoInt.min_int, GoInt.max_int in *; lia).
  assert (IO.consumed (maxFileSize s + 1) (IO.pending src) = length (IO.pending src))
    as -> by (unfold IO.consumed; lia).
  destruct (Z.leb_spec (maxFileSize s + 1) (Z.of_nat (length (IO.pending src)))); [lia|].
  rewrite Hfail, skipn_all. split; [done|].
  rewrite Is_unfold. destruct (decide _); [done|]. apply Is_refl.
Qed.

End StorageMore.

Section StorageExamples.
Import Errors Service.

Local Abbreviation SaveFile' :=
  (SaveFile Fixtures.sha256_Sum Fixtures.zip_NewReader Fixtures.json_Decode).
Local Abbreviation CreateTemp' s :=
  (OS.CreateTemp ∅ (uploadDir s) "upload-*.zip" (tempNames Fixtures.entropy)).
Local Abbreviation created :=
  (inr (Fixtures.tmpPath, {[ Fixtures.tmpPath := [] ]} : OS.FS) : error + string * OS.FS).

(** X7 on an archive with a symbolic link. *)
Lemma X7_failed_upload_leaves_no_trace_witness :
  let src := Fixtures.upload (Fixtures.archive "symlink") in
  SaveFile' Fixtures.storage ∅ src "upload.zip" Fixtures.entropy
    = (inl ErrSymlinkDetected, ∅, Fixtures.upload []) /\
  (∅ : OS.FS) = ∅.
Proof.
  intros src.
  assert (SaveFile' Fixtures.storage ∅ src "upload.zip" Fixtures.entropy
          = (inl ErrSymlinkDetected, ∅, Fixtures.upload [])) as H by reflexivity.
  split; [exact H|].
  exact (X7_failed_upload_leaves_no_trace _ _ _ _ _ _ _ _ _ _ _ H).
Defined.

(** X8 on the sample archive. *)
Lemma X8_accepted_upload_adds_one_file_witness :
  let src := Fixtures.upload (Fixtures.archive "demo") in
  let fs' : OS.FS := {[ Fixtures.finalPath := Fixtures.archive "demo" ]} in
  (GoInt.min_int <= maxFileSize Fixtures.storage < GoInt.max_int) /\
  CreateTemp' Fixtures.storage = created /\
  SaveFile' Fixtures.storage ∅ src "upload.zip" Fixtures.entropy
    = (inr (Fixtures.finalPath, "6f6d6564", Fixtures.manifest "Demo" "demo" "1.0.0"),
       fs', Fixtures.upload []) /\
  Fixtures.finalPath
    = Filepath.Join (uploadDir Fixtures.storage) (newUUID Fixtures.entropy +:+ ".zip") /\
  fs' = <[Fixtures.finalPath := IO.pending src]> ∅ /\
  Z.of_nat (length (IO.pending src)) <= maxFileSize Fixtures.storage /\
  IO.pending (Fixtures.upload []) = [] /\
  (forall other, other <> Fixtures.finalPath -> fs' !! other = (∅ : OS.FS) !! other) /\
  (Fixtures.tmpPath <> Fixtures.finalPath -> fs' !! Fixtures.tmpPath = None).
Proof.
  intros src fs'.
  assert (GoInt.min_int <= maxFileSize Fixtures.storage < GoInt.max_int) as H1
    by (vm_compute; split; congruence).
  assert (CreateTemp' Fixtures.storage = created) as H2 by reflexivity.
  assert (SaveFile' Fixtures.storage ∅ src "upload.zip" Fixtures.entropy
          = (inr (Fixtures.finalPath, "6f6d6564", Fixtures.manifest "Demo" "demo" "1.0.0"),
             fs', Fixtures.upload [])) as H3 by reflexivity.
  split; [exact H1|]. split; [exact H2|]. split; [exact H3|].
  exact (X8_accepted_upload_adds_one_file _ _ _ _ _ _ _ _ _ _ _ _ _ _ _ H1 H2 H3).
Defined.

(** X9 on the sample archive. *)
Lemma X9_accepted_archive_is_safe_witness :
  let src := Fixtures.upload (Fixtures.archive "demo") in
  let fs' : OS.FS := {[ Fixtures.finalPath := Fixtures.archive "demo" ]} in
  let manifest := Fixtures.manifest "Demo" "demo" "1.0.0" in
  SaveFile' Fixtures.storage ∅ src "upload.zip" Fixtures.entropy
    = (inr (Fixtures.finalPath, "6f6d6564", manifest), fs', Fixtures.upload []) /\
  exists data files f,
    fs' !! Fixtures.finalPath = Some data /\ Fixtures.zip_NewReader data = inr files /\
    Forall (fun g => isSymlink g = false) files /\
    Forall (fun g => hasDotDot g = false) files /\
    In f files /\ isManifest f = true /\
    readManifest Fixtures.json_Decode f = inr manifest /\
    Name manifest <> "" /\ Slug manifest <> "".
Proof.
  intros src fs' manifest.
  assert (SaveFile' Fixtures.storage ∅ src "upload.zip" Fixtures.entropy
          = (inr (Fixtures.finalPath, "6f6d6564", manifest), fs', Fixtures.upload []))
    as H by reflexivity.
  split; [exact H|].
  exact (X9_accepted_archive_is_safe _ _ _ _ _ _ _ _ _ _ _ _ _ H).
Defined.

(** X10 on the sample archive and a limit of four bytes. *)
Lemma X10_read_is_bounded_witness :
  let s := mkStorageService "uploads" 4 in
  let src := Fixtures.upload (Fixtures.archive "demo") in
  let src' := (SaveFile' s ∅ src "upload.zip" Fixtures.entropy).2 in
  GoInt.in_range (maxFileSize s) /\
  exists read,
    IO.pending src = read ++ IO.pending src' /\
    Z.of_nat (length read) <= Z.max 0 (maxFileSize s + 1) /\
    IO.failure src' = IO.failure src.
Proof.
  intros s src src'.
  assert (GoInt.in_range (maxFileSize s)) as H by (vm_compute; split; congruence).
  split; [exact H|].
  exact (X10_read_is_bounded _ _ _ s ∅ src "upload.zip" Fixtures.entropy H).
Defined.

(** X11 on an upload of exactly the limit: seven bytes under a limit of
    seven. *)
Lemma X11_too_large_exactly_above_limit_witness :
  let s := mkStorageService "uploads" 7 in
  let src := Fixtures.upload (Fixtures.archive "demo") in
  (GoInt.min_int <= maxFileSize s < GoInt.max_int) /\
  CreateTemp' s = created /\
  ((SaveFile' s ∅ src "upload.zip" Fixtures.entropy).1.1 = inl ErrFileTooLarge
   <-> maxFileSize s < Z.of_nat (length (IO.pending src))).
Proof.
  intros s src.
  assert (GoInt.min_int <= maxFileSize s < GoInt.max_int) as H1
    by (vm_compute; split; congruence).
  assert (CreateTemp' s = created) as H2 by reflexivity.
  split; [exact H1|]. split; [exact H2|].
  exact (X11_too_large_exactly_above_limit _ _ _ s ∅ src "upload.zip" Fixtures.entropy
           _ _ H1 H2).
Defined.

(** X12 on the empty upload and a limit of minus one. *)
Lemma X12_negative_limit_rejects_all_witness :
  let s := mkStorageService "uploads" (-1) in
  (GoInt.min_int <= maxFileSize s < 0) /\
  CreateTemp' s = created /\
  SaveFile' s ∅ (Fixtures.upload []) "upload.zip" Fixtures.entropy
    = (inl ErrFileTooLarge, ∅, Fixtures.upload []).
Proof.
  intros s.
  assert (GoInt.min_int <= maxFileSize s < 0) as H1 by (vm_compute; split; congruence).
  assert (CreateTemp' s = created) as H2 by reflexivity.
  split; [exact H1|]. split; [exact H2|].
  exact (X12_negative_limit_rejects_all _ _ _ s ∅ (Fixtures.upload []) "upload.zip"
           Fixtures.entropy _ _ H1 H2).
Defined.

(** X13 on the sample archive. *)
Lemma X13_largest_limit_stores_nothing_witness :
  let s := mkStorageService "uploads" GoInt.max_int in
  let src := Fixtures.upload (Fixtures.archive "demo") in
  maxFileSize s = GoInt.max_int /\
  CreateTemp' s = created /\
  SaveFile' s ∅ src "upload.zip" Fixtures.entropy
    = match validatePackage Fixtures.zip_NewReader Fixtures.json_Decode
              (<[Fixtures.tmpPath := []]> ∅) Fixtures.tmpPath with
      | inl e => (inl e, ∅, src)
      | inr manifest =>
          let finalPath := Filepath.Join (uploadDir s) (newUUID Fixtures.entropy +:+ ".zip") in
          (inr (finalPath, Hex.EncodeToString (Fixtures.sha256_Sum []), manifest),
           <[finalPath := []]> ∅, src)
      end.
Proof.
  intros s src.
  assert (maxFileSize s = GoInt.max_int) as H1 by reflexivity.
  assert (CreateTemp' s = created) as H2 by reflexivity.
  split; [exact H1|]. split; [exact H2|].
  exact (X13_largest_limit_stores_nothing _ _ _ s ∅ src "upload.zip" Fixtures.entropy
           _ _ H1 H2).
Defined.

(** X14 on a stream that breaks off after three bytes. *)
Lemma X14_read_error_is_reported_witness :
  let e := LibError "io" "unexpected EOF" in
  let src := {| IO.pending := Fixtures.bytes_of "PK:"; IO.failure := Some e |} in
  (GoInt.min_int <= maxFileSize Fixtures.storage < GoInt.max_int) /\
  CreateTemp' Fixtures.storage = created /\
  IO.failure src = Some e /\
  Z.of_nat (length (IO.pending src)) <= maxFileSize Fixtures.storage /\
  SaveFile' Fixtures.storage ∅ src "upload.zip" Fixtures.entropy
    = (inl (Errorf_w "save file: " e), ∅, {| IO.pending := []; IO.failure := Some e |}) /\
  Is (Errorf_w "save file: " e) e = true.
Proof.
  intros e src.
  assert (GoInt.min_int <= maxFileSize Fixtures.storage < GoInt.max_int) as H1
    by (vm_compute; split; congruence).
  assert (CreateTemp' Fixtures.storage = created) as H2 by reflexivity.
  assert (IO.failure src = Some e) as H3 by reflexivity.
  assert (Z.of_nat (length (IO.pending src)) <= maxFileSize Fixtures.storage) as H4
    by (vm_compute; congruence).
  split; [exact H1|]. split; [exact H2|]. split; [exact H3|]. split; [exact H4|].
  exact (X14_read_error_is_reported _ _ _ Fixtures.storage ∅ src "upload.zip"
           Fixtures.entropy _ _ e H1 H2 H3 H4).
Defined.

End StorageExamples.

(** ** The upload handler: every answer of [Create] *)

Section HandlerMore.
Import Errors Service Handler.

Variable sha256_Sum : list byte -> list byte.
Variable zip_NewReader : list byte -> string + list Zip.File.
Variable json_Decode : list byte -> string + SkillManifest.
Variable json_Marshal : list string -> string.
Context {S : Type} `{Scanner.Scanner S}.

(** The errors [validatePackage] returns. *)
Lemma validatePackage_error_kinds (fs : OS.FS) path e :
  validatePackage zip_NewReader json_Decode fs path = inl e ->
  e = ErrInvalidPackage \/ e = ErrNoManifest \/ e = ErrSymlinkDetected \/
  (exists msg pkg m, e = Errorf_w msg (LibError pkg m)) \/
  e = Errorf "manifest must contain name and slug".
Proof.
  unfold validatePackage.
  destruct (zip_OpenReader _ _ _) as [e0|files]; [intros [= <-]; by left|].
  destruct (range_File files None) as [e1|[f|]] eqn:Hloop.
  - intros [= <-]. apply range_File_error in Hloop as [->| ->]; tauto.
  - unfold readManifest, Zip.zipError, jsonError.
    destruct (Zip.Open f); [intros [= <-]; do 3 right; left; by do 3 eexists|].
    destruct (json_Decode _); [intros [= <-]; do 3 right; left; by do 3 eexists|].
    destruct (_ || _); [|done]. intros [= <-]. by do 4 right.
  - intros [= <-]. tauto.
Qed.

Lemma CreateTemp_try_error_kind (fs : OS.FS) pre suf randoms e :
  OS.CreateTemp_try fs pre suf randoms = inl e -> exists pkg m, e = LibError pkg m.
Proof.
  induction randoms as [|r rest IH]; simpl.
  - intros [= <-]. by do 2 eexists.
  - destruct (fs !! _); [done|done].
Qed.

(** The errors [SaveFile] returns, for a stream whose own error, if it has
    one, is a library's. *)
Lemma SaveFile_error_kinds s (fs : OS.FS) src originalName env e fs' src' :
  (forall e0, IO.failure src = Some e0 -> exists pkg m, e0 = LibError pkg m) ->
  SaveFile sha256_Sum zip_NewReader json_Decode s fs src originalName env = (inl e, fs', src') ->
  e = ErrFileTooLarge \/ e = ErrInvalidPackage \/ e = ErrNoManifest \/
  e = ErrSymlinkDetected \/
  (exists msg pkg m, e = Errorf_w msg (LibError pkg m)) \/
  e = Errorf "manifest must contain name and slug".
Proof.
  intros Hsrc.
  destruct (OS.CreateTemp fs (uploadDir s) "upload-*.zip" (tempNames env))
    as [e0|[tmpPath fs1]] eqn:Htmp.
  - unfold SaveFile. rewrite Htmp. intros [= <- _ _].
    unfold OS.CreateTemp in Htmp. destruct (default _ _) as [pre suf].
    apply CreateTemp_try_error_kind in Htmp as (pkg & m & ->).
    do 4 right. left. by do 3 eexists.
  - rewrite (SaveFile_stages _ _ _ _ _ _ _ _ _ _ Htmp).
    destruct (if _ <=? _ then None else IO.failure src) as [e1|] eqn:Herr.
    { intros [= <- _ _]. destruct (_ <=? _); [done|].
      apply Hsrc in Herr as (pkg & m & ->). do 4 right. left. by do 3 eexists. }
    destruct (maxFileSize s <? _); [intros [= <- _ _]; by left|].
    destruct (validatePackage _ _ _ _) as [e1|m] eqn:Hval; [|done].
    intros [= <- _ _]. apply validatePackage_error_kinds in Hval. tauto.
Qed.

Lemma State_eta (st : State) : {| files := files st; db := db st |} = st.
Proof. by destruct st. Qed.

(** X15.  How [Create] answers an upload that [SaveFile] refused, for a
    stream whose own error, if any, is a library's.  There are four
    answers and no other: 413 for a file too large; 400 with the text of
    the error for an invalid package and for a missing manifest; and 500
    with [failed to save file] for everything else, which includes an
    archive with a symbolic link, a manifest that does not decode and a
    manifest without name or slug.  The state is as before the request. *)
Theorem X15_refused_upload_answers (h : SkillHandler S) (st : State) (r : Request)
    (env : Entropy) (uid : Z) (file : IO.Reader)
    (err : error) (fs1 : OS.FS) (rest : IO.Reader) :
  userID r = Some uid ->
  parseMultipartForm r = None ->
  formFile r = inr file ->
  (forall e0, IO.failure file = Some e0 -> exists pkg m, e0 = LibError pkg m) ->
  SaveFile sha256_Sum zip_NewReader json_Decode (storage h) (files st) file "upload.zip" env
    = (inl err, fs1, rest) ->
  let create := Create sha256_Sum zip_NewReader json_Decode json_Marshal h st r env in
  create.2 = st /\
  (err = ErrFileTooLarge /\
     create.1 = writeJSON 413 (ErrorResponse "file exceeds 10MB limit")
   \/ err = ErrInvalidPackage /\
     create.1 = writeJSON 400 (ErrorResponse "invalid skill package")
   \/ err = ErrNoManifest /\
     create.1 = writeJSON 400 (ErrorResponse "manifest.json not found in package")
   \/ (err = ErrSymlinkDetected \/
       (exists msg pkg m, err = Errorf_w msg (LibError pkg m)) \/
       err = Errorf "manifest must contain name and slug") /\
     create.1 = writeJSON 500 (ErrorResponse "failed to save file")).
Proof.
  intros Huid Hparse Hfile Hsrc Hsave create. subst create.
  unfold Create. rewrite Huid, Hparse, Hfile, Hsave.
  pose proof (SaveFile_error_restores _ _ _ _ _ _ _ _ _ _ _ Hsave) as ->.
  rewrite State_eta.
  apply (SaveFile_error_kinds _ _ _ _ _ _ _ _ Hsrc) in Hsave
    as [->|[->|[->|[->|[(msg & pkg & m & ->)| ->]]]]].
  - split; [done|]. left. done.
  - split; [done|]. right; left. done.
  - split; [done|]. do 2 right; left. done.
  - split; [done|]. do 3 right. split; [by left|done].
  - rewrite !Is_Errorf_w, !Is_LibError by done. split; [done|].
    do 3 right. split; [right; left; by do 3 eexists|done].
  - split; [done|]. do 3 right. split; [by do 2 right|done].
Qed.

(** X16.  What a 201 from [Create] means.  The body is the new record; it
    is the one row added to the table, under the next identifier; its
    author is the caller, who is a user; its slug was free, and neither its
    slug nor its name is empty; it is marked clean and not featured; and
    the file at its path holds exactly the bytes that were uploaded, with
    the digest the record carries (for a size limit below the largest
    [int64]). *)
Theorem X16_created_record (h : SkillHandler S) (st : State) (r : Request)
    (env : Entropy) (resp : Response) (st' : State) :
  GoInt.min_int <= maxFileSize (storage h) < GoInt.max_int ->
  Create sha256_Sum zip_NewReader json_Decode json_Marshal h st r env = (resp, st') ->
  status resp = StatusCreated ->
  exists skill file,
    body resp = SkillResponse skill /\
    formFile r = inr file /\
    db st' = {| Repository.users := Repository.users (db st);
                Repository.skills := Repository.skills (db st) ++ [skill];
                Repository.lastID := Repository.lastID (db st) + 1 |} /\
    Model.ID skill = Repository.lastID (db st) + 1 /\
    userID r = Some (Model.AuthorID skill) /\
    Model.AuthorID skill ∈ Repository.users (db st) /\
    ~ In (Model.Slug skill) (map Model.Slug (Repository.skills (db st))) /\
    Model.Slug skill <> "" /\ Model.Name skill <> "" /\
    Model.ScanStatus skill = "clean" /\ Model.IsFeatured skill = false /\
    files st' = <[Model.FilePath skill := IO.pending file]> (files st) /\
    Model.FileHash skill = Hex.EncodeToString (sha256_Sum (IO.pending file)).
Proof.
  intros Hmax. unfold Create.
  destruct (userID r) as [uid|]; [|by intros [= <- _]].
  destruct (parseMultipartForm r); [by intros [= <- _]|].
  destruct (formFile r) as [e|file]; [by intros [= <- _]|].
  destruct (SaveFile _ _ _ _ _ _ _ _) as [[[err|[[filePath fileHash] manifest]] fs1] rest]
    eqn:Hsave.
  { repeat case_match; by intros [= <- _]. }
  destruct (Scanner.Scan _ _ _) as [scanResult err].
  destruct (_ || _); [by intros [= <- _]|].
  destruct (Repository.Create _ _) as [[[e|] db1] skill'] eqn:Hins; [by intros [= <- _]|].
  intros [= <- <-] _. exists skill', file.
  unfold Repository.Create in Hins.
  case_bool_decide as Hslug; [done|]. case_bool_decide as Huser; [|done].
  injection Hins as <- <-. simpl in *.
  assert (exists tmpPath fs0,
    OS.CreateTemp (files st) (uploadDir (storage h)) "upload-*.zip" (tempNames env)
      = inr (tmpPath, fs0)) as (tmpPath & fs0 & Htmp).
  { destruct (OS.CreateTemp _ _ _ _) as [e0|[tmpPath fs0]] eqn:Htmp; [|by eauto].
    unfold SaveFile in Hsave. by rewrite Htmp in Hsave. }
  rewrite (SaveFile_stages _ _ _ _ _ _ _ _ _ _ Htmp) in Hsave.
  destruct (if _ <=? _ then None else IO.failure file) eqn:Herr; [done|].
  destruct (Z.ltb_spec (maxFileSize (storage h))
              (Z.of_nat (IO.consumed (GoInt.wrap (maxFileSize (storage h) + 1))
                                     (IO.pending file)))) as [|Hfit]; [done|].
  destruct (validatePackage _ _ _ _) as [e1|m] eqn:Hval; [done|].
  injection Hsave as <- <- <- <- <-.
  assert (IO.consumed (GoInt.wrap (maxFileSize (storage h) + 1)) (IO.pending file)
          = length (IO.pending file)) as Hall.
  { rewrite wrap_id in *
      by (unfold GoInt.in_range, GoInt.min_int, GoInt.max_int in *; lia).
    unfold IO.consumed in *. lia. }
  rewrite Hall, firstn_all in *.
  apply validatePackage_accepts in Hval as (_ & _ & _ & _ & _ & _ & _ & _ & _ & _ & Hn & Hs).
  repeat (split; [done|]).
  split.
  { intros Hin. apply Hslug, Exists_exists. apply in_map_iff in Hin as (row & Hrow & Hin).
    exists row. split; [by apply list_elem_of_In|done]. }
  done.
Qed.


(** Where an accepted upload is stored. *)
Lemma SaveFile_success_path s (fs : OS.FS) src originalName env path hash manifest fs' src' :
  SaveFile sha256_Sum zip_NewReader json_Decode s fs src originalName env
    = (inr (path, hash, manifest), fs', src') ->
  path = Filepath.Join (uploadDir s) (newUUID env +:+ ".zip") /\ path <> "" /\
  exists data, fs' = <[path := data]> fs.
Proof.
  intros Hsave.
  destruct (OS.CreateTemp fs (uploadDir s) "upload-*.zip" (tempNames env))
    as [e0|[tmpPath fs1]] eqn:Htmp.
  { unfold SaveFile in Hsave. by rewrite Htmp in Hsave. }
  rewrite (SaveFile_stages _ _ _ _ _ _ _ _ _ _ Htmp) in Hsave.
  destruct (if _ <=? _ then None else IO.failure src); [done|].
  destruct (maxFileSize s <? _); [done|].
  destruct (validatePackage _ _ _ _); [done|].
  injection Hsave as <- <- <- <- <-.
  split; [done|]. split; [apply Join_nonempty, zip_name_nonempty|by eexists].
Qed.

Lemma Delete_after_insert (fs : OS.FS) path data :
  path <> "" -> (Service.Delete (<[path := data]> fs) path).2 = delete path fs.
Proof.
  intros Hpath. unfold Service.Delete, OS.Remove.
  rewrite bool_decide_eq_false_2 by done.
  by rewrite lookup_insert_eq, delete_insert_eq.
Qed.

(** X17.  Every answer of [Create] other than 201 leaves the table as it
    was, and every file other than one at the path the upload is stored
    at; when there was no file at that path, the whole state is as before
    the request. *)
Theorem X17_no_record_without_created (h : SkillHandler S) (st : State) (r : Request)
    (env : Entropy) (resp : Response) (st' : State) :
  Create sha256_Sum zip_NewReader json_Decode json_Marshal h st r env = (resp, st') ->
  status resp <> StatusCreated ->
  let finalPath := Filepath.Join (uploadDir (storage h)) (newUUID env +:+ ".zip") in
  db st' = db st /\
  (forall path, path <> finalPath -> files st' !! path = files st !! path) /\
  (files st !! finalPath = None -> st' = st).
Proof.
  unfold Create.
  destruct (userID r) as [uid|]; [|by intros [= <- <-]].
  destruct (parseMultipartForm r); [by intros [= <- <-]|].
  destruct (formFile r) as [e|file]; [by intros [= <- <-]|].
  destruct (SaveFile _ _ _ _ _ _ _ _) as [[[err|[[filePath fileHash] manifest]] fs1] rest]
    eqn:Hsave.
  { pose proof (SaveFile_error_restores _ _ _ _ _ _ _ _ _ _ _ Hsave) as ->.
    rewrite State_eta. repeat case_match; by intros [= <- <-]. }
  apply SaveFile_success_path in Hsave as (-> & Hpath & data & ->).
  rewrite Delete_after_insert by done.
  assert (forall resp0,
    (resp0, {| files := delete (Filepath.Join (uploadDir (storage h)) (newUUID env +:+ ".zip"))
                          (files st);
               db := db st |}) = (resp, st') ->
    db st' = db st /\
    (forall path,
       path <> Filepath.Join (uploadDir (storage h)) (newUUID env +:+ ".zip") ->
       files st' !! path = files st !! path) /\
    (files st !! Filepath.Join (uploadDir (storage h)) (newUUID env +:+ ".zip") = None ->
     st' = st)) as Hrolled.
  { intros resp0 [= _ <-]. simpl. split; [done|]. split.
    - intros path Hne. by rewrite lookup_delete_ne.
    - intros Hfresh. rewrite delete_id by done. apply State_eta. }
  destruct (Scanner.Scan _ _ _) as [scanResult err].
  destruct (_ || _); [by intros Heq _; apply (Hrolled _ Heq)|].
  destruct (Repository.Create _ _) as [[[e|] db1] skill'] eqn:Hins.
  - rewrite (Create_error_keeps_db _ _ _ _ _ Hins). by intros Heq _; apply (Hrolled _ Heq).
  - by intros [= <- _] Hstatus.
Qed.

(** X18.  With the scanner that is wired in, [NoopScanner], the scan
    rejects nothing: an upload that [SaveFile] stored is answered with 201,
    or with 409 when the insertion fails, which it does exactly when the
    slug is taken or the caller is no user. *)
Theorem X18_noop_scanner_rejects_nothing (storage : StorageService) (st : State)
    (r : Request) (env : Entropy) (uid : Z) (file : IO.Reader)
    (filePath fileHash : string) (manifest : SkillManifest)
    (fs1 : OS.FS) (rest : IO.Reader) :
  userID r = Some uid ->
  parseMultipartForm r = None ->
  formFile r = inr file ->
  SaveFile sha256_Sum zip_NewReader json_Decode storage (files st) file "upload.zip" env
    = (inr (filePath, fileHash, manifest), fs1, rest) ->
  let h := {| Handler.storage := storage; Handler.scanner := Scanner.NewNoopScanner |} in
  let create :=
    Create (H := Scanner.NoopScanner_Scan)
      sha256_Sum zip_NewReader json_Decode json_Marshal h st r env in
  let taken := Exists (fun row => Model.Slug row = Slug manifest) (Repository.skills (db st)) in
  (taken \/ uid ∉ Repository.users (db st) ->
     create.1 = writeJSON 409 (ErrorResponse "skill with this slug already exists")) /\
  (~ taken -> uid ∈ Repository.users (db st) -> status create.1 = 201).
Proof.
  intros Huid Hparse Hfile Hsave h create taken. subst create h.
  unfold Create. rewrite Huid, Hparse, Hfile. cbn [Handler.storage Handler.scanner].
  rewrite Hsave. unfold Scanner.Scan, Scanner.NoopScanner_Scan.
  cbn [Scanner.Clean negb]. rewrite bool_decide_eq_false_2 by (by intros []).
  cbn [orb]. unfold Repository.Create. cbn [newSkill Model.Slug Model.AuthorID].
  split.
  - intros [Htaken|Huser].
    + by rewrite bool_decide_eq_true_2.
    + case_bool_decide; [done|]. by rewrite bool_decide_eq_false_2.
  - intros Hfree Huser.
    rewrite bool_decide_eq_false_2 by done. by rewrite bool_decide_eq_true_2.
Qed.

End HandlerMore.

(** ** The table of skills *)

Section RepositoryMore.
Import Model Repository Schema.

Lemma set_ID_fields s id :
  ID (set_ID s id) = id /\ Slug (set_ID s id) = Slug s /\
  AuthorID (set_ID s id) = AuthorID s /\ FilePath (set_ID s id) = FilePath s.
Proof. done. Qed.

Lemma Create_keeps_consistent db s :
  consistent db -> consistent (Create db s).1.2.
Proof.
  intros [Hslugs Hids Hlast Hgiven Hauthors]. unfold Create.
  case_bool_decide as Hslug; [done|]. case_bool_decide as Huser; [|done].
  split; simpl.
  - rewrite map_app. simpl. apply NoDup_app. split; [done|]. split; [|apply NoDup_singleton].
    intros slug Hin ->%list_elem_of_singleton. apply Hslug, Exists_exists.
    apply list_elem_of_fmap in Hin as (row & Hrow & Hin). by exists row.
  - rewrite map_app. simpl. apply NoDup_app. split; [done|]. split; [|apply NoDup_singleton].
    intros id Hin ->%list_elem_of_singleton.
    apply list_elem_of_fmap in Hin as (row & Hrow & Hin).
    rewrite Forall_forall in Hgiven. apply Hgiven in Hin. lia.
  - lia.
  - apply Forall_app. split.
    + eapply Forall_impl; [exact Hgiven|]. simpl. intros row. lia.
    + apply Forall_singleton. simpl. lia.
  - apply Forall_app. split; [done|]. by apply Forall_singleton.
Qed.

(** X19.  [SkillRepository.Create] on a table that meets its schema.  The
    insertion succeeds exactly when the slug is free and the author is a
    user.  When it fails, the table and the record passed in are as they
    were.  When it succeeds, the record gets an identifier no row had, it
    is the one row added, and the others keep their order.  Either way the
    table meets its schema afterwards. *)
Theorem X19_insertion_keeps_schema (db : DB) (s : Skill) :
  consistent db ->
  let taken := Exists (fun row => Slug row = Slug s) (skills db) in
  let err := (Create db s).1.1 in
  let db' := (Create db s).1.2 in
  let s' := (Create db s).2 in
  consistent db' /\
  (err = None <-> ~ taken /\ AuthorID s ∈ users db) /\
  (err <> None -> db' = db /\ s' = s) /\
  (err = None ->
     s' = set_ID s (lastID db + 1) /\ skills db' = skills db ++ [s'] /\
     ~ In (ID s') (map ID (skills db)) /\ users db' = users db).
Proof.
  intros Hdb taken err db' s'.
  split; [by apply Create_keeps_consistent|].
  subst err db' s' taken. unfold Create.
  case_bool_decide as Hslug; [simpl; split; [|done]; split; [done|tauto]|].
  case_bool_decide as Huser; simpl; [|split; [|done]; split; [done|tauto]].
  split; [done|]. split; [done|]. intros _.
  split; [done|]. split; [done|]. split; [|done].
  intros Hin. apply in_map_iff in Hin as (row & Hrow & Hin).
  destruct Hdb as [_ _ _ Hgiven _]. rewrite Forall_forall in Hgiven.
  apply list_elem_of_In, Hgiven in Hin. lia.
Qed.

End RepositoryMore.

Section HandlerInvariants.
Import Errors Service Handler Schema.

Variable sha256_Sum : list byte -> list byte.
Variable zip_NewReader : list byte -> string + list Zip.File.
Variable json_Decode : list byte -> string + SkillManifest.
Variable json_Marshal : list string -> string.
Context {S : Type} `{Scanner.Scanner S}.

(** X20.  What [Create] keeps from request to request, whatever it
    answers, provided the fresh identifier names no file yet: the table
    meets its schema, and every row of it has its artifact on disk. *)
Theorem X20_create_keeps_records_and_files (h : SkillHandler S) (st : State)
    (r : Request) (env : Entropy) :
  consistent (db st) ->
  stored st ->
  files st !! Filepath.Join (uploadDir (storage h)) (newUUID env +:+ ".zip") = None ->
  let st' := (Create sha256_Sum zip_NewReader json_Decode json_Marshal h st r env).2 in
  consistent (db st') /\ stored st'.
Proof.
  intros Hdb Hstored Hfresh st'. subst st'. unfold Create.
  destruct (userID r) as [uid|]; [|done].
  destruct (parseMultipartForm r); [done|].
  destruct (formFile r) as [e|file]; [done|].
  destruct (SaveFile _ _ _ _ _ _ _ _) as [[[err|[[filePath fileHash] manifest]] fs1] rest]
    eqn:Hsave.
  { pose proof (SaveFile_error_restores _ _ _ _ _ _ _ _ _ _ _ Hsave) as ->.
    rewrite State_eta. by repeat case_match. }
  apply SaveFile_success_path in Hsave as (-> & Hpath & data & ->).
  rewrite Delete_after_insert, delete_id by done. rewrite State_eta.
  destruct (Scanner.Scan _ _ _) as [scanResult err].
  destruct (_ || _); [done|].
  destruct (Repository.Create _ _) as [[[e|] db1] skill'] eqn:Hins.
  - rewrite (Create_error_keeps_db _ _ _ _ _ Hins), State_eta. done.
  - simpl. split.
    + match type of Hins with
      | Repository.Create _ ?s = _ =>
          pose proof (Create_keeps_consistent (db st) s Hdb) as Hkeeps
      end.
      by rewrite Hins in Hkeeps.
    + unfold Repository.Create in Hins. repeat case_bool_decide; try done.
      injection Hins as <- <-. unfold stored in *. simpl.
      apply Forall_app. split.
      * eapply Forall_impl; [exact Hstored|]. simpl. intros row [d Hd].
        destruct (decide (Model.FilePath row
                          = Filepath.Join (uploadDir (storage h)) (newUUID env +:+ ".zip")))
          as [->|Hne]; [by rewrite lookup_insert_eq|].
        rewrite lookup_insert_ne by done. by exists d.
      * apply Forall_singleton. simpl. by rewrite lookup_insert_eq.
Qed.

End HandlerInvariants.

Section HandlerMoreExamples.
Import Errors Service Handler Schema Fixtures.

Local Abbreviation Create' sc :=
  (Create sha256_Sum zip_NewReader json_Decode json_Marshal
     {| Handler.storage := Fixtures.storage; Handler.scanner := sc |}).
Local Abbreviation SaveFile' :=
  (SaveFile sha256_Sum zip_NewReader json_Decode Fixtures.storage).

Lemma db_demo_taken_consistent : consistent db_demo_taken.
Proof.
  split; simpl.
  - apply NoDup_singleton.
  - apply NoDup_singleton.
  - done.
  - by apply Forall_singleton.
  - apply Forall_singleton. simpl. by apply elem_of_singleton.
Qed.

(** X15 on an archive with a symbolic link: the answer is 500. *)
Lemma X15_refused_upload_answers_witness :
  let st := {| files := ∅; db := db_empty |} in
  let r := request (archive "symlink") in
  let file := upload (archive "symlink") in
  let create := Create' AlwaysClean st r entropy in
  userID r = Some 1 /\
  parseMultipartForm r = None /\
  formFile r = inr file /\
  (forall e0, IO.failure file = Some e0 -> exists pkg m, e0 = LibError pkg m) /\
  SaveFile' (files st) file "upload.zip" entropy = (inl ErrSymlinkDetected, ∅, upload []) /\
  create.2 = st /\
  (ErrSymlinkDetected = ErrFileTooLarge /\
     create.1 = writeJSON 413 (ErrorResponse "file exceeds 10MB limit")
   \/ ErrSymlinkDetected = ErrInvalidPackage /\
     create.1 = writeJSON 400 (ErrorResponse "invalid skill package")
   \/ ErrSymlinkDetected = ErrNoManifest /\
     create.1 = writeJSON 400 (ErrorResponse "manifest.json not found in package")
   \/ (ErrSymlinkDetected = ErrSymlinkDetected \/
       (exists msg pkg m, ErrSymlinkDetected = Errorf_w msg (LibError pkg m)) \/
       ErrSymlinkDetected = Errorf "manifest must contain name and slug") /\
     create.1 = writeJSON 500 (ErrorResponse "failed to save file")).
Proof.
  intros st r file create.
  assert (userID r = Some 1) as H1 by reflexivity.
  assert (parseMultipartForm r = None) as H2 by reflexivity.
  assert (formFile r = inr file) as H3 by reflexivity.
  assert (forall e0, IO.failure file = Some e0 -> exists pkg m, e0 = LibError pkg m) as H4
    by (simpl; discriminate).
  assert (SaveFile' (files st) file "upload.zip" entropy
          = (inl ErrSymlinkDetected, ∅, upload [])) as H5 by reflexivity.
  split; [exact H1|]. split; [exact H2|]. split; [exact H3|]. split; [exact H4|].
  split; [exact H5|].
  exact (X15_refused_upload_answers sha256_Sum zip_NewReader json_Decode json_Marshal
           {| Handler.storage := Fixtures.storage; Handler.scanner := AlwaysClean |}
           st r entropy 1 file _ _ _ H1 H2 H3 H4 H5).
Defined.

(** X16 on the sample archive and the empty table. *)
Lemma X16_created_record_witness :
  let st := {| files := ∅; db := db_empty |} in
  let r := request (archive "demo") in
  let skill :=
    Model.set_ID
      (newSkill (manifest "Demo" "demo" "1.0.0") 1 finalPath "6f6d6564" "clean" "null") 1 in
  let resp := writeJSON 201 (SkillResponse skill) in
  let st' := {| files := {[ finalPath := archive "demo" ]};
                db := {| Repository.users := {[ 1 ]}; Repository.skills := [skill];
                         Repository.lastID := 1 |} |} in
  (GoInt.min_int <= maxFileSize Fixtures.storage < GoInt.max_int) /\
  Create' AlwaysClean st r entropy = (resp, st') /\
  status resp = StatusCreated /\
  exists skill0 file,
    body resp = SkillResponse skill0 /\
    formFile r = inr file /\
    db st' = {| Repository.users := Repository.users (db st);
                Repository.skills := Repository.skills (db st) ++ [skill0];
                Repository.lastID := Repository.lastID (db st) + 1 |} /\
    Model.ID skill0 = Repository.lastID (db st) + 1 /\
    userID r = Some (Model.AuthorID skill0) /\
    Model.AuthorID skill0 ∈ Repository.users (db st) /\
    ~ In (Model.Slug skill0) (map Model.Slug (Repository.skills (db st))) /\
    Model.Slug skill0 <> "" /\ Model.Name skill0 <> "" /\
    Model.ScanStatus skill0 = "clean" /\ Model.IsFeatured skill0 = false /\
    files st' = <[Model.FilePath skill0 := IO.pending file]> (files st) /\
    Model.FileHash skill0 = Hex.EncodeToString (sha256_Sum (IO.pending file)).
Proof.
  intros st r skill resp st'.
  assert (GoInt.min_int <= maxFileSize Fixtures.storage < GoInt.max_int) as H1
    by (vm_compute; split; congruence).
  assert (Create' AlwaysClean st r entropy = (resp, st')) as H2 by reflexivity.
  assert (status resp = StatusCreated) as H3 by reflexivity.
  split; [exact H1|]. split; [exact H2|]. split; [exact H3|].
  exact (X16_created_record sha256_Sum zip_NewReader json_Decode json_Marshal
           {| Handler.storage := Fixtures.storage; Handler.scanner := AlwaysClean |}
           st r entropy resp st' H1 H2 H3).
Defined.

(** X17 on the sample archive and a scanner that flags it. *)
Lemma X17_no_record_without_created_witness :
  let st := {| files := ∅; db := db_empty |} in
  let r := request (archive "demo") in
  let resp := writeJSON 400 (ErrorResponse "file flagged by security scan") in
  Create' AlwaysFlag st r entropy = (resp, st) /\
  status resp <> StatusCreated /\
  db st = db st /\
  (forall path, path <> Filepath.Join (uploadDir Fixtures.storage) (newUUID entropy +:+ ".zip") ->
     files st !! path = files st !! path) /\
  (files st !! Filepath.Join (uploadDir Fixtures.storage) (newUUID entropy +:+ ".zip") = None ->
   st = st).
Proof.
  intros st r resp.
  assert (Create' AlwaysFlag st r entropy = (resp, st)) as H1 by reflexivity.
  assert (status resp <> StatusCreated) as H2 by (vm_compute; congruence).
  split; [exact H1|]. split; [exact H2|].
  exact (X17_no_record_without_created sha256_Sum zip_NewReader json_Decode json_Marshal
           {| Handler.storage := Fixtures.storage; Handler.scanner := AlwaysFlag |}
           st r entropy resp st H1 H2).
Defined.

(** X18 on the sample archive and the empty table. *)
Lemma X18_noop_scanner_rejects_nothing_witness :
  let st := {| files := ∅; db := db_empty |} in
  let r := request (archive "demo") in
  let file := upload (archive "demo") in
  let m := manifest "Demo" "demo" "1.0.0" in
  let create :=
    Create (H := Scanner.NoopScanner_Scan) sha256_Sum zip_NewReader json_Decode json_Marshal
      {| Handler.storage := Fixtures.storage; Handler.scanner := Scanner.NewNoopScanner |}
      st r entropy in
  let taken := Exists (fun row => Model.Slug row = Slug m) (Repository.skills (db st)) in
  userID r = Some 1 /\
  parseMultipartForm r = None /\
  formFile r = inr file /\
  SaveFile' (files st) file "upload.zip" entropy
    = (inr (finalPath, "6f6d6564", m), {[ finalPath := archive "demo" ]}, upload []) /\
  (taken \/ 1 ∉ Repository.users (db st) ->
     create.1 = writeJSON 409 (ErrorResponse "skill with this slug already exists")) /\
  (~ taken -> 1 ∈ Repository.users (db st) -> status create.1 = 201).
Proof.
  intros st r file m create taken.
  assert (userID r = Some 1) as H1 by reflexivity.
  assert (parseMultipartForm r = None) as H2 by reflexivity.
  assert (formFile r = inr file) as H3 by reflexivity.
  assert (SaveFile' (files st) file "upload.zip" entropy
          = (inr (finalPath, "6f6d6564", m), {[ finalPath := archive "demo" ]}, upload []))
    as H4 by reflexivity.
  split; [exact H1|]. split; [exact H2|]. split; [exact H3|]. split; [exact H4|].
  exact (X18_noop_scanner_rejects_nothing sha256_Sum zip_NewReader json_Decode json_Marshal
           Fixtures.storage st r entropy 1 file _ _ _ _ _ H1 H2 H3 H4).
Defined.

(** X19 on a table in which the slug is taken. *)
Lemma X19_insertion_keeps_schema_witness :
  let s := newSkill (manifest "Demo" "demo" "1.0.0") 1 finalPath "6f6d6564" "clean" "null" in
  let taken :=
    Exists (fun row => Model.Slug row = Model.Slug s) (Repository.skills db_demo_taken) in
  let err := (Repository.Create db_demo_taken s).1.1 in
  let db' := (Repository.Create db_demo_taken s).1.2 in
  let s' := (Repository.Create db_demo_taken s).2 in
  consistent db_demo_taken /\
  consistent db' /\
  (err = None <-> ~ taken /\ Model.AuthorID s ∈ Repository.users db_demo_taken) /\
  (err <> None -> db' = db_demo_taken /\ s' = s) /\
  (err = None ->
     s' = Model.set_ID s (Repository.lastID db_demo_taken + 1) /\
     Repository.skills db' = Repository.skills db_demo_taken ++ [s'] /\
     ~ In (Model.ID s') (map Model.ID (Repository.skills db_demo_taken)) /\
     Repository.users db' = Repository.users db_demo_taken).
Proof.
  intros s taken err db' s'.
  split; [exact db_demo_taken_consistent|].
  exact (X19_insertion_keeps_schema db_demo_taken s db_demo_taken_consistent).
Defined.

(** X20 on a table with one row, whose artifact is on disk. *)
Lemma X20_create_keeps_records_and_files_witness :
  let st := {| files := {[ Model.FilePath skill_demo := archive "demo" ]};
               db := db_demo_taken |} in
  let h := {| Handler.storage := Fixtures.storage; Handler.scanner := AlwaysClean |} in
  let st' :=
    (Create sha256_Sum zip_NewReader json_Decode json_Marshal h st
       (request (archive "two-manifests")) entropy).2 in
  consistent (db st) /\
  stored st /\
  files st !! Filepath.Join (uploadDir (Handler.storage h)) (newUUID entropy +:+ ".zip")
    = None /\
  consistent (db st') /\ stored st'.
Proof.
  intros st h st'.
  assert (stored st) as H2 by (apply Forall_singleton; eexists; reflexivity).
  assert (files st !! Filepath.Join (uploadDir (Handler.storage h)) (newUUID entropy +:+ ".zip")
          = None) as H3 by reflexivity.
  split; [exact db_demo_taken_consistent|]. split; [exact H2|]. split; [exact H3|].
  exact (X20_create_keeps_records_and_files sha256_Sum zip_NewReader json_Decode
           json_Marshal h st (request (archive "two-manifests")) entropy
           db_demo_taken_consistent H2 H3).
Defined.

End HandlerMoreExamples.

(** ** The rate limit in front of a handler *)

Section RateLimitMore.
Import Middleware HTTP RateLimit.

Context {A : Type}.
Variable next : Request -> A.

(** Requests of one key are a run of [allow] calls for that key. *)
Lemma serve_one_key rl key requests :
  Forall (fun q => ip q.1 = key) requests ->
  (serve next rl requests).1
    = zip_with (fun (q : Request * ticks) (ok : bool) =>
                  if ok then inr (next q.1)
                  else inl (Error rate_limit_exceeded StatusTooManyRequests))
               requests (allow_run rl key (map snd requests)).1 /\
  (serve next rl requests).2 = (allow_run rl key (map snd requests)).2.
Proof.
  revert rl. induction requests as [|[r now] rest IH]; intros rl Hkey; [done|].
  apply Forall_cons in Hkey as [Hr Hrest]. simpl in Hr.
  simpl. unfold ServeHTTP. rewrite Hr.
  destruct (allow rl key now) as [ok rl1].
  specialize (IH rl1 Hrest).
  destruct ok; simpl;
    destruct (serve next rl1 rest) as [outs rl2];
    destruct (allow_run rl1 key (map snd rest)) as [bs rl3];
    simpl in *; by destruct IH as [-> ->].
Qed.

(** X21.  One client against the limit.  Of the requests of one key (one
    remote address without the header, or one value of [X-Forwarded-For],
    whatever the remote addresses) that open a window and fall into it, the
    first [limit] are passed on to the handler behind the middleware; the
    next one is answered with 429 and the refusal text, sent as plain text,
    and the handler behind is not run for it. *)
Theorem X21_limit_then_429 (rl : rateLimiter) (key : string)
    (q0 : Request * ticks) (qs : list (Request * ticks)) :
  1 <= limit rl < GoInt.max_int ->
  Forall (fun q => ip q.1 = key) (q0 :: qs) ->
  no_live_window rl key q0.2 ->
  length qs = Z.to_nat (limit rl) ->
  Forall (fun q => t_check q.2 <= Time.Add (t_install q0.2) (window rl)) qs ->
  (serve next rl (q0 :: qs)).1
    = map (fun q => inr (next q.1)) (take (Z.to_nat (limit rl)) (q0 :: qs))
      ++ [inl {| code := 429; contentType := "text/plain; charset=utf-8";
                 text := rate_limit_exceeded +:+ newline |}].
Proof.
  intros Hlimit Hkey Hfresh Hlen Hin.
  destruct (serve_one_key rl key _ Hkey) as [-> _].
  assert (Forall (fun t => t_check t <= Time.Add (t_install q0.2) (window rl)) (map snd qs))
    as Hin' by (by apply Forall_fmap).
  assert (length (map snd qs) = Z.to_nat (limit rl)) as Hlen'
    by (by rewrite length_map).
  destruct (allow_run_one_window rl key q0.2 (map snd qs) Hlimit Hfresh Hlen' Hin')
    as [Hrun _].
  change (map snd (q0 :: qs)) with (q0.2 :: map snd qs). rewrite Hrun.
  clear Hrun Hkey Hfresh Hin Hin' Hlen'.
  remember (q0 :: qs) as l eqn:El.
  assert (length l = S (Z.to_nat (limit rl))) as Hl by (subst l; simpl; lia).
  clear El Hlen Hlimit. revert l Hl.
  induction (Z.to_nat (limit rl)) as [|n IH]; intros l Hl.
  - destruct l as [|q [|? ?]]; try done.
  - destruct l as [|q l]; [done|]. simpl in Hl. injection Hl as Hl.
    simpl. f_equal. by apply IH.
Qed.

(** X22.  Requests under keys the limiter has not seen, each key only
    once, are all passed on, whatever the limit, the times and the remote
    addresses: a client that sends a new value of [X-Forwarded-For] with
    every request is never refused. *)
Theorem X22_new_keys_are_never_refused (rl : rateLimiter)
    (requests : list (Request * ticks)) :
  NoDup (map (fun q => ip q.1) requests) ->
  Forall (fun q => visitors rl !! ip q.1 = None) requests ->
  (serve next rl requests).1 = map (fun q => inr (next q.1)) requests.
Proof.
  revert rl. induction requests as [|[r now] rest IH]; intros rl Hnodup Hnew; [done|].
  apply NoDup_cons in Hnodup as [Hr Hnodup].
  apply Forall_cons in Hnew as [Hnone Hnew]. simpl in *.
  unfold ServeHTTP, allow. rewrite Hnone. simpl.
  specialize (IH (set_visitors rl (<[ip r := fresh_window rl now]> (visitors rl))) Hnodup).
  destruct (serve next _ rest) as [outs rl2]. simpl in *. f_equal. apply IH.
  apply Forall_forall. intros q Hq. simpl.
  rewrite lookup_insert_ne.
  - rewrite Forall_forall in Hnew. by apply Hnew.
  - intros Heq. apply Hr. apply list_elem_of_fmap. by exists q.
Qed.

End RateLimitMore.

(** ** The listing of skills *)

Section ListingMore.
Import Listing.

Variable Row : Type.
Variable sql_count : option string -> option string -> Errors.error + Z.
Variable sql_select :
  option string -> option string -> Order -> Errors.error + list (Errors.error + Row).
Variable strconv_Atoi : string -> Z * option Errors.error.

Local Abbreviation List' := (List Row sql_count sql_select strconv_Atoi).
Local Abbreviation failed :=
  (writeJSON 500 (ErrorResponse "failed to list skills") : Response Row).

(** Pages of [p] rows, one after the other, are a prefix of the rows. *)
Lemma pages_concat (rows : list Row) (p m : nat) :
  concat (map (fun i => take p (drop (i * p) rows)) (seq 0 m)) = take (m * p) rows.
Proof.
  induction m as [|m IH]; [done|].
  rewrite seq_S, map_app, concat_app, IH. simpl. rewrite app_nil_r.
  rewrite take_take_drop. f_equal. lia.
Qed.

(** Go's division of a count by a page size, rounded up as [List] does. *)
Lemma total_pages_ceiling (n p : Z) :
  0 <= n < GoInt.max_int -> 1 <= p ->
  (if 0 <? Z.rem n p then GoInt.wrap (Z.quot n p + 1) else Z.quot n p) = (n + p - 1) / p.
Proof.
  intros Hn Hp. rewrite Z.quot_div_nonneg, Z.rem_mod_nonneg by lia.
  pose proof (Z.div_mod n p ltac:(lia)) as Hdm.
  pose proof (Z.mod_pos_bound n p ltac:(lia)) as Hm.
  assert (0 <= n / p <= n) as Hq.
  { split; [apply Z.div_pos; lia|]. apply Z.div_le_upper_bound; nia. }
  destruct (Z.ltb_spec 0 (n mod p)).
  - rewrite wrap_id by (unfold GoInt.in_range, GoInt.min_int, GoInt.max_int in *; lia).
    apply (Z.div_unique _ _ _ (n mod p - 1)); lia.
  - apply (Z.div_unique _ _ _ (p - 1)); lia.
Qed.

(** Rows that all scan are returned as they are; a row that does not scan
    makes the loop return an error. *)
Lemma scan_rows_all (data acc : list Row) :
  scan_rows (map (@inr Errors.error Row) data) acc = inr (acc ++ data).
Proof.
  revert acc. induction data as [|s data IH]; intros acc; simpl.
  - by rewrite app_nil_r.
  - by rewrite IH, <- app_assoc.
Qed.

Lemma scan_rows_error (rows : list (Errors.error + Row)) (acc : list Row) :
  Exists (fun row => exists err, row = inl err) rows ->
  exists err, scan_rows rows acc = inl err.
Proof.
  intros Hex. revert acc.
  induction Hex as [row rows [err ->]|row rows Hex IH]; intros acc; simpl; [by eauto|].
  destruct row as [err|s]; [by eauto|apply IH].
Qed.

Lemma limit_offset_map (limit offset : Z) (rows : list Row) :
  limit_offset limit offset (map (@inr Errors.error Row) rows)
    = map (@inr Errors.error Row) (limit_offset limit offset rows).
Proof.
  unfold limit_offset. change (map inr rows) with (@inr Errors.error Row <$> rows).
  destruct (limit <? 0).
  - by rewrite fmap_drop.
  - rewrite <- fmap_drop. by rewrite fmap_take.
Qed.

(** X23.  A page of the listing, when the database answers both statements
    and every row scans, for a page size from 1 to 50 and a page number
    whose offset fits an [int].  The answer is 200; the data are the rows
    of that page in the order of the query, the other fields are the count,
    the page number, the page size and the count divided by the page size,
    rounded up.  The pages from 1 to that number of pages, one after the
    other, are all the rows, each once; a page after the last one is
    empty. *)
Theorem X23_listing_page (get : string -> string) (k p : Z) (rows : list Row) :
  let n := Z.of_nat (length rows) in
  (strconv_Atoi (get "page")).1 = k -> 1 <= k ->
  (strconv_Atoi (get "per_page")).1 = p -> 1 <= p <= 50 ->
  sql_count (condition (get "category")) (condition (get "q")) = inr n ->
  sql_select (condition (get "category")) (condition (get "q")) (orderBy (get "sort"))
    = inr (map inr rows) ->
  n < GoInt.max_int ->
  (k - 1) * p <= GoInt.max_int ->
  let pages := (n + p - 1) / p in
  let data := take (Z.to_nat p) (drop (Z.to_nat ((k - 1) * p)) rows) in
  List' get
    = writeJSON 200
        (Page {| Paginated.Data := data; Paginated.Total := n; Paginated.Page := k;
                 Paginated.PerPage := p; Paginated.TotalPages := pages |}) /\
  concat (map (fun i => take (Z.to_nat p) (drop (i * Z.to_nat p) rows))
              (seq 0 (Z.to_nat pages))) = rows /\
  (pages < k -> data = []).
Proof.
  intros n Hk Hk1 Hp Hp1 Hcount Hselect Hn Hoff pages data.
  assert (0 <= pages /\ n <= pages * p) as Hpages.
  { subst pages. pose proof (Z.div_mod (n + p - 1) p ltac:(lia)) as Hdm.
    pose proof (Z.mod_pos_bound (n + p - 1) p ltac:(lia)) as Hm.
    assert (0 <= (n + p - 1) / p) by (apply Z.div_pos; lia).
    nia. }
  split; [|split].
  - unfold List, Repository_List. rewrite Hk, Hp.
    cbn [Params.Page Params.PerPage Params.Category Params.Query Params.Sort].
    assert ((k <? 1) = false) as E1 by lia. assert ((p <? 1) = false) as E2 by lia.
    assert ((50 <? p) = false) as E3 by lia.
    rewrite ?E1, ?E2, ?E3. cbn [orb]. rewrite ?E1, ?E2, ?E3. cbn [orb].
    rewrite Hcount, Hselect.
    assert (GoInt.in_range ((k - 1) * p)) as Hin.
    { clear -Hk1 Hp1 Hoff. unfold GoInt.in_range, GoInt.min_int, GoInt.max_int in *. nia. }
    rewrite (wrap_id _ Hin), limit_offset_map, scan_rows_all.
    unfold limit_offset. rewrite (proj2 (Z.ltb_ge p 0)) by lia.
    rewrite total_pages_ceiling by (subst n; lia). done.
  - rewrite pages_concat. apply take_ge. fold n in Hpages |- *. nia.
  - intros Hlast. subst data. rewrite drop_ge; [by rewrite take_nil|].
    fold n in Hpages |- *. nia.
Qed.

(** X24.  A page size above 50, when the database answers both statements
    and every row scans.  The repository falls back to pages of 12 rows,
    but the handler reports the page size that was asked for and divides
    the count by it: the response names a page size its data do not have,
    and the pages it announces, one after the other, are only the first 12
    rows times the number of pages; when there are more than 12 rows, some
    rows are on none of the announced pages. *)
Theorem X24_page_size_above_50 (get : string -> string) (k p : Z) (rows : list Row) :
  let n := Z.of_nat (length rows) in
  (strconv_Atoi (get "page")).1 = k -> 1 <= k ->
  (strconv_Atoi (get "per_page")).1 = p -> 50 < p ->
  sql_count (condition (get "category")) (condition (get "q")) = inr n ->
  sql_select (condition (get "category")) (condition (get "q")) (orderBy (get "sort"))
    = inr (map inr rows) ->
  n < GoInt.max_int ->
  (k - 1) * 12 <= GoInt.max_int ->
  let pages := (n + p - 1) / p in
  List' get
    = writeJSON 200
        (Page {| Paginated.Data := take 12 (drop (Z.to_nat ((k - 1) * 12)) rows);
                 Paginated.Total := n; Paginated.Page := k; Paginated.PerPage := p;
                 Paginated.TotalPages := pages |}) /\
  concat (map (fun i => take 12 (drop (i * 12) rows)) (seq 0 (Z.to_nat pages)))
    = take (Z.to_nat pages * 12) rows /\
  (12 < n -> Z.of_nat (Z.to_nat pages * 12) < n).
Proof.
  intros n Hk Hk1 Hp Hp1 Hcount Hselect Hn Hoff pages.
  split; [|split].
  - unfold List, Repository_List. rewrite Hk, Hp.
    cbn [Params.Page Params.PerPage Params.Category Params.Query Params.Sort].
    assert ((k <? 1) = false) as E1 by lia. assert ((p <? 1) = false) as E2 by lia.
    assert ((50 <? p) = true) as E3 by lia.
    rewrite ?E1, ?E2, ?E3. cbn [orb]. rewrite ?E1, ?E2, ?E3. cbn [orb].
    rewrite Hcount, Hselect.
    assert (GoInt.in_range ((k - 1) * 12)) as Hin.
    { clear -Hk1 Hoff. unfold GoInt.in_range, GoInt.min_int, GoInt.max_int in *. lia. }
    rewrite (wrap_id _ Hin), limit_offset_map, scan_rows_all.
    unfold limit_offset. change (12 <? 0) with false. cbv iota.
    rewrite total_pages_ceiling by (subst n; lia). done.
  - apply pages_concat.
  - intros Hmany. subst pages.
    pose proof (Z.div_mod (n + p - 1) p ltac:(lia)) as Hdm.
    pose proof (Z.mod_pos_bound (n + p - 1) p ltac:(lia)) as Hm.
    assert (0 <= (n + p - 1) / p) as Hpos by (apply Z.div_pos; lia).
    remember ((n + p - 1) / p) as T eqn:ET. clear ET.
    rewrite Nat2Z.inj_mul, Z2Nat.id by lia.
    destruct (Z.le_gt_cases T 1) as [Hone|Htwo]; [lia|].
    assert ((T - 1) * 51 <= n - 1) by nia. lia.
Qed.

(** X25.  Every answer of [List], whatever the query string holds.  When
    the count fails, when the select fails, and when a row of the page that
    is asked for does not scan, the answer is 500 with [failed to list
    skills].  Otherwise it is 200 with the rows of the page, of which there
    are at most 50, with a page number and a page size of at least 1
    (values below 1, which is what text that is no number gives, stand for
    page 1 and for a page size of 12); and when the offset, the page number
    less one times the page size of the repository, wraps around to zero or
    below, the page is cut from the start of the rows. *)
Theorem X25_listing_answers (get : string -> string) :
  let page := (strconv_Atoi (get "page")).1 in
  let perPage := (strconv_Atoi (get "per_page")).1 in
  let size := if (perPage <? 1) || (50 <? perPage) then 12 else perPage in
  let offset := GoInt.wrap ((Z.max 1 page - 1) * size) in
  match sql_count (condition (get "category")) (condition (get "q")),
        sql_select (condition (get "category")) (condition (get "q")) (orderBy (get "sort"))
  with
  | inr total, inr rows =>
      let cut := limit_offset size offset rows in
      (Exists (fun row => exists err, row = inl err) cut -> List' get = failed) /\
      (forall data, cut = map inr data ->
         exists totalPages,
           List' get
             = writeJSON 200
                 (Page {| Paginated.Data := data; Paginated.Total := total;
                          Paginated.Page := Z.max 1 page;
                          Paginated.PerPage := (if perPage <? 1 then 12 else perPage);
                          Paginated.TotalPages := totalPages |}) /\
           (length data <= 50)%nat) /\
      (offset <= 0 -> cut = take (Z.to_nat size) rows)
  | _, _ => List' get = failed
  end.
Proof.
  intros page perPage size offset.
  unfold List, Repository_List. fold page perPage.
  cbn [Params.Page Params.PerPage Params.Category Params.Query Params.Sort].
  assert ((if page <? 1 then 1 else page) = Z.max 1 page) as ->
    by (destruct (Z.ltb_spec page 1); lia).
  assert ((Z.max 1 page <? 1) = false) as -> by lia.
  assert ((if ((if perPage <? 1 then 12 else perPage) <? 1)
              || (50 <? (if perPage <? 1 then 12 else perPage))
           then 12 else (if perPage <? 1 then 12 else perPage)) = size) as ->.
  { subst size. destruct (perPage <? 1) eqn:E; simpl; by rewrite ?E. }
  assert (1 <= size <= 50) as Hsize.
  { subst size. destruct (Z.ltb_spec perPage 1); [simpl; lia|].
    destruct (Z.ltb_spec 50 perPage); simpl; lia. }
  fold offset.
  destruct (sql_count _ _) as [err|total]; [done|].
  destruct (sql_select _ _ _) as [err|rows]; [done|].
  set (cut := limit_offset size offset rows). split; [|split].
  - intros Hex. destruct (scan_rows_error cut [] Hex) as [err Herr].
    by rewrite Herr.
  - intros data Hdata. rewrite Hdata, scan_rows_all. simpl.
    eexists. split; [reflexivity|].
    assert (length cut <= 50)%nat as Hlen.
    { unfold cut, limit_offset. rewrite (proj2 (Z.ltb_ge size 0)) by lia.
      rewrite length_take. lia. }
    rewrite Hdata, length_map in Hlen. done.
  - intros Hwrap. unfold cut, limit_offset. rewrite (proj2 (Z.ltb_ge size 0)) by lia.
    by rewrite (Z2Nat.nonpos _ Hwrap).
Qed.

End ListingMore.

Section RateLimitExamples.
Import Middleware HTTP RateLimit Samples.

(** X21 on a limit of two: three requests with one forwarded value, from
    three remote addresses. *)
Lemma X21_limit_then_429_witness :
  let rl := newRateLimiter 2 60 in
  let key := "203.0.113.7" in
  let q0 := (from "10.0.0.1:40000" key, at_time 100) in
  let qs := [ (from "10.0.0.2:40001" key, at_time 101);
              (from "10.0.0.3:40002" key, at_time 102) ] in
  (1 <= limit rl < GoInt.max_int) /\
  Forall (fun q => ip q.1 = key) (q0 :: qs) /\
  no_live_window rl key q0.2 /\
  length qs = Z.to_nat (limit rl) /\
  Forall (fun q => t_check q.2 <= Time.Add (t_install q0.2) (window rl)) qs /\
  (serve echo rl (q0 :: qs)).1
    = map (fun q => inr (echo q.1)) (take (Z.to_nat (limit rl)) (q0 :: qs))
      ++ [inl {| code := 429; contentType := "text/plain; charset=utf-8";
                 text := rate_limit_exceeded +:+ newline |}].
Proof.
  intros rl key q0 qs.
  assert (1 <= limit rl < GoInt.max_int) as H1 by (vm_compute; split; congruence).
  assert (Forall (fun q => ip q.1 = key) (q0 :: qs)) as H2
    by (repeat constructor).
  assert (no_live_window rl key q0.2) as H3 by exact I.
  assert (length qs = Z.to_nat (limit rl)) as H4 by reflexivity.
  assert (Forall (fun q => t_check q.2 <= Time.Add (t_install q0.2) (window rl)) qs) as H5
    by (repeat constructor; vm_compute; congruence).
  split; [exact H1|]. split; [exact H2|]. split; [exact H3|]. split; [exact H4|].
  split; [exact H5|].
  exact (X21_limit_then_429 echo rl key q0 qs H1 H2 H3 H4 H5).
Defined.

(** X22 on a limit of one: three requests from one remote address, each
    with a forwarded value of its own. *)
Lemma X22_new_keys_are_never_refused_witness :
  let rl := newRateLimiter 1 3600 in
  let requests :=
    [ (from "10.0.0.1:40000" "198.51.100.1", at_time 100);
      (from "10.0.0.1:40000" "198.51.100.2", at_time 101);
      (from "10.0.0.1:40000" "198.51.100.3", at_time 102) ] in
  NoDup (map (fun q => ip q.1) requests) /\
  Forall (fun q => visitors rl !! ip q.1 = None) requests /\
  (serve echo rl requests).1 = map (fun q => inr (echo q.1)) requests.
Proof.
  intros rl requests.
  assert (NoDup (map (fun q => ip q.1) requests)) as H1.
  { change (NoDup ["198.51.100.1"; "198.51.100.2"; "198.51.100.3"]).
    apply (bool_decide_unpack _). by vm_compute. }
  assert (Forall (fun q => visitors rl !! ip q.1 = None) requests) as H2
    by (repeat constructor).
  split; [exact H1|]. split; [exact H2|].
  exact (X22_new_keys_are_never_refused echo rl requests H1 H2).
Defined.

End RateLimitExamples.

Section ListingExamples.
Import Listing Samples.

Local Abbreviation List' := (List string sql_count sql_select strconv_Atoi).

(** X23 on the second page of four rows, of fourteen. *)
Lemma X23_listing_page_witness :
  let get := query_string "2" "4" in
  (strconv_Atoi (get "page")).1 = 2 /\ 1 <= 2 /\
  (strconv_Atoi (get "per_page")).1 = 4 /\ 1 <= 4 <= 50 /\
  sql_count (condition (get "category")) (condition (get "q")) = inr 14 /\
  sql_select (condition (get "category")) (condition (get "q")) (orderBy (get "sort"))
    = inr (map inr rows) /\
  14 < GoInt.max_int /\
  (2 - 1) * 4 <= GoInt.max_int /\
  List' get
    = writeJSON 200
        (Page {| Paginated.Data := [ "echo"; "foxtrot"; "golf"; "hotel" ];
                 Paginated.Total := 14; Paginated.Page := 2; Paginated.PerPage := 4;
                 Paginated.TotalPages := 4 |}) /\
  concat (map (fun i => take 4 (drop (i * 4) rows)) (seq 0 4)) = rows /\
  (4 < 2 -> [ "echo"; "foxtrot"; "golf"; "hotel" ] = []).
Proof.
  intros get.
  assert ((strconv_Atoi (get "page")).1 = 2) as H1 by reflexivity.
  assert (1 <= 2) as H2 by lia.
  assert ((strconv_Atoi (get "per_page")).1 = 4) as H3 by reflexivity.
  assert (1 <= 4 <= 50) as H4 by lia.
  assert (sql_count (condition (get "category")) (condition (get "q")) = inr 14) as H5
    by reflexivity.
  assert (sql_select (condition (get "category")) (condition (get "q"))
            (orderBy (get "sort")) = inr (map inr rows)) as H6 by reflexivity.
  assert (14 < GoInt.max_int) as H7 by reflexivity.
  assert ((2 - 1) * 4 <= GoInt.max_int) as H8 by (vm_compute; congruence).
  split; [exact H1|]. split; [exact H2|]. split; [exact H3|]. split; [exact H4|].
  split; [exact H5|]. split; [exact H6|]. split; [exact H7|]. split; [exact H8|].
  exact (X23_listing_page string sql_count sql_select strconv_Atoi get 2 4 rows
           H1 H2 H3 H4 H5 H6 H7 H8).
Defined.

(** X24 on a page size of 100: one page is announced, of the twelve first
    rows of fourteen. *)
Lemma X24_page_size_above_50_witness :
  let get := query_string "1" "100" in
  (strconv_Atoi (get "page")).1 = 1 /\ 1 <= 1 /\
  (strconv_Atoi (get "per_page")).1 = 100 /\ 50 < 100 /\
  sql_count (condition (get "category")) (condition (get "q")) = inr 14 /\
  sql_select (condition (get "category")) (condition (get "q")) (orderBy (get "sort"))
    = inr (map inr rows) /\
  14 < GoInt.max_int /\
  (1 - 1) * 12 <= GoInt.max_int /\
  List' get
    = writeJSON 200
        (Page {| Paginated.Data := take 12 rows;
                 Paginated.Total := 14; Paginated.Page := 1; Paginated.PerPage := 100;
                 Paginated.TotalPages := 1 |}) /\
  concat (map (fun i => take 12 (drop (i * 12) rows)) (seq 0 1)) = take 12 rows /\
  (12 < 14 -> Z.of_nat 12 < 14).
Proof.
  intros get.
  assert ((strconv_Atoi (get "page")).1 = 1) as H1 by reflexivity.
  assert (1 <= 1) as H2 by lia.
  assert ((strconv_Atoi (get "per_page")).1 = 100) as H3 by reflexivity.
  assert (50 < 100) as H4 by lia.
  assert (sql_count (condition (get "category")) (condition (get "q")) = inr 14) as H5
    by reflexivity.
  assert (sql_select (condition (get "category")) (condition (get "q"))
            (orderBy (get "sort")) = inr (map inr rows)) as H6 by reflexivity.
  assert (14 < GoInt.max_int) as H7 by reflexivity.
  assert ((1 - 1) * 12 <= GoInt.max_int) as H8 by (vm_compute; congruence).
  split; [exact H1|]. split; [exact H2|]. split; [exact H3|]. split; [exact H4|].
  split; [exact H5|]. split; [exact H6|]. split; [exact H7|]. split; [exact H8|].
  exact (X24_page_size_above_50 string sql_count sql_select strconv_Atoi get 1 100 rows
           H1 H2 H3 H4 H5 H6 H7 H8).
Defined.

(** X25 on two requests: a search text that is no full-text expression,
    which is answered with 500; and page 4611686018427387905 of four rows,
    whose offset is 2 ^ 64 and wraps around to zero, which is answered with
    the first page. *)
Lemma X25_listing_answers_witness :
  let bad := search_string "(" in
  let far := query_string "4611686018427387905" "4" in
  sql_count (condition (bad "category")) (condition (bad "q")) = inl fts_error /\
  List' bad = writeJSON 500 (ErrorResponse "failed to list skills") /\
  GoInt.wrap ((Z.max 1 (2 ^ 62 + 1) - 1) * 4) <= 0 /\
  exists totalPages,
    List' far
      = writeJSON 200
          (Page {| Paginated.Data := [ "alpha"; "bravo"; "charlie"; "delta" ];
                   Paginated.Total := 14; Paginated.Page := 2 ^ 62 + 1;
                   Paginated.PerPage := 4; Paginated.TotalPages := totalPages |}) /\
    (length [ "alpha"; "bravo"; "charlie"; "delta" ] <= 50)%nat.
Proof.
  intros bad far.
  assert (sql_count (condition (bad "category")) (condition (bad "q")) = inl fts_error)
    as H1 by reflexivity.
  assert (GoInt.wrap ((Z.max 1 (2 ^ 62 + 1) - 1) * 4) <= 0) as H2
    by (vm_compute; congruence).
  split; [exact H1|]. split; [|split; [exact H2|]].
  - exact (X25_listing_answers string sql_count sql_select strconv_Atoi bad).
  - exact (proj1 (proj2 (X25_listing_answers string sql_count sql_select strconv_Atoi far))
             [ "alpha"; "bravo"; "charlie"; "delta" ] eq_refl).
Defined.

End ListingExamples.

(** ** Where the manifest may be *)

Section ManifestFacts.
Import Service.

Lemma append_assoc (a b c : string) : (a +:+ b) +:+ c = a +:+ b +:+ c.
Proof.
  induction a as [|x a IH]; [done|].
  change (String x ((a +:+ b) +:+ c) = String x (a +:+ b +:+ c)). by rewrite IH.
Qed.

Lemma length_append (a b : string) :
  String.length (a +:+ b) = (String.length a + String.length b)%nat.
Proof.
  induction a as [|x a IH]; [done|].
  change (S (String.length (a +:+ b)) = S (String.length a + String.length b)).
  by rewrite IH.
Qed.

Lemma substring_all (s : string) : String.substring 0 (String.length s) s = s.
Proof. induction s as [|x s IH]; simpl; [done|by rewrite IH]. Qed.

Lemma substring_tail (a b : string) :
  String.substring (String.length a) (String.length b) (a +:+ b) = b.
Proof. induction a as [|x a IH]; [apply substring_all|exact IH]. Qed.

Lemma substring_front (a b : string) :
  String.substring 0 (String.length a) (a +:+ b) = a.
Proof.
  induction a as [|x a IH]; [by destruct b|].
  change (String x (String.substring 0 (String.length a) (a +:+ b)) = String x a).
  by rewrite IH.
Qed.

Lemma list_ascii_of_string_append (a b : string) :
  String.list_ascii_of_string (a +:+ b)
    = String.list_ascii_of_string a ++ String.list_ascii_of_string b.
Proof.
  induction a as [|x a IH]; [done|].
  change (x :: String.list_ascii_of_string (a +:+ b)
          = x :: (String.list_ascii_of_string a ++ String.list_ascii_of_string b)).
  by rewrite IH.
Qed.

(** A name that does not end in a slash is left as it is, one that does
    loses the slash. *)
Lemma TrimSuffix_other (s : string) (c : ascii) :
  c <> "/"%char -> Strings.TrimSuffix (s +:+ String c "") "/" = s +:+ String c "".
Proof.
  intros Hc. unfold Strings.TrimSuffix, Strings.HasSuffix.
  rewrite length_append. simpl String.length.
  replace (String.length s + 1 - 1)%nat with (String.length s) by lia.
  pose proof (substring_tail s (String c "")) as Htail.
  change (String.length (String c "")) with 1%nat in Htail. rewrite Htail.
  rewrite bool_decide_eq_false_2 by congruence. by rewrite andb_false_r.
Qed.

Lemma TrimSuffix_slash (s : string) : Strings.TrimSuffix (s +:+ "/") "/" = s.
Proof.
  unfold Strings.TrimSuffix, Strings.HasSuffix.
  rewrite length_append. simpl String.length.
  replace (String.length s + 1 - 1)%nat with (String.length s) by lia.
  pose proof (substring_tail s "/") as Htail.
  change (String.length "/") with 1%nat in Htail. rewrite Htail.
  rewrite (substring_front s "/").
  rewrite bool_decide_eq_true_2 by done.
  by destruct (Nat.leb_spec 1 (String.length s + 1)); [|lia].
Qed.

Lemma Split_length_pos (s : string) (sep : ascii) :
  (1 <= length (Strings.Split s sep))%nat.
Proof.
  induction s as [|c s IH]; simpl; [lia|].
  case_bool_decide; simpl; [lia|]. destruct (Strings.Split s sep); simpl in *; lia.
Qed.

(** [strings.Split] gives one piece more for each separator. *)
Lemma Split_length_append (a b : string) (sep : ascii) :
  length (Strings.Split (a +:+ String sep b) sep)
    = (length (Strings.Split a sep) + length (Strings.Split b sep))%nat.
Proof.
  induction a as [|c a IH].
  - change (EmptyString +:+ String sep b) with (String sep b). simpl.
    by rewrite bool_decide_eq_true_2.
  - change (String c a +:+ String sep b) with (String c (a +:+ String sep b)). simpl.
    case_bool_decide; simpl; [by rewrite IH|].
    pose proof (Split_length_pos (a +:+ String sep b) sep) as H1.
    pose proof (Split_length_pos a sep) as H2.
    destruct (Strings.Split (a +:+ String sep b) sep), (Strings.Split a sep);
      simpl in *; lia.
Qed.

Lemma Split_length_one (s : string) :
  Strings.Contains s "/" = false -> length (Strings.Split s "/") = 1%nat.
Proof.
  induction s as [|c s IH]; [done|].
  change (Strings.Contains (String c s) "/")
    with (String.prefix "/" (String c s) || Strings.Contains s "/").
  intros [Hc Hs]%orb_false_elim. simpl in *.
  destruct (Ascii.ascii_dec "/" c) as [<-|Hne]; [by destruct s|].
  rewrite bool_decide_eq_false_2 by congruence.
  specialize (IH Hs). by destruct (Strings.Split s "/") as [|p [|? ?]].
Qed.

Lemma Base_manifest (dir : string) :
  Filepath.Base (dir +:+ "/manifest.json") = "manifest.json" /\
  Filepath.Base (dir +:+ "/manifest.json/") = "manifest.json".
Proof.
  unfold Filepath.Base.
  rewrite !bool_decide_eq_false_2 by (by destruct dir).
  rewrite !list_ascii_of_string_append, !rev_app_distr. done.
Qed.

(** X26.  Where [validatePackage] takes a manifest from.  An entry named
    [manifest.json] counts, and so does one in a directory right under the
    root; so does a directory entry of that name, with its trailing slash.
    An entry [manifest.json] two or more directories down never counts,
    whatever the directories are called. *)
Theorem X26_manifest_at_most_one_directory_down (dir a b : string) (mode : Z)
    (open : string + list byte) :
  let entry name := {| Zip.Name := name; Zip.Mode := mode; Zip.Open := open |} in
  isManifest (entry "manifest.json") = true /\
  (Strings.Contains dir "/" = false ->
     isManifest (entry (dir +:+ "/manifest.json")) = true /\
     isManifest (entry (dir +:+ "/manifest.json/")) = true) /\
  isManifest (entry (a +:+ "/" +:+ b +:+ "/manifest.json")) = false.
Proof.
  intros entry. unfold isManifest, depth, entry. cbn [Zip.Name].
  split; [done|]. split.
  - intros Hdir.
    destruct (Base_manifest dir) as [-> ->].
    rewrite !bool_decide_eq_true_2 by done.
    replace (dir +:+ "/manifest.json/") with ((dir +:+ "/manifest.json") +:+ "/")
      by (by rewrite append_assoc).
    rewrite TrimSuffix_slash.
    replace (dir +:+ "/manifest.json") with ((dir +:+ "/manifest.jso") +:+ "n")
      by (by rewrite append_assoc).
    rewrite TrimSuffix_other by done.
    rewrite append_assoc.
    change (dir +:+ "/manifest.jso" +:+ "n") with (dir +:+ String "/" "manifest.json").
    rewrite Split_length_append, (Split_length_one _ Hdir). done.
  - replace (a +:+ "/" +:+ b +:+ "/manifest.json")
      with ((a +:+ "/" +:+ b +:+ "/manifest.jso") +:+ "n")
      by (by rewrite !append_assoc).
    rewrite TrimSuffix_other by done.
    rewrite !append_assoc.
    change (a +:+ "/" +:+ b +:+ "/manifest.jso" +:+ "n")
      with (a +:+ String "/" (b +:+ String "/" "manifest.json")).
    rewrite !Split_length_append.
    pose proof (Split_length_pos a "/"). pose proof (Split_length_pos b "/").
    change (length (Strings.Split "manifest.json" "/")) with 1%nat.
    rewrite andb_false_intro2; [done|]. apply Z.leb_gt. lia.
Qed.

End ManifestFacts.

(** ** Authentication in front of a handler *)

Section AuthMore.
Import HTTP Auth.

Variable float64 : Type.
Variable int64_of : float64 -> Z.
Variable jwt_Parse : string -> string -> string + Token float64.
Context {A : Type}.
Variable next : Context -> Request -> A.

Local Abbreviation Auth' := (Auth float64 int64_of jwt_Parse next).
Local Abbreviation OptionalAuth' := (OptionalAuth float64 int64_of jwt_Parse next).

Lemma cut_append (sep : ascii) (s before after : string) :
  cut sep s = Some (before, after) -> s = before +:+ String sep after.
Proof.
  revert before. induction s as [|c s IH]; intros before; simpl; [done|].
  case_bool_decide as Hc; [intros [= <- <-]; by rewrite Hc|].
  destruct (cut sep s) as [[b a]|]; [|done].
  intros [= <- <-]. by rewrite (IH b eq_refl).
Qed.

Lemma SplitN_Bearer (tokenString : string) :
  SplitN ("Bearer " +:+ tokenString) " " 2 = ["Bearer"; tokenString].
Proof. done. Qed.

(** What [with_claims] passes on. *)
Lemma with_claims_Next claims r answer :
  with_claims float64 int64_of next claims r = Next answer ->
  exists f name admin,
    claims !! "user_id" = Some (Number f) /\
    claims !! "username" = Some (Text name) /\
    claims !! "is_admin" = Some (Flag admin) /\
    answer = next {| user_id := Some (int64_of f); username := Some name;
                     is_admin := Some admin |} r.
Proof.
  unfold with_claims.
  destruct (claims !! "user_id") as [[f| | | |]|]; try done.
  destruct (claims !! "username") as [[|name| | |]|]; try done.
  destruct (claims !! "is_admin") as [[| |admin| |]|]; try done.
  intros [= <-]. by exists f, name, admin.
Qed.

(** What [Auth] passes on. *)
Lemma Auth_Next (jwtSecret : string) (r : Request) (answer : A) :
  Auth' jwtSecret r = Next answer ->
  exists tokenString token claims f name admin,
    Header_Get (Headers r) "Authorization" = "Bearer " +:+ tokenString /\
    jwt_Parse tokenString jwtSecret = inr token /\
    Valid token = true /\ Claims token = Some claims /\
    claims !! "user_id" = Some (Number f) /\
    claims !! "username" = Some (Text name) /\
    claims !! "is_admin" = Some (Flag admin) /\
    answer = next {| user_id := Some (int64_of f); username := Some name;
                     is_admin := Some admin |} r.
Proof.
  unfold Auth. case_bool_decide as Hheader; [done|].
  destruct (SplitN _ " " 2) as [|scheme [|tokenString [|? ?]]] eqn:Hparts; try done.
  case_bool_decide as Hscheme; [done|].
  subst scheme.
  destruct (jwt_Parse tokenString jwtSecret) as [msg|token] eqn:Hparse; [done|].
  destruct (Valid token) eqn:Hvalid; [|done]. simpl.
  destruct (Claims token) as [claims|] eqn:Hclaims; [|done].
  intros (f & name & admin & H1 & H2 & H3 & ->)%with_claims_Next.
  exists tokenString, token, claims, f, name, admin.
  split; [|done].
  simpl in Hparts.
  destruct (cut " " (Header_Get (Headers r) "Authorization")) as [[b a]|] eqn:Hcut;
    [|done].
  injection Hparts as -> ->. by apply cut_append in Hcut.
Qed.

(** X27.  [Auth] lets a request through only with a header [Bearer],
    one space, and a token that [jwt.Parse] accepts as valid under the
    secret; the next handler then runs on a context from which [GetUserID]
    returns the [user_id] claim of that token, converted to [int64].  Every
    refusal of [Auth] is a 401. *)
Theorem X27_auth_passes_verified_tokens_only (jwtSecret : string) (r : Request) :
  (forall answer, Auth' jwtSecret r = Next answer ->
     exists tokenString token claims f name admin,
       Header_Get (Headers r) "Authorization" = "Bearer " +:+ tokenString /\
       jwt_Parse tokenString jwtSecret = inr token /\
       Valid token = true /\ Claims token = Some claims /\
       claims !! "user_id" = Some (Number f) /\
       claims !! "username" = Some (Text name) /\
       claims !! "is_admin" = Some (Flag admin) /\
       let ctx := {| user_id := Some (int64_of f); username := Some name;
                     is_admin := Some admin |} in
       answer = next ctx r /\ GetUserID ctx = Some (int64_of f)) /\
  (forall reply, Auth' jwtSecret r = Refused reply ->
     code reply = 401 /\ contentType reply = "text/plain; charset=utf-8").
Proof.
  split.
  - intros answer Hnext.
    destruct (Auth_Next _ _ _ Hnext)
      as (tokenString & token & claims & f & name & admin & H1 & H2 & H3 & H4 & H5 & H6 &
          H7 & H8).
    by exists tokenString, token, claims, f, name, admin.
  - intros reply. unfold Auth, with_claims. repeat case_match; try done; by intros [= <-].
Qed.

(** X28.  A token that [jwt.Parse] accepts as valid but whose claims lack
    a numeric [user_id], a [username] that is a string or an [is_admin]
    that is a boolean, is not refused: the type assertion fails and the
    handler panics, in [Auth] and in [OptionalAuth] alike; the next handler
    is not run. *)
Theorem X28_valid_token_without_claims_panics (jwtSecret : string) (r : Request)
    (tokenString : string) (token : Token float64)
    (claims : gmap string (Value float64)) :
  Header_Get (Headers r) "Authorization" = "Bearer " +:+ tokenString ->
  jwt_Parse tokenString jwtSecret = inr token ->
  Valid token = true ->
  Claims token = Some claims ->
  (forall f, claims !! "user_id" <> Some (Number f)) \/
  (forall name, claims !! "username" <> Some (Text name)) \/
  (forall admin, claims !! "is_admin" <> Some (Flag admin)) ->
  Auth' jwtSecret r = Panic /\ OptionalAuth' jwtSecret r = Panic.
Proof.
  intros Hheader Hparse Hvalid Hclaims Hmissing.
  unfold Auth, OptionalAuth. rewrite Hheader.
  rewrite bool_decide_eq_false_2 by done.
  rewrite SplitN_Bearer. rewrite bool_decide_eq_false_2 by (by intros []).
  rewrite Hparse, Hvalid, Hclaims. simpl.
  assert (with_claims float64 int64_of next claims r = Panic) as ->; [|done].
  unfold with_claims.
  destruct (claims !! "user_id") as [[f| | | |]|] eqn:H1; try done.
  destruct (claims !! "username") as [[|name| | |]|] eqn:H2; try done.
  destruct (claims !! "is_admin") as [[| |admin| |]|] eqn:H3; try done.
  destruct Hmissing as [H|[H|H]]; [by destruct (H f)|by destruct (H name)|by destruct (H admin)].
Qed.

(** X29.  [OptionalAuth] refuses no request.  Without a header, with a
    header of another form, and with a token that [jwt.Parse] does not
    accept, the next handler runs on the plain context, from which
    [GetUserID] returns nothing. *)
Theorem X29_optional_auth_refuses_nothing (jwtSecret : string) (r : Request) :
  let header := Header_Get (Headers r) "Authorization" in
  (forall reply, OptionalAuth' jwtSecret r <> Refused reply) /\
  (header = EmptyString \/
   (forall tokenString, header <> "Bearer " +:+ tokenString) \/
   (forall tokenString token, header = "Bearer " +:+ tokenString ->
      jwt_Parse tokenString jwtSecret = inr token -> Valid token = false) ->
   OptionalAuth' jwtSecret r = Next (next background r) /\
   GetUserID background = None).
Proof.
  intros header. split.
  - intros reply. unfold OptionalAuth, with_claims. repeat case_match; done.
  - intros Hcases. split; [|done]. unfold OptionalAuth. fold header.
    case_bool_decide as Hheader; [done|].
    destruct Hcases as [?|Hcases]; [done|].
    destruct (SplitN header " " 2) as [|scheme [|tokenString [|? ?]]] eqn:Hparts; try done.
    case_bool_decide as Hscheme; [done|].
    subst scheme.
    assert (header = "Bearer " +:+ tokenString) as Hshape.
    { simpl in Hparts. destruct (cut " " header) as [[b a]|] eqn:Hcut; [|done].
      injection Hparts as -> ->. by apply cut_append in Hcut. }
    destruct Hcases as [Hform|Hinvalid]; [by destruct (Hform tokenString)|].
    destruct (jwt_Parse tokenString jwtSecret) as [msg|token] eqn:Hparse; [done|].
    by rewrite (Hinvalid tokenString token Hshape Hparse).
Qed.

End AuthMore.

Section AuthBeforeCreate.
Import Errors Service Handler.

Variable sha256_Sum : list byte -> list byte.
Variable zip_NewReader : list byte -> string + list Zip.File.
Variable json_Decode : list byte -> string + SkillManifest.
Variable json_Marshal : list string -> string.
Context {S : Type} `{Scanner.Scanner S}.
Variable float64 : Type.
Variable int64_of : float64 -> Z.
Variable jwt_Parse : string -> string -> string + Auth.Token float64.

(** X30.  [Create] as it is routed, behind [Auth]: whenever the
    middleware passes a request on, [Create] finds the user identifier in
    the context, so it never answers 401 itself; and the record it makes on
    a 201 has as its author the [user_id] claim of the token. *)
Theorem X30_create_behind_auth (h : SkillHandler S) (st : State) (env : Entropy)
    (form : HTTP.Request -> option error * (error + IO.Reader))
    (jwtSecret : string) (r : HTTP.Request) (resp : Response) (st' : State) :
  let create (ctx : Auth.Context) (r : HTTP.Request) :=
    Create sha256_Sum zip_NewReader json_Decode json_Marshal h st
      {| userID := Auth.GetUserID ctx; parseMultipartForm := (form r).1;
         formFile := (form r).2 |} env in
  Auth.Auth float64 int64_of jwt_Parse create jwtSecret r = Auth.Next (resp, st') ->
  status resp <> StatusUnauthorized /\
  (status resp = StatusCreated ->
   exists skill tokenString token claims f,
     body resp = SkillResponse skill /\
     HTTP.Header_Get (HTTP.Headers r) "Authorization" = "Bearer " +:+ tokenString /\
     jwt_Parse tokenString jwtSecret = inr token /\
     Auth.Claims token = Some claims /\
     claims !! "user_id" = Some (Auth.Number f) /\
     Model.AuthorID skill = int64_of f).
Proof.
  intros create Hauth.
  destruct (Auth_Next float64 int64_of jwt_Parse create jwtSecret r _ Hauth)
    as (tokenString & token & claims & f & name & admin & Hheader & Hparse & Hvalid &
        Hclaims & Hid & _ & _ & Hanswer).
  clear Hauth. unfold create, Create in Hanswer. simpl in Hanswer.
  destruct (form r).1; [by injection Hanswer as -> _|].
  destruct (form r).2 as [e|file]; [by injection Hanswer as -> _|].
  destruct (SaveFile _ _ _ _ _ _ _ _) as [[[err|[[filePath fileHash] manifest]] fs1] rest].
  { repeat case_match; by injection Hanswer as -> _. }
  destruct (Scanner.Scan _ _ _) as [scanResult err].
  destruct (_ || _); [by injection Hanswer as -> _|].
  destruct (Repository.Create _ _) as [[[e|] db1] skill'] eqn:Hins;
    [by injection Hanswer as -> _|].
  injection Hanswer as -> _. split; [done|]. intros _.
  exists skill', tokenString, token, claims, f.
  unfold Repository.Create in Hins. repeat case_bool_decide; try done.
  by injection Hins as _ <-.
Qed.

End AuthBeforeCreate.

Section ManifestExamples.
Import Service.

(** X26 on the directories [pkg] and [pkg/deep]. *)
Lemma X26_manifest_at_most_one_directory_down_witness :
  let entry name := Fixtures.regular name Fixtures.json_demo in
  Strings.Contains "pkg" "/" = false /\
  isManifest (entry "manifest.json") = true /\
  isManifest (entry "pkg/manifest.json") = true /\
  isManifest (entry "pkg/manifest.json/") = true /\
  isManifest (entry "pkg/deep/manifest.json") = false.
Proof.
  intros entry.
  assert (Strings.Contains "pkg" "/" = false) as H by reflexivity.
  destruct (X26_manifest_at_most_one_directory_down "pkg" "pkg" "deep" 420
              (inr (Fixtures.bytes_of Fixtures.json_demo))) as (H1 & H2 & H3).
  destruct (H2 H) as [H4 H5].
  split; [exact H|]. split; [exact H1|]. split; [exact H4|]. split; [exact H5|exact H3].
Defined.

End ManifestExamples.

Section AuthExamples.
Import HTTP Auth Samples.

Local Abbreviation Auth' next := (Auth Z id jwt_Parse next secret).
Local Abbreviation OptionalAuth' next := (OptionalAuth Z id jwt_Parse next secret).

(** X27 on a token that verifies, in front of a handler that answers with
    what [GetUserID] returns. *)
Lemma X27_auth_passes_verified_tokens_only_witness :
  let r := authorized "Bearer header.ada.signature" in
  let next (ctx : Context) (_ : Request) := GetUserID ctx in
  Auth' next r = Next (Some 1) /\
  exists tokenString token claims f name admin,
    Header_Get (Headers r) "Authorization" = "Bearer " +:+ tokenString /\
    jwt_Parse tokenString secret = inr token /\
    Valid token = true /\ Claims token = Some claims /\
    claims !! "user_id" = Some (Number f) /\
    claims !! "username" = Some (Text name) /\
    claims !! "is_admin" = Some (Flag admin) /\
    let ctx := {| user_id := Some (id f); username := Some name;
                  is_admin := Some admin |} in
    Some 1 = next ctx r /\ GetUserID ctx = Some (id f).
Proof.
  intros r next.
  assert (Auth' next r = Next (Some 1)) as H by reflexivity.
  split; [exact H|].
  exact (proj1 (X27_auth_passes_verified_tokens_only Z id jwt_Parse next secret r) _ H).
Defined.

(** X28 on a token that verifies and has no claims. *)
Lemma X28_valid_token_without_claims_panics_witness :
  let r := authorized "Bearer header.empty.signature" in
  let next (ctx : Context) (_ : Request) := GetUserID ctx in
  let token := {| Valid := true; Claims := Some (∅ : gmap string (Value Z)) |} in
  Header_Get (Headers r) "Authorization" = "Bearer " +:+ "header.empty.signature" /\
  jwt_Parse "header.empty.signature" secret = inr token /\
  Valid token = true /\
  Claims token = Some ∅ /\
  ((forall f, (∅ : gmap string (Value Z)) !! "user_id" <> Some (Number f)) \/
   (forall name, (∅ : gmap string (Value Z)) !! "username" <> Some (Text name)) \/
   (forall admin, (∅ : gmap string (Value Z)) !! "is_admin" <> Some (Flag admin))) /\
  Auth' next r = Panic /\ OptionalAuth' next r = Panic.
Proof.
  intros r next token.
  assert (Header_Get (Headers r) "Authorization" = "Bearer " +:+ "header.empty.signature")
    as H1 by reflexivity.
  assert (jwt_Parse "header.empty.signature" secret = inr token) as H2 by reflexivity.
  assert (Valid token = true) as H3 by reflexivity.
  assert (Claims token = Some ∅) as H4 by reflexivity.
  assert ((forall f, (∅ : gmap string (Value Z)) !! "user_id" <> Some (Number f)) \/
          (forall name, (∅ : gmap string (Value Z)) !! "username" <> Some (Text name)) \/
          (forall admin, (∅ : gmap string (Value Z)) !! "is_admin" <> Some (Flag admin)))
    as H5 by (left; intros f; discriminate).
  split; [exact H1|]. split; [exact H2|]. split; [exact H3|]. split; [exact H4|].
  split; [exact H5|].
  exact (X28_valid_token_without_claims_panics Z id jwt_Parse next secret r
           "header.empty.signature" token ∅ H1 H2 H3 H4 H5).
Defined.

(** X29 on a header of another scheme. *)
Lemma X29_optional_auth_refuses_nothing_witness :
  let r := authorized "Basic YWRhOnNlY3JldA==" in
  let next (ctx : Context) (_ : Request) := GetUserID ctx in
  (forall tokenString,
     Header_Get (Headers r) "Authorization" <> "Bearer " +:+ tokenString) /\
  OptionalAuth' next r = Next None /\
  GetUserID background = None.
Proof.
  intros r next.
  assert (forall tokenString,
            Header_Get (Headers r) "Authorization" <> "Bearer " +:+ tokenString) as H
    by (intros tokenString; discriminate).
  split; [exact H|].
  exact (proj2 (X29_optional_auth_refuses_nothing Z id jwt_Parse next secret r)
           (or_intror (or_introl H))).
Defined.

End AuthExamples.

Section AuthBeforeCreateExamples.
Import Errors Service Handler Fixtures.

(** X30 on the sample archive, uploaded with a token of user 1. *)
Lemma X30_create_behind_auth_witness :
  let h := {| Handler.storage := Fixtures.storage; Handler.scanner := AlwaysClean |} in
  let st := {| files := ∅; db := db_empty |} in
  let form (_ : HTTP.Request) : option error * (error + IO.Reader) :=
    (None, inr (upload (archive "demo"))) in
  let r := Samples.authorized "Bearer header.ada.signature" in
  let skill :=
    Model.set_ID
      (newSkill (manifest "Demo" "demo" "1.0.0") 1 finalPath "6f6d6564" "clean" "null") 1 in
  let resp := writeJSON 201 (SkillResponse skill) in
  let st' := {| files := {[ finalPath := archive "demo" ]};
                db := {| Repository.users := {[ 1 ]}; Repository.skills := [skill];
                         Repository.lastID := 1 |} |} in
  let create (ctx : Auth.Context) (r : HTTP.Request) :=
    Create sha256_Sum zip_NewReader json_Decode json_Marshal h st
      {| userID := Auth.GetUserID ctx; parseMultipartForm := (form r).1;
         formFile := (form r).2 |} entropy in
  Auth.Auth Z id Samples.jwt_Parse create Samples.secret r = Auth.Next (resp, st') /\
  status resp <> StatusUnauthorized /\
  (status resp = StatusCreated ->
   exists skill0 tokenString token claims f,
     body resp = SkillResponse skill0 /\
     HTTP.Header_Get (HTTP.Headers r) "Authorization" = "Bearer " +:+ tokenString /\
     Samples.jwt_Parse tokenString Samples.secret = inr token /\
     Auth.Claims token = Some claims /\
     claims !! "user_id" = Some (Auth.Number f) /\
     Model.AuthorID skill0 = id f).
Proof.
  intros h st form r skill resp st' create.
  assert (Auth.Auth Z id Samples.jwt_Parse create Samples.secret r = Auth.Next (resp, st'))
    as H by reflexivity.
  split; [exact H|].
  exact (X30_create_behind_auth sha256_Sum zip_NewReader json_Decode json_Marshal
           Z id Samples.jwt_Parse h st entropy form Samples.secret r resp st' H).
Defined.

End AuthBeforeCreateExamples.
